(** * Bracket capture session of [rpi/capture.py]

    A shallow embedding of the capture script: the Python built-ins it
    relies on ([str], [str.format], [os.path.join], [os.makedirs],
    [itertools.product], [enumerate]), a mock camera and file system with
    an event trace, and the script itself as a program in a small
    state-and-exception monad. *)

From Stdlib Require Import ZArith List String Ascii Bool Lia.
From Stdlib Require Import Decimal DecimalString DecimalZ.
From stdpp Require Import base option list gmap strings.
Import ListNotations.

Local Open Scope Z_scope.
Local Open Scope string_scope.
Local Open Scope list_scope.

(** ** Python values and their rendering *)

(** [str(n)] for a Python [int]. *)
Definition str_int (z : Z) : string := NilZero.string_of_int (Z.to_int z).

(** [', '.join(l)]. *)
Fixpoint join_comma (l : list string) : string :=
  match l with
  | [] => ""
  | [x] => x
  | x :: l' => x +:+ ", " +:+ join_comma l'
  end.

(** [str(l)] for a list of [int]: brackets around the comma-separated
    elements. *)
Definition str_list (l : list Z) : string :=
  "[" +:+ join_comma (map str_int l) +:+ "]".

(** [fractions.Fraction]: the camera reports its white-balance gains as a
    pair of these. *)
Record Fraction := mkFraction { numerator : Z; denominator : Z }.

Definition repr_Fraction (q : Fraction) : string :=
  "Fraction(" +:+ str_int (numerator q) +:+ ", " +:+ str_int (denominator q) +:+ ")".

Definition gains : Type := Fraction * Fraction.

(** [str(g)] for a 2-tuple of fractions. *)
Definition str_gains (g : gains) : string :=
  "(" +:+ repr_Fraction (fst g) +:+ ", " +:+ repr_Fraction (snd g) +:+ ")".

Global Instance Fraction_eq_dec : EqDecision Fraction.
Proof. solve_decision. Defined.

(** ** Paths: [posixpath.join] and [posixpath.split] *)

Definition is_sep (c : ascii) : bool := Ascii.eqb c "/".

Definition startswith_sep (s : string) : bool :=
  match s with
  | String c _ => is_sep c
  | EmptyString => false
  end.

Fixpoint endswith_sep (s : string) : bool :=
  match s with
  | EmptyString => false
  | String c EmptyString => is_sep c
  | String _ s' => endswith_sep s'
  end.

Definition is_empty (s : string) : bool :=
  match s with EmptyString => true | _ => false end.

(** [os.path.join(a, b)]: an absolute [b] discards [a]. *)
Definition path_join (a b : string) : string :=
  if startswith_sep b then b
  else if is_empty a || endswith_sep a then a +:+ b
  else a +:+ "/" +:+ b.

Fixpoint has_sep (s : string) : bool :=
  match s with
  | EmptyString => false
  | String c s' => is_sep c || has_sep s'
  end.

Fixpoint all_sep (s : string) : bool :=
  match s with
  | EmptyString => true
  | String c s' => is_sep c && all_sep s'
  end.

(** [(p[:i], p[i:])] for [i = p.rfind('/') + 1]. *)
Fixpoint cut_last_sep (p : string) : string * string :=
  match p with
  | EmptyString => ("", "")
  | String c p' =>
      if has_sep p' then
        let '(h, t) := cut_last_sep p' in (String c h, t)
      else if is_sep c then (String c "", p')
      else ("", String c p')
  end.

(** [s.rstrip('/')]. *)
Fixpoint rstrip_sep (s : string) : string :=
  match s with
  | EmptyString => ""
  | String c s' =>
      let r := rstrip_sep s' in
      if is_sep c && is_empty r then "" else String c r
  end.

(** [os.path.split(p)]. *)
Definition path_split (p : string) : string * string :=
  let '(head, tail) := cut_last_sep p in
  (if negb (is_empty head) && negb (all_sep head) then rstrip_sep head else head,
   tail).

(** ** The module-level constants of the script *)

(** [fr = fractions.Fraction(17, 1)] *)
Definition fr : Fraction := mkFraction 17 1.

(** [res = (3280, 2464)] *)
Definition res : Z * Z := (3280, 2464).

(** [name = 'raw'] *)
Definition name : string := "raw".

(** [folder = 'capture'] *)
Definition folder : string := "capture".

(** [output_format = 'jpg'] *)
Definition output_format : string := "jpg".

(** [filename(name, iso, shutter_speed)]:
    ['{0}-{1}-{2}.{3}'.format(name, iso, shutter_speed, output_format)]. *)
Definition filename (name : string) (iso shutter_speed : Z) : string :=
  name +:+ "-" +:+ str_int iso +:+ "-" +:+ str_int shutter_speed +:+ "." +:+ output_format.

(** ** Iteration helpers *)

(** [itertools.product(xs, ys)]: [[(x, y) for x in xs for y in ys]]. *)
Fixpoint product {A B : Type} (xs : list A) (ys : list B) : list (A * B) :=
  match xs with
  | [] => []
  | x :: xs' => map (pair x) ys ++ product xs' ys
  end.

(** [enumerate(l)], counting from [start]. *)
Fixpoint enumerate_from {A : Type} (start : nat) (l : list A) : list (nat * A) :=
  match l with
  | [] => []
  | x :: l' => (start, x) :: enumerate_from (S start) l'
  end.

Definition enumerate {A : Type} (l : list A) : list (nat * A) := enumerate_from 0 l.

(** ** Time stamps *)

Record datetime := mkDatetime {
  year : N; month : N; day : N; hour : N; minute : N; second : N
}.

Definition str_N (n : N) : string := NilZero.string_of_uint (N.to_uint n).

(** A two-digit, zero-padded field ([%m], [%d], [%H], [%M], [%S]). *)
Definition pad2 (n : N) : string :=
  if (n <? 10)%N then "0" +:+ str_N n else str_N n.

(** [t.strftime('%Y-%m-%d-%H-%M-%S')] *)
Definition strftime (t : datetime) : string :=
  str_N (year t) +:+ "-" +:+ pad2 (month t) +:+ "-" +:+ pad2 (day t) +:+ "-" +:+
  pad2 (hour t) +:+ "-" +:+ pad2 (minute t) +:+ "-" +:+ pad2 (second t).

Example filename_default :
  filename "raw" 100 1000 = "raw-100-1000.jpg".
Proof. reflexivity. Qed.

Example str_list_default :
  str_list [1000; 2500; 5000; 10000] = "[1000, 2500, 5000, 10000]".
Proof. reflexivity. Qed.

Example strftime_example :
  strftime (mkDatetime 2019 7 4 9 30 5) = "2019-07-04-09-30-05".
Proof. reflexivity. Qed.

Example path_split_example :
  path_split "capture/2019-07-04-09-30-05" = ("capture", "2019-07-04-09-30-05").
Proof. reflexivity. Qed.

Example path_join_absolute :
  path_join "capture/x" "/tmp/raw-1-2.jpg" = "/tmp/raw-1-2.jpg".
Proof. reflexivity. Qed.

(** ** The outside world: camera, file system, trace *)

(** The exceptions that can end the script. *)
Inductive exn :=
| IndexError
| OSError
| FileExistsError
| PiCameraError
| RecursionError.

Global Instance exn_eq_dec : EqDecision exn.
Proof. solve_decision. Defined.

(** [FileExistsError] is a subclass of [OSError]. *)
Definition is_OSError (e : exn) : bool :=
  match e with OSError | FileExistsError => true | _ => false end.

(** The state of the camera module as the script can observe it. *)
Record camera := mkCamera {
  cam_open : bool;
  previewing : bool;
  iso : Z;
  shutter_speed : Z;
  exposure_mode : string;
  awb_mode : string;
  awb_gains : gains
}.

(** What a path of the file system holds. An image remembers the
    sensitivity and exposure time the camera had when it was taken. *)
Inductive node :=
| Dir
| Text (lines : list string)
| Image (at_iso at_shutter_speed : Z).

Global Instance node_eq_dec : EqDecision node.
Proof. solve_decision. Defined.

(** Every call the script makes to the operating system, the standard
    output or the camera. *)
Inductive op :=
| OMkdir (path : string)
| OPrint (line : string)
| OPrintTiming (idx : nat)
| OOpenCamera (framerate : Fraction) (resolution : Z * Z)
| OStartPreview (resolution : Z * Z) (fullscreen : bool) (window : Z * Z * Z * Z)
| OSetIso (v : Z)
| OSleep (secs : Z)
| OSetShutterSpeed (v : Z)
| OSetExposureMode (m : string)
| OGetAwbGains
| OSetAwbMode (m : string)
| OSetAwbGains (g : gains)
| OCapture (dest : string)
| OStopPreview
| OGetExposureMode
| OGetAwbMode
| OOpenFile (path : string)
| OWriteLine (path : string) (line : string)
| OCloseFile (path : string)
| OCloseCamera.

Global Instance op_eq_dec : EqDecision op.
Proof. solve_decision. Defined.

(** A call that returned, or a call that raised. *)
Inductive event :=
| Done (o : op)
| Failed (o : op).

Global Instance event_eq_dec : EqDecision event.
Proof. solve_decision. Defined.

Record world := mkWorld {
  trace : list event;
  fsys : gmap string node;
  device : camera
}.

Definition log (ev : event) (w : world) : world :=
  mkWorld (trace w ++ [ev]) (fsys w) (device w).

Definition set_fsys (f : gmap string node → gmap string node) (w : world) : world :=
  mkWorld (trace w) (f (fsys w)) (device w).

Definition set_device (f : camera → camera) (w : world) : world :=
  mkWorld (trace w) (fsys w) (f (device w)).

(** [print(line, file=f)] on an open text file. *)
Definition append_line (path line : string) (fs : gmap string node) : gmap string node :=
  match fs !! path with
  | Some (Text ls) => <[path := Text (ls ++ [line])]> fs
  | _ => fs
  end.

(** What a call does to the world when it returns. Property writes take
    effect at once; a freshly opened camera is in its automatic modes and
    keeps measuring the gains it had. *)
Definition effect (o : op) (w : world) : world :=
  match o with
  | OMkdir p => set_fsys (insert p Dir) w
  | OOpenCamera _ _ =>
      set_device (λ c, mkCamera true false 0 0 "auto" "auto" (awb_gains c)) w
  | OStartPreview _ _ _ =>
      set_device (λ c, mkCamera (cam_open c) true (iso c) (shutter_speed c)
                         (exposure_mode c) (awb_mode c) (awb_gains c)) w
  | OStopPreview =>
      set_device (λ c, mkCamera (cam_open c) false (iso c) (shutter_speed c)
                         (exposure_mode c) (awb_mode c) (awb_gains c)) w
  | OSetIso v =>
      set_device (λ c, mkCamera (cam_open c) (previewing c) v (shutter_speed c)
                         (exposure_mode c) (awb_mode c) (awb_gains c)) w
  | OSetShutterSpeed v =>
      set_device (λ c, mkCamera (cam_open c) (previewing c) (iso c) v
                         (exposure_mode c) (awb_mode c) (awb_gains c)) w
  | OSetExposureMode m =>
      set_device (λ c, mkCamera (cam_open c) (previewing c) (iso c) (shutter_speed c)
                         m (awb_mode c) (awb_gains c)) w
  | OSetAwbMode m =>
      set_device (λ c, mkCamera (cam_open c) (previewing c) (iso c) (shutter_speed c)
                         (exposure_mode c) m (awb_gains c)) w
  | OSetAwbGains g =>
      set_device (λ c, mkCamera (cam_open c) (previewing c) (iso c) (shutter_speed c)
                         (exposure_mode c) (awb_mode c) g) w
  | OCloseCamera =>
      set_device (λ c, mkCamera false false (iso c) (shutter_speed c)
                         (exposure_mode c) (awb_mode c) (awb_gains c)) w
  | OCapture dest =>
      set_fsys (insert dest (Image (iso (device w)) (shutter_speed (device w)))) w
  | OOpenFile p => set_fsys (insert p (Text [])) w
  | OWriteLine p line => set_fsys (append_line p line) w
  | OPrint _ | OPrintTiming _ | OSleep _ | OGetAwbGains
  | OGetExposureMode | OGetAwbMode | OCloseFile _ => w
  end.

(** The exception a failing call raises. *)
Definition exn_of (o : op) : exn :=
  match o with
  | OMkdir _ | OPrint _ | OPrintTiming _ | OSleep _
  | OOpenFile _ | OWriteLine _ _ | OCloseFile _ => OSError
  | _ => PiCameraError
  end.

(** ** The monad of the script: state and exceptions *)

Inductive result (A : Type) :=
| Ok (a : A)
| Raise (e : exn).
Arguments Ok {A} a.
Arguments Raise {A} e.

Definition M (A : Type) : Type := world → result A * world.

Global Instance M_ret : MRet M := λ A a w, (Ok a, w).

Global Instance M_bind : MBind M := λ A B f m w,
  match m w with
  | (Ok a, w') => f a w'
  | (Raise e, w') => (Raise e, w')
  end.

Definition raise {A : Type} (e : exn) : M A := λ w, (Raise e, w).

Definition gets {A : Type} (f : world → A) : M A := λ w, (Ok (f w), w).

(** [try: m  except Exception as e: h e] *)
Definition try_except {A : Type} (m : M A) (h : exn → M A) : M A := λ w,
  match m w with
  | (Ok a, w') => (Ok a, w')
  | (Raise e, w') => h e w'
  end.

(** [try: m  finally: fin], for a [fin] that is a single release call. *)
Definition try_finally {A : Type} (m : M A) (fin : world → world) : M A := λ w,
  let '(r, w') := m w in (r, fin w').

(** [l[i]] *)
Definition getitem {A : Type} (l : list A) (i : nat) : M A :=
  match l !! i with
  | Some x => mret x
  | None => raise IndexError
  end.

(** [for x in l: body x] *)
Fixpoint for_each {A : Type} (l : list A) (body : A → M unit) : M unit :=
  match l with
  | [] => mret tt
  | x :: l' => body x;; for_each l' body
  end.

Definition path_exists (p : string) : M bool :=
  gets (λ w, bool_decide (is_Some (fsys w !! p))).

Definition path_isdir (p : string) : M bool :=
  gets (λ w, bool_decide (fsys w !! p = Some Dir)).

Section Session.

(** Which calls fail is decided from outside: by the history so far and
    the call that is attempted. *)
Variable fault : list event → op → bool.

(** An external call: it raises when the outside makes it fail, and
    otherwise has its effect. *)
Definition step (o : op) : M unit := λ w,
  if fault (trace w) o then (Raise (exn_of o), log (Failed o) w)
  else (Ok tt, effect o (log (Done o) w)).

(** A release on leaving a [with] block: it does not fail. *)
Definition release (o : op) (w : world) : world := effect o (log (Done o) w).

(** [os.mkdir(p)]: besides the failures the outside decides, it refuses
    a path that exists. *)
Definition mkdir (p : string) : M unit := λ w,
  if fault (trace w) (OMkdir p) then (Raise OSError, log (Failed (OMkdir p)) w)
  else if bool_decide (is_Some (fsys w !! p))
       then (Raise FileExistsError, log (Failed (OMkdir p)) w)
  else (Ok tt, effect (OMkdir p) (log (Done (OMkdir p)) w)).

(** [os.makedirs(name, exist_ok=exist_ok)] *)
Fixpoint makedirs (fuel : nat) (name : string) (exist_ok : bool) : M unit :=
  match fuel with
  | O => raise RecursionError
  | S fuel' =>
      let '(head, tail) := path_split name in
      let '(head, tail) := if is_empty tail then path_split head else (head, tail) in
      head_exists ← path_exists head;
      stop ← (if negb (is_empty head) && negb (is_empty tail) && negb head_exists
              then
                try_except (makedirs fuel' head exist_ok)
                  (λ e, if decide (e = FileExistsError) then mret tt else raise e);;
                mret (bool_decide (tail = "."))
              else mret false);
      if (stop : bool) then mret tt
      else
        try_except (mkdir name)
          (λ e, if is_OSError e
                then isdir ← path_isdir name;
                     if negb exist_ok || negb isdir then raise e else mret tt
                else raise e)
  end.

(** [with picamera.PiCamera(framerate=fr, resolution=res) as camera: body] *)
Definition with_camera {A : Type} (body : M A) : M A :=
  step (OOpenCamera fr res);;
  try_finally body (release OCloseCamera).

(** [with open(path, 'w') as f: body] *)
Definition with_open {A : Type} (path : string) (body : M A) : M A :=
  step (OOpenFile path);;
  try_finally body (release (OCloseFile path)).

(** [camera.awb_gains] *)
Definition get_awb_gains : M gains :=
  step OGetAwbGains;; gets (λ w, awb_gains (device w)).

(** [camera.exposure_mode] *)
Definition get_exposure_mode : M string :=
  step OGetExposureMode;; gets (λ w, exposure_mode (device w)).

(** [camera.awb_mode] *)
Definition get_awb_mode : M string :=
  step OGetAwbMode;; gets (λ w, awb_mode (device w)).

(** The command line, the clock and the two ranges the script brackets
    over. *)
Variable argv : list string.
Variable now : datetime.
Variables iso_rng shutter_rng : list Z.

(** Lines 53-60: the base name and the output folder. *)
Definition session_init : M (string * string) :=
  nm ← (if bool_decide (length argv = 2%nat) then getitem argv 1 else mret name);
  let path := path_join folder (strftime now) in
  makedirs (S (String.length path)) path true;;
  mret (nm, path).

(** Lines 71-78: fix sensitivity, exposure and white balance. *)
Definition calibrate : M gains :=
  iso0 ← getitem iso_rng 0;
  step (OSetIso iso0);;
  step (OSleep 2);;
  shutter0 ← getitem shutter_rng 0;
  step (OSetShutterSpeed shutter0);;
  step (OSetExposureMode "off");;
  g ← get_awb_gains;
  step (OSetAwbMode "off");;
  step (OSetAwbGains g);;
  step (OPrint ("Gains fixed to: " +:+ str_gains g));;
  mret g.

(** Lines 81-99: one pass of the loop. The readings of [timer()] only
    feed the progress line. *)
Definition capture_one (nm path : string) (it : nat * (Z * Z)) : M unit :=
  let '(idx, (iso, shutter_speed)) := it in
  step (OPrint ("Setting ISO=" +:+ str_int iso +:+ ", shutter speed=" +:+
                str_int shutter_speed));;
  step (OSetIso iso);;
  step (OSetShutterSpeed shutter_speed);;
  step (OCapture (path_join path (filename nm iso shutter_speed)));;
  step (OPrintTiming idx).

(** Lines 80-99. *)
Definition capture_loop (nm path : string) : M unit :=
  for_each (enumerate (product iso_rng shutter_rng)) (capture_one nm path).

(** Lines 104-110: the settings file. *)
Definition write_params (path : string) (g : gains) : M unit :=
  let f := path_join path "params.txt" in
  with_open f (
    em ← get_exposure_mode;
    step (OWriteLine f ("Exposure mode: " +:+ em));;
    am ← get_awb_mode;
    step (OWriteLine f ("AWB mode: " +:+ am));;
    step (OWriteLine f ("Gains: " +:+ str_gains g));;
    step (OWriteLine f ("ISOs: " +:+ str_list iso_rng));;
    step (OWriteLine f ("Shutter speeds: " +:+ str_list shutter_rng))).

(** Lines 64-112: the body of the [with] block. *)
Definition camera_block (nm path : string) : M unit :=
  step (OStartPreview (410, 313) false (100, 100, 820, 616));;
  g ← calibrate;
  capture_loop nm path;;
  step OStopPreview;;
  write_params path g;;
  step (OPrint "Done.").

(** The script. *)
Definition main : M unit :=
  '(nm, path) ← session_init;
  step (OPrint ("Taking " +:+
                str_int (Z.of_nat (length iso_rng * length shutter_rng)) +:+
                " pictures."));;
  with_camera (camera_block nm path).

End Session.

(** A world with nothing on disk and an idle camera that measures the
    gains [g]. *)
Definition idle_camera (g : gains) : camera := mkCamera false false 0 0 "auto" "auto" g.

Definition fresh_world (g : gains) : world := mkWorld [] ∅ (idle_camera g).

(** No call fails. *)
Definition no_fault : list event → op → bool := λ _ _, false.

(** ** Reading traces *)

Definition op_of (ev : event) : op :=
  match ev with Done o | Failed o => o end.

Definition is_capture (o : op) : bool :=
  match o with OCapture _ => true | _ => false end.

Definition is_handle_op (o : op) : bool :=
  match o with OOpenCamera _ _ | OCloseCamera => true | _ => false end.

Definition is_mkdir (o : op) : bool :=
  match o with OMkdir _ => true | _ => false end.

Definition is_file_op (o : op) : bool :=
  match o with OOpenFile _ | OWriteLine _ _ | OCloseFile _ => true | _ => false end.

(** The events of a trace whose call satisfies [P], in order. *)
Definition events_of (P : op → bool) (t : list event) : list event :=
  List.filter (λ ev, P (op_of ev)) t.

(** Every event of the trace is a call in [P]. *)
Definition only (P : op → bool) (t : list event) : Prop :=
  Forall (λ ev, P (op_of ev) = true) t.

(** The worlds a list of calls leads through when each of them returns. *)
Definition run_ok (ops : list op) (w : world) : world :=
  fold_left (λ w o, effect o (log (Done o) w)) ops w.

(** ** The calls of an undisturbed session, block by block *)

(** The seven calls that fix the camera settings. *)
Definition calibration_ops (iso0 shutter0 : Z) (g : gains) : list op :=
  [OSetIso iso0; OSleep 2; OSetShutterSpeed shutter0; OSetExposureMode "off";
   OGetAwbGains; OSetAwbMode "off"; OSetAwbGains g].

(** Where the image of a pair goes. *)
Definition dest (nm path : string) (p : Z * Z) : string :=
  path_join path (filename nm p.1 p.2).

(** The calls of one pass of the loop. *)
Definition iter_ops (nm path : string) (it : nat * (Z * Z)) : list op :=
  [OPrint ("Setting ISO=" +:+ str_int it.2.1 +:+ ", shutter speed=" +:+ str_int it.2.2);
   OSetIso it.2.1; OSetShutterSpeed it.2.2; OCapture (dest nm path it.2);
   OPrintTiming it.1].

Definition loop_ops (nm path : string) (its : list (nat * (Z * Z))) : list op :=
  flat_map (iter_ops nm path) its.

(** The five lines of the settings file. *)
Definition params_lines (em am : string) (g : gains) (isos shutters : list Z) : list string :=
  ["Exposure mode: " +:+ em; "AWB mode: " +:+ am; "Gains: " +:+ str_gains g;
   "ISOs: " +:+ str_list isos; "Shutter speeds: " +:+ str_list shutters].

(** The calls that write the settings file [f]. *)
Definition params_ops (f em am : string) (g : gains) (isos shutters : list Z) : list op :=
  [OOpenFile f;
   OGetExposureMode; OWriteLine f ("Exposure mode: " +:+ em);
   OGetAwbMode; OWriteLine f ("AWB mode: " +:+ am);
   OWriteLine f ("Gains: " +:+ str_gains g);
   OWriteLine f ("ISOs: " +:+ str_list isos);
   OWriteLine f ("Shutter speeds: " +:+ str_list shutters);
   OCloseFile f].

Definition taking_line (isos shutters : list Z) : string :=
  "Taking " +:+ str_int (Z.of_nat (length isos * length shutters)) +:+ " pictures.".

(** The calls inside the [with] block of the camera. *)
Definition block_ops (nm path : string) (g : gains) (isos shutters : list Z) : list op :=
  [OStartPreview (410, 313) false (100, 100, 820, 616)] ++
  calibration_ops (hd 0 isos) (hd 0 shutters) g ++
  [OPrint ("Gains fixed to: " +:+ str_gains g)] ++
  loop_ops nm path (enumerate (product isos shutters)) ++
  [OStopPreview] ++
  params_ops (path_join path "params.txt") "off" "off" g isos shutters ++
  [OPrint "Done."].

(** Everything from the first progress line to the release of the camera. *)
Definition session_ops (nm path : string) (g : gains) (isos shutters : list Z) : list op :=
  [OPrint (taking_line isos shutters); OOpenCamera fr res] ++
  block_ops nm path g isos shutters ++
  [OCloseCamera].

(** The base name the command line selects. *)
Definition base_name (argv : list string) : string :=
  match argv with
  | [_; a] => a
  | _ => name
  end.

Definition session_path (now : datetime) : string := path_join folder (strftime now).

(** A mock camera replayed over a trace: the sensitivity and exposure time
    in force at each completed capture. *)
Fixpoint captured_settings (cur : Z * Z) (t : list event) : list (Z * Z) :=
  match t with
  | [] => []
  | Done (OSetIso v) :: t' => captured_settings (v, cur.2) t'
  | Done (OSetShutterSpeed v) :: t' => captured_settings (cur.1, v) t'
  | Done (OCapture _) :: t' => cur :: captured_settings cur t'
  | _ :: t' => captured_settings cur t'
  end.

(** The destinations of the capture calls that were made. *)
Definition capture_dests (t : list event) : list string :=
  omap (λ ev, match op_of ev with OCapture d => Some d | _ => None end) t.

(** A program that, from every world, only adds events of calls in [P]. *)
Definition emits {A : Type} (P : op → bool) (m : M A) : Prop :=
  ∀ w, ∃ evs, trace (m w).2 = trace w ++ evs ∧ only P evs.

(** A list of calls made one after the other, up to the first that
    raises. *)
Fixpoint exec (fault : list event → op → bool) (ops : list op) : M unit :=
  match ops with
  | [] => mret tt
  | o :: ops' => step fault o;; exec fault ops'
  end.

(** The calls that leave the exposure and white-balance settings alone. *)
Definition keeps_modes (o : op) : bool :=
  match o with
  | OOpenCamera _ _ | OSetExposureMode _ | OSetAwbMode _ | OSetAwbGains _ => false
  | _ => true
  end.

(** Classes of characters. *)
Fixpoint string_forallb (P : ascii → bool) (s : string) : bool :=
  match s with
  | EmptyString => true
  | String c s' => P c && string_forallb P s'
  end.

Definition is_digit (c : ascii) : bool :=
  (48 <=? nat_of_ascii c)%nat && (nat_of_ascii c <=? 57)%nat.

Definition is_dash (c : ascii) : bool := Ascii.eqb c "-".

Definition stamp_char (c : ascii) : bool := is_digit c || is_dash c.

(** The last step of [os.makedirs(p, exist_ok=True)]: create [p], and
    accept a failure when [p] is a directory. *)
Definition mkdir_exist_ok (fault : list event → op → bool) (p : string) : M unit :=
  try_except (mkdir fault p)
    (λ e, if is_OSError e
          then isdir ← path_isdir p;
               if negb true || negb isdir then raise e else mret tt
          else raise e).

(** The images the pairs [ps] leave on disk. *)
Definition write_images (nm path : string) (ps : list (Z * Z)) (fs : gmap string node)
  : gmap string node :=
  fold_left (λ fs p, <[dest nm path p := Image p.1 p.2]> fs) ps fs.

Definition not_capture (o : op) : bool := negb (is_capture o).

Definition not_handle_op (o : op) : bool := negb (is_handle_op o).

(** Every event of the trace is a call that returned. *)
Definition all_done (t : list event) : Prop := Forall (λ ev, ∃ o, ev = Done o) t.

(** The capture events of pairs whose image was taken. *)
Definition capture_events (nm path : string) (ps : list (Z * Z)) : list event :=
  map (λ q, Done (OCapture (dest nm path q))) ps.

(** No capture and no change of sensitivity or exposure time. *)
Definition keeps_settings (o : op) : bool :=
  match o with
  | OSetIso _ | OSetShutterSpeed _ | OCapture _ => false
  | _ => true
  end.

(** The calls that leave the file system alone. *)
Definition keeps_fsys (o : op) : bool :=
  match o with
  | OMkdir _ | OCapture _ | OOpenFile _ | OWriteLine _ _ => false
  | _ => true
  end.

(** ** Sample inputs *)

(** Gains a camera might measure, and a time of day. *)
Definition gains0 : gains := (mkFraction 77 64, mkFraction 3 2).

Definition noon : datetime := mkDatetime 2019 7 4 12 0 0.

(** The session of the script as shipped, bracketing one sensitivity over
    two exposure times, with no failure. *)
Definition sample_session : result unit * world :=
  main no_fault ["capture.py"] noon [100] [1000; 2500] (fresh_world gains0).

(** The world in which the output folder of [noon] was just created. *)
Definition after_init : world :=
  (session_init no_fault ["capture.py"] noon (fresh_world gains0)).2.

(** The calls before and after the loop of an undisturbed session. *)
Definition before_loop_ops (g : gains) (isos shutters : list Z) : list op :=
  [OPrint (taking_line isos shutters); OOpenCamera fr res;
   OStartPreview (410, 313) false (100, 100, 820, 616)] ++
  calibration_ops (hd 0 isos) (hd 0 shutters) g ++
  [OPrint ("Gains fixed to: " +:+ str_gains g)].

Definition after_loop_ops (path : string) (g : gains) (isos shutters : list Z) : list op :=
  [OStopPreview] ++
  params_ops (path_join path "params.txt") "off" "off" g isos shutters ++
  [OPrint "Done."; OCloseCamera].

(** ** The order of calls in a trace *)

Definition is_release (o : op) : bool :=
  match o with OCloseCamera => true | _ => false end.

Definition is_stop_preview (o : op) : bool :=
  match o with OStopPreview => true | _ => false end.

(** The calls made up to the end of the loop: they touch no text file,
    leave the preview on and keep the camera. *)
Definition before_wrap_up (o : op) : bool :=
  negb (is_file_op o) && negb (is_stop_preview o) && negb (is_release o).

(** In the trace [t], every call in [P] that returned comes before every
    call in [Q] that returned. *)
Definition precedes (P Q : op → bool) (t : list event) : Prop :=
  ∀ i j a b, t !! i = Some (Done a) → t !! j = Some (Done b) →
    P a = true → Q b = true → (i < j)%nat.

(** Where the settings file of a session goes. *)
Definition params_path (now : datetime) : string :=
  path_join (session_path now) "params.txt".

(** ** Destinations *)

(** A session whose base name, given on the command line, is absolute. *)
Definition absolute_name_session : result unit * world :=
  main no_fault ["capture.py"; "/tmp/x"] noon [100] [1000] (fresh_world gains0).

(** A session whose range of sensitivities repeats a value. *)
Definition repeated_iso_session : result unit * world :=
  main no_fault ["capture.py"] noon [100; 100] [1000] (fresh_world gains0).

(** The outside that makes the second capture call fail, and nothing
    else. *)
Definition fail_second_capture : list event → op → bool := λ h o,
  match o with
  | OCapture _ => bool_decide (length (events_of is_capture h) = 1%nat)
  | _ => false
  end.

(** The session of the script as shipped when the second capture fails. *)
Definition failing_session : result unit * world :=
  main fail_second_capture ["capture.py"] noon [100] [1000; 2500] (fresh_world gains0).

(** ** Blocks and their pending releases *)

(** The calls of the camera block up to the stop of the preview. *)
Definition capture_block_ops (nm path : string) (g : gains) (isos shutters : list Z)
  : list op :=
  [OStartPreview (410, 313) false (100, 100, 820, 616)] ++
  (calibration_ops (hd 0 isos) (hd 0 shutters) g ++
   [OPrint ("Gains fixed to: " +:+ str_gains g)]) ++
  loop_ops nm path (enumerate (product isos shutters)) ++
  [OStopPreview].

(** The calls made while the settings file [f] is open. *)
Definition params_body_ops (f em am : string) (g : gains) (isos shutters : list Z)
  : list op :=
  [OGetExposureMode; OWriteLine f ("Exposure mode: " +:+ em);
   OGetAwbMode; OWriteLine f ("AWB mode: " +:+ am);
   OWriteLine f ("Gains: " +:+ str_gains g);
   OWriteLine f ("ISOs: " +:+ str_list isos);
   OWriteLine f ("Shutter speeds: " +:+ str_list shutters)].

(** The calls that enter or leave a [with] block. *)
Definition is_with_op (o : op) : bool :=
  match o with
  | OOpenCamera _ _ | OOpenFile _ | OCloseFile _ | OCloseCamera => true
  | _ => false
  end.

(** The releases that are pending after the calls [a], given those that
    were pending before: one for every [with] block that was entered and
    not left, the innermost first. *)
Fixpoint held (a : list op) (acc : list op) : list op :=
  match a with
  | [] => acc
  | OOpenCamera _ _ :: a' => held a' (OCloseCamera :: acc)
  | OOpenFile f :: a' => held a' (OCloseFile f :: acc)
  | OCloseFile _ :: a' => held a' (tl acc)
  | OCloseCamera :: a' => held a' (tl acc)
  | _ :: a' => held a' acc
  end.

(** The calls a session makes when one of its ranges is empty, before it
    looks for the first value that is missing. *)
Definition empty_range_ops (isos shutters : list Z) : list op :=
  [OPrint (taking_line isos shutters); OOpenCamera fr res;
   OStartPreview (410, 313) false (100, 100, 820, 616)] ++
  match isos with
  | [] => []
  | i0 :: _ => [OSetIso i0; OSleep 2]
  end.

(** The calls a session can make before it looks for the first values of
    its ranges, and the release of the camera. *)
Definition is_early_op (o : op) : bool :=
  match o with
  | OMkdir _ | OPrint _ | OOpenCamera _ _ | OStartPreview _ _ _ | OSetIso _ | OSleep _
  | OCloseCamera => true
  | _ => false
  end.

(** The calls made while the settings file is open. *)
Definition in_params_block (o : op) : bool :=
  match o with
  | OGetExposureMode | OGetAwbMode | OWriteLine _ _ => true
  | _ => false
  end.

(** A mock camera replayed over a trace: the exposure mode, the
    white-balance mode and the gains in force at each completed capture. A
    camera that is opened starts in its automatic modes. *)
Fixpoint captured_modes (cur : string * string * gains) (t : list event)
  : list (string * string * gains) :=
  match t with
  | [] => []
  | Done (OOpenCamera _ _) :: t' => captured_modes ("auto", "auto", cur.2) t'
  | Done (OSetExposureMode m) :: t' => captured_modes (m, cur.1.2, cur.2) t'
  | Done (OSetAwbMode m) :: t' => captured_modes (cur.1.1, m, cur.2) t'
  | Done (OSetAwbGains g) :: t' => captured_modes (cur.1.1, cur.1.2, g) t'
  | Done (OCapture _) :: t' => cur :: captured_modes cur t'
  | _ :: t' => captured_modes cur t'
  end.
(** The last progress line of a session. *)
Definition is_done_line (o : op) : bool :=
  match o with
  | OPrint s => String.eqb s "Done."
  | _ => false
  end.

(** The outside that makes the writing of the line of the gains fail, and
    nothing else. *)
Definition fail_gains_line : list event → op → bool := λ _ o,
  match o with
  | OWriteLine _ l => String.prefix "Gains" l
  | _ => false
  end.

(** The session of the script as shipped when the third line of the
    settings file cannot be written. *)
Definition failing_manifest_session : result unit * world :=
  main fail_gains_line ["capture.py"] noon [100] [1000; 2500] (fresh_world gains0).

(** A session whose range of exposure times is empty. *)
Definition empty_shutter_session : result unit * world :=
  main no_fault ["capture.py"] noon [100] [] (fresh_world gains0).

(** The last character of a string. *)
Fixpoint last_char (s : string) : option ascii :=
  match s with
  | EmptyString => None
  | String c EmptyString => Some c
  | String _ s' => last_char s'
  end.

(** A time of day one second after [noon]. *)
Definition noon_and_one : datetime := mkDatetime 2019 7 4 12 0 1.

(** The calls that write at the path [p]. *)
Definition touches (p : string) (o : op) : bool :=
  match o with
  | OMkdir q | OCapture q | OOpenFile q | OWriteLine q _ => bool_decide (q = p)
  | _ => false
  end.

(** ** A path that is taken *)


(** A session whose base name, given on the command line, climbs out of
    the folder it is joined to. *)
Definition parent_name_session : result unit * world :=
  main no_fault ["capture.py"; "../x"] noon [100] [1000] (fresh_world gains0).

(** ** Counting the images on disk *)

Definition is_image (n : node) : bool :=
  match n with Image _ _ => true | _ => false end.

(** The number of image files a file system holds. *)
Definition image_count (fs : gmap string node) : nat :=
  length (List.filter (λ kv, is_image kv.2) (map_to_list fs)).

(** The outside that makes the third capture call fail, and nothing
    else. *)
Definition fail_third_capture : list event → op → bool := λ h o,
  match o with
  | OCapture _ => bool_decide (length (events_of is_capture h) = 2%nat)
  | _ => false
  end.

(** A session that lists the sensitivity 100 three times, when its third
    capture fails. *)
Definition repeated_failing_session : result unit * world :=
  main fail_third_capture ["capture.py"] noon [100; 100; 100] [1000] (fresh_world gains0).

(** The calls a session may make on the file system: it creates the two
    folders, captures to the destinations of the pairs [ps], and opens,
    writes and closes its settings file. *)
Definition own_write (nm path : string) (ps : list (Z * Z)) (o : op) : bool :=
  match o with
  | OMkdir q => bool_decide (q = folder ∨ q = path)
  | OCapture q => bool_decide (q ∈ dest nm path <$> ps)
  | OOpenFile q | OWriteLine q _ | OCloseFile q =>
      bool_decide (q = path_join path "params.txt")
  | _ => true
  end.

(** ** Lemmas on the monad *)

Lemma trace_log ev w : trace (log ev w) = trace w ++ [ev].
Proof. reflexivity. Qed.

Lemma trace_effect o w : trace (effect o w) = trace w.
Proof. destruct o; reflexivity. Qed.

Lemma run_ok_app ops1 ops2 w : run_ok (ops1 ++ ops2) w = run_ok ops2 (run_ok ops1 w).
Proof. apply fold_left_app. Qed.

Lemma trace_run_ok ops w : trace (run_ok ops w) = trace w ++ map Done ops.
Proof.
  revert w; induction ops as [|o ops IH]; intros w; simpl.
  - by rewrite app_nil_r.
  - unfold run_ok in IH. rewrite IH, trace_effect, trace_log, <- app_assoc. done.
Qed.

Section Emits.

Variable fault : list event → op → bool.

Lemma only_app P l1 l2 : only P l1 → only P l2 → only P (l1 ++ l2).
Proof. apply Forall_app_2. Qed.

Lemma emits_ret {A} P (a : A) : emits P (mret a).
Proof. intros w. exists []. split; [by rewrite app_nil_r | constructor]. Qed.

Lemma emits_raise {A} P e : emits P (raise (A:=A) e).
Proof. intros w. exists []. split; [by rewrite app_nil_r | constructor]. Qed.

Lemma emits_gets {A} P (f : world → A) : emits P (gets f).
Proof. intros w. exists []. split; [by rewrite app_nil_r | constructor]. Qed.

Lemma emits_bind {A B} P (m : M A) (f : A → M B) :
  emits P m → (∀ a, emits P (f a)) → emits P (m ≫= f).
Proof.
  intros Hm Hf w. unfold mbind, M_bind.
  destruct (Hm w) as (evs1 & E1 & F1). destruct (m w) as [[a|e] w1]; simpl in *.
  - destruct (Hf a w1) as (evs2 & E2 & F2). exists (evs1 ++ evs2).
    rewrite E2, E1, app_assoc. split; [done | by apply only_app].
  - by exists evs1.
Qed.

Lemma emits_step P o : P o = true → emits P (step fault o).
Proof.
  intros HP w. unfold step. destruct (fault (trace w) o); simpl.
  - exists [Failed o]. split; [done|]. by repeat constructor.
  - exists [Done o]. rewrite trace_effect. split; [done|].
    by repeat constructor.
Qed.

Lemma emits_mkdir P p : P (OMkdir p) = true → emits P (mkdir fault p).
Proof.
  intros HP w. unfold mkdir.
  destruct (fault (trace w) (OMkdir p)); [|case_bool_decide]; simpl;
    (eexists [_]; split; [done|]; by repeat constructor).
Qed.

Lemma emits_try_except {A} P (m : M A) (h : exn → M A) :
  emits P m → (∀ e, emits P (h e)) → emits P (try_except m h).
Proof.
  intros Hm Hh w. unfold try_except.
  destruct (Hm w) as (evs1 & E1 & F1). destruct (m w) as [[a|e] w1]; simpl in *.
  - by exists evs1.
  - destruct (Hh e w1) as (evs2 & E2 & F2). exists (evs1 ++ evs2).
    rewrite E2, E1, app_assoc. split; [done | by apply only_app].
Qed.

Lemma emits_try_finally {A} P (m : M A) o :
  emits P m → P o = true → emits P (try_finally m (release o)).
Proof.
  intros Hm HP w. unfold try_finally, release.
  destruct (Hm w) as (evs1 & E1 & F1). destruct (m w) as [r w1]; simpl in *.
  exists (evs1 ++ [Done o]). rewrite trace_effect, trace_log, E1, app_assoc.
  split; [done|]. apply only_app; [done|].
  by repeat constructor.
Qed.

Lemma emits_getitem {A} P (l : list A) i : emits P (getitem l i).
Proof. unfold getitem. destruct (l !! i); [apply emits_ret | apply emits_raise]. Qed.

Lemma emits_for_each {A} P (l : list A) (body : A → M unit) :
  (∀ x, emits P (body x)) → emits P (for_each l body).
Proof.
  intros Hb. induction l as [|x l IH]; simpl.
  - apply emits_ret.
  - apply emits_bind; [apply Hb | intros _; apply IH].
Qed.

Lemma emits_makedirs P fuel nm exist_ok :
  (∀ p, P (OMkdir p) = true) → emits P (makedirs fault fuel nm exist_ok).
Proof.
  intros HP. revert nm. induction fuel as [|fuel IH]; intros nm; simpl.
  - apply emits_raise.
  - destruct (path_split nm) as [head tail].
    destruct (if is_empty tail then path_split head else (head, tail)) as [head' tail'].
    apply emits_bind; [apply emits_gets|]. intros ex.
    apply emits_bind.
    + destruct (_ && _ && _); [|apply emits_ret].
      apply emits_bind; [|intros; apply emits_ret].
      apply emits_try_except; [apply IH|].
      intros e. destruct (decide _); [apply emits_ret | apply emits_raise].
    + intros [|]; [apply emits_ret|].
      apply emits_try_except; [by apply emits_mkdir|].
      intros e. destruct (is_OSError e); [|apply emits_raise].
      apply emits_bind; [apply emits_gets|]. intros d.
      destruct (_ || _); [apply emits_raise | apply emits_ret].
Qed.

End Emits.

(** ** Characters of rendered numbers and time stamps *)

Lemma string_forallb_app P a b :
  string_forallb P (a +:+ b) = string_forallb P a && string_forallb P b.
Proof.
  induction a as [|c a IH]; [done|]. simpl. by rewrite IH, andb_assoc.
Qed.

Lemma string_forallb_impl (P Q : ascii → bool) s :
  (∀ c, P c = true → Q c = true) → string_forallb P s = true → string_forallb Q s = true.
Proof.
  intros HPQ. induction s as [|c s IH]; [done|]. simpl.
  intros [Hc Hs]%andb_true_iff. by rewrite (HPQ c Hc), IH.
Qed.

Lemma uint_digits d : string_forallb is_digit (NilEmpty.string_of_uint d) = true.
Proof. induction d; simpl; auto. Qed.

Lemma str_uint_digits d : string_forallb is_digit (NilZero.string_of_uint d) = true.
Proof. destruct d; try apply uint_digits. reflexivity. Qed.

Lemma str_uint_nonempty d : is_empty (NilZero.string_of_uint d) = false.
Proof. by destruct d. Qed.

Lemma str_N_digits n : string_forallb is_digit (str_N n) = true.
Proof. apply str_uint_digits. Qed.

Lemma str_N_nonempty n : is_empty (str_N n) = false.
Proof. apply str_uint_nonempty. Qed.

Lemma pad2_digits n : string_forallb is_digit (pad2 n) = true.
Proof.
  unfold pad2. destruct (n <? 10)%N; [|apply str_N_digits].
  rewrite string_forallb_app. by rewrite str_N_digits.
Qed.

Lemma strftime_chars t : string_forallb stamp_char (strftime t) = true.
Proof.
  assert (D : ∀ s, string_forallb is_digit s = true → string_forallb stamp_char s = true).
  { intros s. apply string_forallb_impl. intros c Hc. unfold stamp_char. by rewrite Hc. }
  unfold strftime. rewrite !string_forallb_app.
  rewrite (D _ (str_N_digits _)), !(D _ (pad2_digits _)). reflexivity.
Qed.

Lemma strftime_nonempty t : is_empty (strftime t) = false.
Proof.
  unfold strftime. generalize (str_N_nonempty (year t)).
  by destruct (str_N (year t)).
Qed.

Lemma stamp_no_sep s : string_forallb stamp_char s = true → has_sep s = false.
Proof.
  induction s as [|c s IH]; [done|]. simpl. intros [Hc Hs]%andb_true_iff.
  rewrite (IH Hs), orb_false_r. unfold is_sep.
  destruct (Ascii.eqb_spec c "/") as [->|]; [discriminate | done].
Qed.

Lemma stamp_not_dot s : string_forallb stamp_char s = true → s ≠ ".".
Proof. intros H ->. discriminate. Qed.

Lemma no_sep_not_absolute s : has_sep s = false → startswith_sep s = false.
Proof. destruct s as [|c s]; [done|]. simpl. by intros [? ?]%orb_false_iff. Qed.

Lemma cut_last_sep_no_sep s : has_sep s = false → cut_last_sep s = ("", s).
Proof.
  destruct s as [|c s]; [done|]. simpl. intros [Hc Hs]%orb_false_iff.
  by rewrite Hs, Hc.
Qed.

Lemma session_path_eq t : session_path t = "capture/" +:+ strftime t.
Proof.
  unfold session_path, path_join.
  by rewrite (no_sep_not_absolute _ (stamp_no_sep _ (strftime_chars t))).
Qed.

Lemma session_path_split t : path_split (session_path t) = (folder, strftime t).
Proof.
  rewrite session_path_eq.
  pose proof (stamp_no_sep _ (strftime_chars t)) as Hs.
  revert Hs. generalize (strftime t). intros s Hs.
  change ("capture/" +:+ s) with
    (String "c" (String "a" (String "p" (String "t" (String "u" (String "r"
      (String "e" (String "/" s)))))))).
  unfold path_split. simpl. rewrite Hs. simpl. reflexivity.
Qed.

Lemma folder_split : path_split folder = ("", folder).
Proof. reflexivity. Qed.

(** ** Injectivity of the renderings *)

Lemma append_inj_l a b c : a +:+ b = a +:+ c → b = c.
Proof. induction a as [|x a IH]; [done|]. simpl. intros [= H]. auto. Qed.

(** Two runs of digits that end at a character that is not a digit. *)
Lemma digits_sep_split d1 d2 c1 c2 r1 r2 :
  string_forallb is_digit d1 = true → string_forallb is_digit d2 = true →
  is_digit c1 = false → is_digit c2 = false →
  d1 +:+ String c1 r1 = d2 +:+ String c2 r2 →
  d1 = d2 ∧ c1 = c2 ∧ r1 = r2.
Proof.
  revert d2. induction d1 as [|x d1 IH]; intros [|y d2]; simpl.
  - by intros _ _ _ _ [= -> ->].
  - intros _ [Hy _]%andb_true_iff Hc1 _ [= -> _]. congruence.
  - intros [Hx _]%andb_true_iff _ _ Hc2 [= -> _]. congruence.
  - intros [_ H1]%andb_true_iff [_ H2]%andb_true_iff Hc1 Hc2 [= -> E].
    destruct (IH d2 H1 H2 Hc1 Hc2 E) as (-> & -> & ->). done.
Qed.

(** [str_int] is a run of digits, after a dash for a negative number. *)
Lemma str_int_shape z :
  ∃ d, string_forallb is_digit d = true ∧ is_empty d = false ∧
       (str_int z = d ∨ str_int z = String "-" d).
Proof.
  unfold str_int. destruct z as [|p|p]; simpl.
  - exists "0". auto.
  - exists (NilZero.string_of_uint (Pos.to_uint p)).
    split; [apply str_uint_digits|]. split; [apply str_uint_nonempty | by left].
  - exists (NilZero.string_of_uint (Pos.to_uint p)).
    split; [apply str_uint_digits|]. split; [apply str_uint_nonempty | by right].
Qed.

Lemma str_int_inj a b : str_int a = str_int b → a = b.
Proof.
  unfold str_int. intros E. apply DecimalZ.to_int_inj.
  assert (N : ∀ z, Z.to_int z ≠ Pos Nil ∧ Z.to_int z ≠ Neg Nil).
  { intros [|p|p]; simpl; split; try discriminate;
      intros [= H]; by apply DecimalPos.Unsigned.to_uint_nonnil in H. }
  destruct (N a) as [Ha1 Ha2], (N b) as [Hb1 Hb2].
  pose proof (NilZero.isi _ Ha1 Ha2) as Ia. pose proof (NilZero.isi _ Hb1 Hb2) as Ib.
  rewrite E in Ia. congruence.
Qed.

(** A rendered integer followed by a separator that is neither a digit nor
    a dash can be read back. *)
Lemma str_int_sep_split a b c1 c2 r1 r2 :
  is_digit c1 = false → is_digit c2 = false →
  str_int a +:+ String c1 r1 = str_int b +:+ String c2 r2 →
  a = b ∧ c1 = c2 ∧ r1 = r2.
Proof.
  intros Hc1 Hc2 E.
  destruct (str_int_shape a) as (da & Da & Na & Ea),
           (str_int_shape b) as (db & Db & Nb & Eb).
  assert (Hdash : is_digit "-" = false) by reflexivity.
  destruct Ea as [Ea|Ea], Eb as [Eb|Eb]; rewrite Ea, Eb in E.
  - destruct (digits_sep_split _ _ _ _ _ _ Da Db Hc1 Hc2 E) as (-> & -> & ->).
    split; [|done]. apply str_int_inj. congruence.
  - destruct da as [|x da]; [done|]. simpl in E, Da.
    apply andb_true_iff in Da as [Hx _]. injection E as -> _. congruence.
  - destruct db as [|x db]; [done|]. simpl in E, Db.
    apply andb_true_iff in Db as [Hx _]. injection E as <- _. congruence.
  - simpl in E. injection E as E.
    destruct (digits_sep_split _ _ _ _ _ _ Da Db Hc1 Hc2 E) as (-> & -> & ->).
    split; [|done]. apply str_int_inj. congruence.
Qed.

Lemma filename_inj nm i s i' s' :
  filename nm i s = filename nm i' s' → i = i' ∧ s = s'.
Proof.
  unfold filename. intros E%append_inj_l. simpl in E. injection E as E.
  apply str_int_sep_split in E as (-> & _ & E); [|done..].
  apply str_int_sep_split in E as (-> & _ & _); done.
Qed.

(** A relative file name stays below the folder it is joined to. *)
Lemma path_join_relative a b :
  startswith_sep b = false → ∃ sep, path_join a b = a +:+ sep +:+ b ∧ (sep = "" ∨ sep = "/").
Proof.
  intros Hb. unfold path_join. rewrite Hb.
  destruct (is_empty a || endswith_sep a).
  - exists "". auto.
  - exists "/". auto.
Qed.

Lemma path_join_absolute_eq a b : startswith_sep b = true → path_join a b = b.
Proof. intros Hb. unfold path_join. by rewrite Hb. Qed.

Lemma filename_absolute nm i s : startswith_sep (filename nm i s) = startswith_sep nm.
Proof.
  unfold filename. by destruct nm.
Qed.

(** ** Runs of the blocks of the script *)

#[local] Arguments String.append : simpl never.
#[local] Arguments str_int : simpl never.
#[local] Arguments str_list : simpl never.
#[local] Arguments str_gains : simpl never.
#[local] Arguments path_join : simpl never.
#[local] Arguments filename : simpl never.
#[local] Arguments strftime : simpl never.

Lemma only_weaken (P Q : op → bool) t :
  (∀ o, P o = true → Q o = true) → only P t → only Q t.
Proof. intros HPQ H. eapply Forall_impl; [exact H|]. intros ev. apply HPQ. Qed.

Lemma emits_weaken {A} (P Q : op → bool) (m : M A) :
  (∀ o, P o = true → Q o = true) → emits P m → emits Q m.
Proof.
  intros HPQ Hm w. destruct (Hm w) as (evs & E & F).
  exists evs. split; [done | by eapply only_weaken].
Qed.

Lemma events_of_app P t1 t2 : events_of P (t1 ++ t2) = events_of P t1 ++ events_of P t2.
Proof. apply List.filter_app. Qed.

Lemma events_of_only_false P t :
  only (λ o, negb (P o)) t → events_of P t = [].
Proof.
  induction 1 as [|ev t H _ IH]; [done|]. simpl.
  apply negb_true_iff in H. by rewrite H.
Qed.

Section Runs.

Variable fault : list event → op → bool.

Lemma bind_ok {A B} (m : M A) (f : A → M B) w b w' :
  (m ≫= f) w = (Ok b, w') → ∃ a w1, m w = (Ok a, w1) ∧ f a w1 = (Ok b, w').
Proof.
  unfold mbind, M_bind. destruct (m w) as [[a|e] w1]; [eauto | discriminate].
Qed.

Lemma bind_raise {A B} (m : M A) (f : A → M B) w e w' :
  (m ≫= f) w = (Raise e, w') →
  m w = (Raise e, w') ∨ ∃ a w1, m w = (Ok a, w1) ∧ f a w1 = (Raise e, w').
Proof.
  unfold mbind, M_bind. destruct (m w) as [[a|e1] w1]; [eauto|].
  intros [= -> ->]. by left.
Qed.

Lemma step_ok o w u w' : step fault o w = (Ok u, w') → w' = run_ok [o] w.
Proof. unfold step. destruct (fault _ _); [discriminate | by intros [= <-]]. Qed.

Lemma step_raise o w e w' :
  step fault o w = (Raise e, w') → e = exn_of o ∧ w' = log (Failed o) w.
Proof. unfold step. destruct (fault _ _); [by intros [= <- <-] | discriminate]. Qed.

Lemma getitem_ok {A} (l : list A) i w x w' :
  getitem l i w = (Ok x, w') → l !! i = Some x ∧ w' = w.
Proof. unfold getitem. destruct (l !! i); [by intros [= <- <-] | discriminate]. Qed.

Lemma try_finally_run {A} (m : M A) fin w r w' :
  try_finally m fin w = (r, w') → ∃ w1, m w = (r, w1) ∧ w' = fin w1.
Proof. unfold try_finally. destruct (m w) as [r1 w1]. intros [= <- <-]. eauto. Qed.

Lemma exec_app ops1 ops2 w :
  exec fault (ops1 ++ ops2) w = (exec fault ops1;; exec fault ops2) w.
Proof.
  revert w. induction ops1 as [|o ops1 IH]; intros w; [done|].
  simpl. unfold mbind, M_bind in *. destruct (step fault o w) as [[[]|e] w1]; [|done].
  apply IH.
Qed.

(** A list of calls either runs to its end, or stops at the first call
    that raises. *)
Lemma exec_cases ops w :
  exec fault ops w = (Ok tt, run_ok ops w) ∨
  ∃ pre o post, ops = pre ++ o :: post ∧
    exec fault ops w = (Raise (exn_of o), log (Failed o) (run_ok pre w)).
Proof.
  revert w. induction ops as [|o ops IH]; intros w; [by left|].
  simpl. unfold mbind, M_bind, step. destruct (fault (trace w) o) eqn:Ef.
  - right. by exists [], o, ops.
  - destruct (IH (effect o (log (Done o) w))) as [E|(pre & o' & post & -> & E)].
    + by left.
    + right. by exists (o :: pre), o', post.
Qed.

Lemma exec_ok ops w u w' : exec fault ops w = (Ok u, w') → w' = run_ok ops w.
Proof.
  destruct (exec_cases ops w) as [E|(pre & o & post & _ & E)]; rewrite E.
  - by intros [= <-].
  - discriminate.
Qed.

Lemma capture_one_exec nm path it w :
  capture_one fault nm path it w = exec fault (iter_ops nm path it) w.
Proof.
  destruct it as [idx [i s]]. unfold capture_one, iter_ops, dest. simpl.
  unfold mbind, M_bind, step.
  repeat (match goal with |- context [fault ?t ?o] => destruct (fault t o) end;
          [reflexivity|]); reflexivity.
Qed.

Lemma for_each_exec nm path its w :
  for_each its (capture_one fault nm path) w = exec fault (loop_ops nm path its) w.
Proof.
  revert w. induction its as [|it its IH]; intros w; [done|].
  change (loop_ops nm path (it :: its)) with (iter_ops nm path it ++ loop_ops nm path its).
  cbn [for_each]. rewrite exec_app. unfold mbind, M_bind.
  rewrite capture_one_exec. destruct (exec fault _ w) as [[[]|e] w1]; [apply IH | done].
Qed.

End Runs.

Section Blocks.
Variable fault : list event → op → bool.

Ltac inv_ok :=
  repeat match goal with
  | H : mbind _ _ _ = (Ok _, _) |- _ =>
      let a := fresh "a" in let w := fresh "w" in let H1 := fresh "H" in
      apply bind_ok in H as (a & w & H1 & H)
  | H : step _ _ _ = (Ok _, _) |- _ => apply step_ok in H
  | H : getitem _ _ _ = (Ok _, _) |- _ => apply getitem_ok in H as [? ?]
  | H : gets _ _ = (Ok _, _) |- _ => unfold gets in H; injection H as ? ?
  | H : mret _ _ = (Ok _, _) |- _ => unfold mret, M_ret in H; injection H as ? ?
  | H : try_finally _ _ _ = _ |- _ =>
      let w := fresh "w" in apply try_finally_run in H as (w & H & ?)
  | H : for_each _ (capture_one _ _ _) _ = _ |- _ =>
      rewrite for_each_exec in H; apply exec_ok in H
  end.

Lemma calibrate_ok isos shutters w g w' :
  calibrate fault isos shutters w = (Ok g, w') →
  ∃ iso0 shutter0, isos !! 0%nat = Some iso0 ∧ shutters !! 0%nat = Some shutter0 ∧
    g = awb_gains (device w) ∧
    w' = run_ok (calibration_ops iso0 shutter0 g ++
                 [OPrint ("Gains fixed to: " +:+ str_gains g)]) w.
Proof.
  unfold calibrate, get_awb_gains. intros H. inv_ok. subst.
  eexists _, _. split; [done|]. split; [done|]. split; reflexivity.
Qed.

Lemma write_params_ok isos shutters path g w u w' :
  write_params fault isos shutters path g w = (Ok u, w') →
  w' = run_ok (params_ops (path_join path "params.txt") (exposure_mode (device w))
                 (awb_mode (device w)) g isos shutters) w.
Proof.
  unfold write_params, with_open, get_exposure_mode, get_awb_mode.
  intros H. inv_ok. subst. reflexivity.
Qed.

Lemma run_ok_modes ops w :
  forallb keeps_modes ops = true →
  exposure_mode (device (run_ok ops w)) = exposure_mode (device w) ∧
  awb_mode (device (run_ok ops w)) = awb_mode (device w) ∧
  awb_gains (device (run_ok ops w)) = awb_gains (device w).
Proof.
  revert w. induction ops as [|o ops IH]; intros w; [done|].
  simpl. intros [Ho Hops]%andb_true_iff.
  destruct (IH (effect o (log (Done o) w)) Hops) as (-> & -> & ->).
  destruct o; try discriminate; done.
Qed.

Lemma loop_ops_keep_modes nm path its : forallb keeps_modes (loop_ops nm path its) = true.
Proof. induction its as [|it its IH]; [done|]. simpl. exact IH. Qed.

Lemma camera_block_ok nm path isos shutters w w' :
  camera_block fault isos shutters nm path w = (Ok tt, w') →
  isos ≠ [] ∧ shutters ≠ [] ∧
  w' = run_ok (block_ops nm path (awb_gains (device w)) isos shutters) w.
Proof.
  unfold camera_block, capture_loop. intros H. inv_ok.
  match goal with H : calibrate _ _ _ _ = _ |- _ =>
    apply calibrate_ok in H as (iso0 & shutter0 & Hi & Hs & Hg & Hw) end.
  match goal with H : write_params _ _ _ _ _ _ = _ |- _ =>
    apply write_params_ok in H end.
  destruct isos as [|i isos]; [done|]. destruct shutters as [|s shutters]; [done|].
  injection Hi as ->. injection Hs as ->.
  split; [done|]. split; [done|].
  assert (Hg' : a0 = awb_gains (device w)) by (by subst).
  assert (Hm : exposure_mode (device w3) = "off" ∧ awb_mode (device w3) = "off").
  { subst w3 w2.
    destruct (run_ok_modes [OStopPreview]
                (run_ok (loop_ops nm path
                           (enumerate (product (iso0 :: isos) (shutter0 :: shutters)))) w1)
                eq_refl) as (-> & -> & _).
    destruct (run_ok_modes _ w1 (loop_ops_keep_modes nm path
                (enumerate (product (iso0 :: isos) (shutter0 :: shutters)))))
      as (-> & -> & _).
    subst w1. split; reflexivity. }
  destruct Hm as [Hem Ham]. rewrite Hem, Ham in *. clear Hem Ham Hg.
  subst. unfold block_ops. rewrite !run_ok_app. reflexivity.
Qed.
End Blocks.

(** ** Creating the output folder *)

Section Init.

Variable fault : list event → op → bool.

Lemma makedirs_folder k w :
  makedirs fault (S k) folder true w = mkdir_exist_ok fault folder w.
Proof. reflexivity. Qed.

Lemma makedirs_session_path k now w :
  makedirs fault (S (S k)) (session_path now) true w =
  if bool_decide (is_Some (fsys w !! folder)) then mkdir_exist_ok fault (session_path now) w
  else
    match mkdir_exist_ok fault folder w with
    | (Ok _, w1) => mkdir_exist_ok fault (session_path now) w1
    | (Raise e, w1) =>
        if decide (e = FileExistsError) then mkdir_exist_ok fault (session_path now) w1
        else (Raise e, w1)
    end.
Proof.
  remember (S k) as k' eqn:Hk. cbn [makedirs]. subst k'.
  rewrite session_path_split. cbv beta iota zeta.
  pose proof (strftime_nonempty now) as Hne.
  pose proof (stamp_not_dot _ (strftime_chars now)) as Hdot.
  rewrite !Hne. cbv beta iota zeta.
  unfold mbind, M_bind, path_exists, gets.
  change (is_empty folder) with false. cbn [negb andb].
  case_bool_decide as Hex; cbn [negb].
  - reflexivity.
  - unfold try_except at 1. rewrite makedirs_folder.
    destruct (mkdir_exist_ok fault folder w) as [[[]|e] w1].
    + unfold mret, M_ret. by rewrite bool_decide_eq_false_2.
    + destruct (decide (e = FileExistsError)); [|done].
      unfold mret, M_ret. by rewrite bool_decide_eq_false_2.
Qed.

Lemma session_path_length now : ∃ k, String.length (session_path now) = S k.
Proof. rewrite session_path_eq. by eexists. Qed.

Lemma mkdir_exist_ok_cases p w :
  ∃ r w', mkdir_exist_ok fault p w = (r, w') ∧ device w' = device w ∧
    ((fsys w !! p = Some Dir ∧ r = Ok tt ∧ fsys w' = fsys w) ∨
     (fsys w !! p = None ∧ r = Ok tt ∧ fsys w' = <[p := Dir]> (fsys w)) ∨
     (fsys w !! p ≠ Some Dir ∧ fsys w' = fsys w ∧
      trace w' = trace w ++ [Failed (OMkdir p)] ∧
      ∃ e, r = Raise e ∧ is_OSError e = true ∧
           (e = FileExistsError → is_Some (fsys w !! p)))).
Proof.
  unfold mkdir_exist_ok, try_except, mkdir, mbind, M_bind, path_isdir, gets.
  destruct (fault (trace w) (OMkdir p)); [|case_bool_decide as Hex]; simpl.
  - case_bool_decide as Hd; simpl; eexists _, _; (split; [reflexivity|]); (split; [done|]).
    + by left.
    + right; right. do 3 (split; [done|]). exists OSError. by repeat split.
  - case_bool_decide as Hd; simpl; eexists _, _; (split; [reflexivity|]); (split; [done|]).
    + by left.
    + right; right. do 3 (split; [done|]). exists FileExistsError. by repeat split.
  - eexists _, _. split; [reflexivity|]. split; [done|]. right; left.
    split; [|done]. by apply eq_None_not_Some.
Qed.

Lemma name_choice argv w :
  (if bool_decide (length argv = 2%nat) then getitem argv 1 else mret name) w =
  (Ok (base_name argv), w).
Proof.
  by destruct argv as [|a [|b [|c l]]].
Qed.

Lemma session_init_eq argv now w :
  session_init fault argv now w =
  match makedirs fault (S (String.length (session_path now))) (session_path now) true w with
  | (Ok _, w') => (Ok (base_name argv, session_path now), w')
  | (Raise e, w') => (Raise e, w')
  end.
Proof.
  unfold session_init, mbind, M_bind. rewrite name_choice.
  fold (session_path now). by destruct (makedirs _ _ _ _ w) as [[[]|e] w'].
Qed.

Lemma session_init_emits argv now : emits is_mkdir (session_init fault argv now).
Proof.
  unfold session_init. apply emits_bind.
  - case_bool_decide; [apply emits_getitem | apply emits_ret].
  - intros nm. apply emits_bind; [by apply emits_makedirs | intros; apply emits_ret].
Qed.

(** What creating the output folder can do. *)
Lemma session_init_cases argv now w :
  ∃ r w', session_init fault argv now w = (r, w') ∧ device w' = device w ∧
    (fsys w !! session_path now = Some Dir → is_Some (fsys w !! folder) →
     fsys w' = fsys w) ∧
    ((r = Ok (base_name argv, session_path now) ∧
      fsys w' !! session_path now = Some Dir ∧ is_Some (fsys w' !! folder)) ∨
     (∃ e, r = Raise e ∧ is_OSError e = true ∧
        (∃ t p, trace w' = t ++ [Failed (OMkdir p)]) ∧
        ¬ (fsys w !! session_path now = Some Dir ∧ is_Some (fsys w !! folder)))).
Proof.
  rewrite session_init_eq. destruct (session_path_length now) as [k ->].
  rewrite makedirs_session_path. set (path := session_path now).
  assert (Hne : folder ≠ path).
  { unfold path. rewrite session_path_eq. pose proof (strftime_nonempty now) as H.
    destruct (strftime now); [done|]. discriminate. }
  case_bool_decide as Hex.
  - destruct (mkdir_exist_ok_cases path w) as (r & w' & -> & Hd & Hc).
    destruct Hc as [(Hp & -> & Hf)|[(Hp & -> & Hf)|(Hp & Hf & Ht & e & -> & He & _)]].
    + eexists _, _. split; [done|]. split; [done|]. split; [done|]. left.
      rewrite Hf. done.
    + eexists _, _. split; [done|]. split; [done|]. split; [congruence|]. left.
      rewrite Hf. split; [done|]. split; [by rewrite lookup_insert_eq|].
      by rewrite lookup_insert_ne.
    + eexists _, _. split; [done|]. split; [done|]. split; [done|]. right.
      exists e. split; [done|]. split; [done|]. split; [eauto|]. by intros [? _].
  - destruct (mkdir_exist_ok_cases folder w) as (r1 & w1 & -> & Hd1 & Hc1).
    assert (Hcont : ∀ w1, device w1 = device w → is_Some (fsys w1 !! folder) →
      ∃ r w', mkdir_exist_ok fault path w1 = (r, w') ∧ device w' = device w ∧
        ((r = Ok tt ∧ fsys w' !! path = Some Dir ∧ is_Some (fsys w' !! folder)) ∨
         (∃ e, r = Raise e ∧ is_OSError e = true ∧
            ∃ t p, trace w' = t ++ [Failed (OMkdir p)]))).
    { intros w2 Hd2 Hex2.
      destruct (mkdir_exist_ok_cases path w2) as (r & w' & -> & Hd & Hc).
      eexists _, _. split; [done|]. split; [congruence|].
      destruct Hc as [(Hp & -> & Hf)|[(Hp & -> & Hf)|(Hp & Hf & Ht & e & -> & He & _)]].
      - left. by rewrite Hf.
      - left. rewrite Hf. split; [done|]. split; [by rewrite lookup_insert_eq|].
        by rewrite lookup_insert_ne.
      - right. eauto 10. }
    assert (Hfin : ∀ r w', device w' = device w →
      ((r = Ok tt ∧ fsys w' !! path = Some Dir ∧ is_Some (fsys w' !! folder)) ∨
       (∃ e, r = Raise e ∧ is_OSError e = true ∧
          ∃ t p, trace w' = t ++ [Failed (OMkdir p)])) →
      ∃ r0 w0,
        match r with
        | Ok _ => (Ok (base_name argv, path), w')
        | Raise e => (Raise e, w')
        end = (r0, w0) ∧ device w0 = device w ∧
        (fsys w !! path = Some Dir → is_Some (fsys w !! folder) → fsys w0 = fsys w) ∧
        ((r0 = Ok (base_name argv, path) ∧
          fsys w0 !! path = Some Dir ∧ is_Some (fsys w0 !! folder)) ∨
         (∃ e, r0 = Raise e ∧ is_OSError e = true ∧
            (∃ t p, trace w0 = t ++ [Failed (OMkdir p)]) ∧
            ¬ (fsys w !! path = Some Dir ∧ is_Some (fsys w !! folder))))).
    { intros r w' Hd [(-> & Hp & Hf)|(e & -> & He & Ht)].
      - eexists _, _. split; [done|]. split; [done|]. split; [done|]. by left.
      - eexists _, _. split; [done|]. split; [done|]. split; [done|]. right.
        exists e. split; [done|]. split; [done|]. split; [done|]. by intros [_ ?]. }
    destruct Hc1 as [(Hp & _)|[(Hp & -> & Hf)|(Hp & Hf & Ht & e & -> & He & Hfe)]].
    + destruct Hex. by rewrite Hp.
    + destruct (Hcont w1 Hd1) as (r & w' & -> & Hd & Hc).
      { by rewrite Hf, lookup_insert_eq. }
      by apply Hfin.
    + destruct (decide (e = FileExistsError)) as [->|Hne'].
      * destruct Hex. by apply Hfe.
      * eexists _, _. split; [done|]. split; [done|]. split; [done|]. right.
        exists e. split; [done|]. split; [done|]. split; [eauto|]. by intros [_ ?].
Qed.

Lemma mkdir_exist_ok_emits P p :
  P (OMkdir p) = true → emits P (mkdir_exist_ok fault p).
Proof.
  intros HP. unfold mkdir_exist_ok. apply emits_try_except; [by apply emits_mkdir|].
  intros e. destruct (is_OSError e); [|apply emits_raise].
  apply emits_bind; [apply emits_gets|]. intros isdir.
  destruct (negb true || negb isdir); [apply emits_raise | apply emits_ret].
Qed.

Lemma mkdir_exist_ok_raise p w e w' :
  mkdir_exist_ok fault p w = (Raise e, w') → trace w' = trace w ++ [Failed (OMkdir p)].
Proof.
  intros E. destruct (mkdir_exist_ok_cases p w) as (r & w0 & E0 & _ & Hc).
  rewrite E in E0. injection E0 as <- <-.
  by destruct Hc as [(_ & [=] & _)|[(_ & [=] & _)|(_ & _ & Ht & _)]].
Qed.

(** An initialisation that raises stopped at a [mkdir] that failed. *)
Lemma session_init_raise_trace argv now w e w' :
  session_init fault argv now w = (Raise e, w') →
  ∃ pre p, only is_mkdir pre ∧ trace w' = trace w ++ pre ++ [Failed (OMkdir p)].
Proof.
  rewrite session_init_eq. destruct (session_path_length now) as [k ->].
  rewrite makedirs_session_path. set (path := session_path now).
  assert (Hlast : ∀ w1 pre, only is_mkdir pre → trace w1 = trace w ++ pre →
            match mkdir_exist_ok fault path w1 with
            | (Ok _, w2) => (Ok (base_name argv, path), w2)
            | (Raise e0, w2) => (Raise e0, w2)
            end = (Raise e, w') →
            ∃ pre0 p, only is_mkdir pre0 ∧
              trace w' = trace w ++ pre0 ++ [Failed (OMkdir p)]).
  { intros w1 pre Hpre Ht1.
    destruct (mkdir_exist_ok fault path w1) as [[[]|e0] w2] eqn:E2; [discriminate|].
    intros [= <- <-]. apply mkdir_exist_ok_raise in E2.
    exists pre, path. split; [done|]. by rewrite E2, Ht1, <- app_assoc. }
  case_bool_decide as Hex.
  - apply (Hlast w []); [constructor | by rewrite app_nil_r].
  - destruct (mkdir_exist_ok_emits is_mkdir folder eq_refl w) as (evs1 & Ht1 & Ho1).
    destruct (mkdir_exist_ok fault folder w) as [[[]|e1] w1] eqn:E1; simpl in Ht1.
    + by apply (Hlast w1 evs1).
    + destruct (decide (e1 = FileExistsError)); [by apply (Hlast w1 evs1)|].
      intros [= <- <-]. apply mkdir_exist_ok_raise in E1.
      exists [], folder. split; [constructor|]. by rewrite E1.
Qed.

End Init.

(** ** The loop and the whole script *)

Ltac solve_emits :=
  repeat first
    [ apply emits_ret | apply emits_raise | apply emits_gets | apply emits_getitem
    | apply emits_step; reflexivity
    | apply emits_try_finally; [|reflexivity]
    | apply emits_for_each; intros [? [? ?]]
    | apply emits_bind; [|intros ?] ].

Section Whole.

Variable fault : list event → op → bool.

Lemma camera_block_emits P isos shutters nm path :
  (∀ o, is_handle_op o = false → is_mkdir o = false → P o = true) →
  emits P (camera_block fault isos shutters nm path).
Proof.
  intros HP.
  assert (Hs : ∀ o, is_handle_op o = false → is_mkdir o = false → emits P (step fault o)).
  { intros o H1 H2. apply emits_step. by apply HP. }
  unfold camera_block, calibrate, capture_loop, capture_one, write_params, with_open,
    get_awb_gains, get_exposure_mode, get_awb_mode.
  repeat first
    [ apply emits_ret | apply emits_raise | apply emits_gets | apply emits_getitem
    | apply Hs; reflexivity
    | apply emits_try_finally; [|apply HP; reflexivity]
    | apply emits_for_each; intros [? [? ?]]
    | apply emits_bind; [|intros ?] ].
Qed.

Lemma calibrate_emits isos shutters : emits not_capture (calibrate fault isos shutters).
Proof. unfold calibrate, get_awb_gains. solve_emits. Qed.

Lemma write_params_emits isos shutters path g :
  emits not_capture (write_params fault isos shutters path g).
Proof.
  unfold write_params, with_open, get_exposure_mode, get_awb_mode. solve_emits.
Qed.

(** The loop either completes every pass, or stops inside one. *)
Lemma loop_cases nm path its w :
  for_each its (capture_one fault nm path) w = (Ok tt, run_ok (loop_ops nm path its) w) ∨
  ∃ its1 it its2 a o b,
    its = its1 ++ it :: its2 ∧ iter_ops nm path it = a ++ o :: b ∧
    for_each its (capture_one fault nm path) w =
      (Raise (exn_of o), log (Failed o) (run_ok (loop_ops nm path its1 ++ a) w)).
Proof.
  revert w. induction its as [|it its IH]; intros w; [by left|].
  cbn [for_each]. unfold mbind, M_bind. rewrite capture_one_exec.
  destruct (exec_cases fault (iter_ops nm path it) w) as [E|(a & o & b & Ei & E)]; rewrite E.
  - destruct (IH (run_ok (iter_ops nm path it) w))
      as [E'|(its1 & it' & its2 & a & o & b & -> & Ei & E')]; rewrite E'.
    + left.
      change (loop_ops nm path (it :: its))
        with (iter_ops nm path it ++ loop_ops nm path its).
      by rewrite run_ok_app.
    + right. exists (it :: its1), it', its2, a, o, b. split; [done|]. split; [done|].
      change (loop_ops nm path (it :: its1))
        with (iter_ops nm path it ++ loop_ops nm path its1).
      by rewrite <- app_assoc, !run_ok_app.
  - right. by exists [], it, its, a, o, b.
Qed.

Lemma run_ok_loop_fsys nm path its w :
  fsys (run_ok (loop_ops nm path its) w) = write_images nm path (its.*2) (fsys w).
Proof.
  revert w. induction its as [|it its IH]; intros w; [done|].
  change (loop_ops nm path (it :: its))
    with (iter_ops nm path it ++ loop_ops nm path its).
  rewrite run_ok_app, IH. reflexivity.
Qed.

Lemma captures_loop nm path its :
  events_of is_capture (map Done (loop_ops nm path its)) =
  map (λ it, Done (OCapture (dest nm path it.2))) its.
Proof. induction its as [|it its IH]; [done|]. simpl. by rewrite IH. Qed.

(** Where a pass of the loop can stop. *)
Lemma iter_ops_split nm path it a o b :
  iter_ops nm path it = a ++ o :: b →
  (is_capture o = true ∧ o = OCapture (dest nm path it.2) ∧
   events_of is_capture (map Done a) = [] ∧ ∀ w, fsys (run_ok a w) = fsys w) ∨
  (is_capture o = false ∧
   Forall (λ ev, ∃ o', ev = Done o') (events_of is_capture (map Done a))).
Proof.
  unfold iter_ops.
  destruct a as [|x1 [|x2 [|x3 [|x4 [|x5 a]]]]]; simpl; intros [= ]; subst.
  - right. by split.
  - right. by split.
  - right. by split.
  - left. by repeat split.
  - right. split; [done|]. repeat constructor. eauto.
  - by destruct a.
Qed.

Lemma enumerate_from_snd {A} n (l : list A) : (enumerate_from n l).*2 = l.
Proof. revert n. induction l as [|x l IH]; intros n; [done|]. simpl. by rewrite IH. Qed.

End Whole.

(** ** Runs of the whole script *)

Section Main.

Variable fault : list event → op → bool.

Lemma all_done_map ops : all_done (map Done ops).
Proof. induction ops; constructor; eauto. Qed.

Lemma all_done_app t1 t2 : all_done t1 → all_done t2 → all_done (t1 ++ t2).
Proof. apply Forall_app_2. Qed.

Lemma all_done_events_of P t : all_done t → all_done (events_of P t).
Proof.
  induction 1 as [|ev t H _ IH]; [constructor|]. simpl.
  destruct (P (op_of ev)); [by constructor | done].
Qed.

Lemma main_eq argv now isos shutters w :
  main fault argv now isos shutters w =
  match session_init fault argv now w with
  | (Raise e, w1) => (Raise e, w1)
  | (Ok (nm, path), w1) =>
      match step fault (OPrint (taking_line isos shutters)) w1 with
      | (Raise e, w2) => (Raise e, w2)
      | (Ok _, w2) =>
          match step fault (OOpenCamera fr res) w2 with
          | (Raise e, w3) => (Raise e, w3)
          | (Ok _, w3) =>
              let '(r, w4) := camera_block fault isos shutters nm path w3 in
              (r, release OCloseCamera w4)
          end
      end
  end.
Proof.
  unfold main, with_camera, try_finally, mbind, M_bind.
  destruct (session_init fault argv now w) as [[[nm path]|e] w1]; [|done].
  unfold taking_line. destruct (step fault _ w1) as [[[]|e] w2]; [|done].
  by destruct (step fault _ w2) as [[[]|e] w3].
Qed.

(** A session that ends normally made exactly the calls of [session_ops]
    after creating its folder. *)
Lemma main_ok argv now isos shutters w u w' :
  main fault argv now isos shutters w = (Ok u, w') →
  ∃ w1 evs,
    session_init fault argv now w = (Ok (base_name argv, session_path now), w1) ∧
    trace w1 = trace w ++ evs ∧ only is_mkdir evs ∧
    fsys w1 !! session_path now = Some Dir ∧
    isos ≠ [] ∧ shutters ≠ [] ∧
    w' = run_ok (session_ops (base_name argv) (session_path now)
                   (awb_gains (device w)) isos shutters) w1.
Proof.
  rewrite main_eq.
  destruct (session_init_emits fault argv now w) as (evs & Ht & Hevs).
  destruct (session_init_cases fault argv now w)
    as (r & w1 & E & Hd & _ & [(-> & Hp & _)|(e & -> & _)]);
    rewrite E in *; [|discriminate]. simpl in Ht.
  destruct (step fault _ w1) as [[[]|e] w2] eqn:E2; [|discriminate].
  destruct (step fault _ w2) as [[[]|e] w3] eqn:E3; [|discriminate].
  destruct (camera_block fault isos shutters _ _ w3) as [[[]|e] w4] eqn:E4; [|discriminate].
  intros [= _ <-]. apply step_ok in E2, E3.
  apply camera_block_ok in E4 as (Hi & Hs & ->).
  exists w1, evs. do 5 (split; [done|]). split; [done|].
  subst w3 w2. unfold session_ops. rewrite !run_ok_app. simpl device.
  rewrite Hd. reflexivity.
Qed.

End Main.

(** ** Where a session can stop *)

Section Failures.

Variable fault : list event → op → bool.

Lemma captures_none t : only not_capture t → events_of is_capture t = [].
Proof. apply events_of_only_false. Qed.

Lemma only_map_done P ops : forallb P ops = true → only P (map Done ops).
Proof.
  induction ops as [|o ops IH]; [constructor|]. simpl.
  intros [Ho Hops]%andb_true_iff. constructor; [done | by apply IH].
Qed.

Lemma captures_loop_pairs nm path its :
  events_of is_capture (map Done (loop_ops nm path its)) = capture_events nm path its.*2.
Proof. rewrite captures_loop. unfold capture_events. by rewrite <- list_fmap_compose. Qed.

Lemma all_done_capture_events nm path ps : all_done (capture_events nm path ps).
Proof. induction ps; constructor; eauto. Qed.

Lemma rest_emits isos shutters path g :
  emits not_capture
    (step fault OStopPreview;; write_params fault isos shutters path g;;
     step fault (OPrint "Done.")).
Proof.
  apply emits_bind; [by apply emits_step|]. intros _.
  apply emits_bind; [apply write_params_emits|]. intros _. by apply emits_step.
Qed.

(** The capture events of the block: all of them returned, or the block
    stopped at the first that raised. *)
Lemma camera_block_captures nm path isos shutters w :
  ∃ r w' evs, camera_block fault isos shutters nm path w = (r, w') ∧
    trace w' = trace w ++ evs ∧
    (all_done (events_of is_capture evs) ∨
     ∃ ps1 p ps2, product isos shutters = ps1 ++ p :: ps2 ∧ r = Raise PiCameraError ∧
       events_of is_capture evs =
         capture_events nm path ps1 ++ [Failed (OCapture (dest nm path p))] ∧
       (∃ pre, evs = pre ++ [Failed (OCapture (dest nm path p))]) ∧
       fsys w' = write_images nm path ps1 (fsys w)).
Proof.
  unfold camera_block, mbind, M_bind.
  destruct (step fault _ w) as [[[]|e] w0] eqn:E0.
  2:{ apply step_raise in E0 as [-> ->]. eexists _, _, [_].
      split; [done|]. split; [done|]. left. constructor. }
  apply step_ok in E0.
  assert (Ht0 : trace w0 = trace w ++
            [Done (OStartPreview (410, 313) false (100, 100, 820, 616))]) by (by subst).
  assert (Hf0 : fsys w0 = fsys w) by (by subst).
  clear E0.
  destruct (calibrate fault isos shutters w0) as [[g|e] w1] eqn:E1.
  2:{ destruct (calibrate_emits fault isos shutters w0) as (evs1 & Ht1 & Ho1).
      rewrite E1 in Ht1. simpl in Ht1.
      eexists _, _, (_ :: evs1). split; [done|].
      split; [by rewrite Ht1, Ht0, <- app_assoc|]. left.
      change (all_done (events_of is_capture evs1)). rewrite captures_none; [constructor | done]. }
  apply calibrate_ok in E1 as (iso0 & shutter0 & _ & _ & _ & E1).
  set (cal := calibration_ops iso0 shutter0 g ++
              [OPrint ("Gains fixed to: " +:+ str_gains g)]) in E1.
  assert (Hcal : events_of is_capture (map Done cal) = []) by reflexivity.
  assert (Ht1 : trace w1 = trace w ++
            Done (OStartPreview (410, 313) false (100, 100, 820, 616)) :: map Done cal).
  { by rewrite E1, trace_run_ok, Ht0, <- app_assoc. }
  assert (Hf1 : fsys w1 = fsys w) by (by rewrite E1, <- Hf0).
  clear E1 Ht0 Hf0.
  set (pre := Done (OStartPreview (410, 313) false (100, 100, 820, 616)) :: map Done cal)
    in Ht1.
  assert (Hpre : ∀ t, events_of is_capture (pre ++ t) = events_of is_capture t).
  { intros t. rewrite events_of_app.
    change (events_of is_capture pre) with (events_of is_capture (map Done cal)).
    by rewrite Hcal. }
  unfold capture_loop.
  destruct (loop_cases fault nm path (enumerate (product isos shutters)) w1)
    as [El|(its1 & it & its2 & a & o & b & Eits & Ei & El)]; rewrite El.
  - destruct (rest_emits isos shutters path g
                (run_ok (loop_ops nm path (enumerate (product isos shutters))) w1))
      as (evs3 & Ht3 & Ho3).
    destruct ((step fault OStopPreview;; write_params fault isos shutters path g;;
               step fault (OPrint "Done.")) _) as [r w'] eqn:E3.
    unfold mbind, M_bind in E3. rewrite E3. simpl in Ht3.
    exists r, w',
      (pre ++ map Done (loop_ops nm path (enumerate (product isos shutters))) ++ evs3).
    split; [done|]. split.
    { by rewrite Ht3, trace_run_ok, Ht1, <- !app_assoc. }
    left. rewrite Hpre, events_of_app, (captures_none evs3 Ho3), app_nil_r.
    apply all_done_events_of, all_done_map.
  - eexists _, _, (pre ++ map Done (loop_ops nm path its1 ++ a) ++ [Failed o]).
    split; [done|]. split.
    { by rewrite trace_log, trace_run_ok, Ht1, <- !app_assoc. }
    rewrite Hpre, map_app, !events_of_app, captures_loop_pairs, <- app_assoc.
    destruct (iter_ops_split _ _ _ _ _ _ Ei) as [(Hc & -> & Ha & Hfs)|(Hc & Ha)].
    + right. exists its1.*2, it.2, its2.*2.
      split.
      { rewrite <- (enumerate_from_snd 0 (product isos shutters)).
        fold (enumerate (product isos shutters)). by rewrite Eits, fmap_app. }
      split; [done|]. rewrite Ha. split; [done|]. split.
      { eexists. by rewrite !app_assoc. }
      change (fsys (log ?ev ?w)) with (fsys w).
      by rewrite run_ok_app, Hfs, run_ok_loop_fsys, Hf1.
    + left. simpl. rewrite Hc, app_nil_r.
      apply all_done_app; [apply all_done_capture_events | done].
Qed.

End Failures.

(** ** The Cartesian product and the settings in force at each capture *)

Section Product.

Context {A B : Type}.
Implicit Types (xs : list A) (ys : list B).

Lemma product_length xs ys : length (product xs ys) = (length xs * length ys)%nat.
Proof.
  induction xs as [|x xs IH]; [done|]. simpl.
  by rewrite length_app, length_map, IH.
Qed.

(** Row-major order: the pair of the [i]-th and the [j]-th value sits at
    position [i * |ys| + j]. *)
Lemma product_lookup xs ys i j x y :
  xs !! i = Some x → ys !! j = Some y →
  product xs ys !! (i * length ys + j)%nat = Some (x, y).
Proof.
  revert i. induction xs as [|x' xs IH]; intros i Hx Hy; [done|].
  pose proof (lookup_lt_Some _ _ _ Hy) as Hj.
  destruct i as [|i]; simpl in *.
  - injection Hx as ->. rewrite lookup_app_l by (by rewrite length_map).
    change (map (pair x) ys) with (pair x <$> ys).
    by rewrite list_lookup_fmap, Hy.
  - rewrite lookup_app_r by (rewrite length_map; lia).
    rewrite length_map.
    replace (length ys + i * length ys + j - length ys)%nat
      with (i * length ys + j)%nat by lia.
    by apply IH.
Qed.

Lemma elem_of_product xs ys x y : (x, y) ∈ product xs ys ↔ x ∈ xs ∧ y ∈ ys.
Proof.
  induction xs as [|x' xs IH]; simpl.
  - split; [by intros ?%elem_of_nil | by intros [?%elem_of_nil _]].
  - rewrite elem_of_app, IH, elem_of_cons.
    change (map (pair x') ys) with (pair x' <$> ys). rewrite list_elem_of_fmap.
    split.
    + intros [(y' & [= -> ->] & Hy)|[Hx Hy]]; auto.
    + intros [[->|Hx] Hy]; [left; eauto | right; auto].
Qed.

Lemma NoDup_product xs ys : NoDup xs → NoDup ys → NoDup (product xs ys).
Proof.
  intros Hxs Hys. induction Hxs as [|x xs Hx Hxs IH]; simpl; [constructor|].
  apply NoDup_app. split; [|split; [|done]].
  - change (map (pair x) ys) with (pair x <$> ys).
    apply NoDup_fmap_2; [|done]. by intros y1 y2 [= ->].
  - intros [x' y'] (y'' & [= -> ->] & Hy)%list_elem_of_fmap [Hx' _]%elem_of_product.
    done.
Qed.

End Product.

Lemma enumerate_snd {A} (l : list A) : (enumerate l).*2 = l.
Proof. apply enumerate_from_snd. Qed.

Lemma captured_settings_skip cur t1 t2 :
  only keeps_settings t1 → captured_settings cur (t1 ++ t2) = captured_settings cur t2.
Proof.
  induction 1 as [|ev t1 H _ IH]; [done|]. simpl.
  destruct ev as [o|o]; [|done]. by destruct o.
Qed.

Lemma captured_settings_none cur t : only keeps_settings t → captured_settings cur t = [].
Proof.
  intros H. rewrite <- (app_nil_r t). by rewrite captured_settings_skip.
Qed.

Lemma captured_settings_loop nm path its cur t :
  (∀ c, captured_settings c t = []) →
  captured_settings cur (map Done (loop_ops nm path its) ++ t) = its.*2.
Proof.
  intros Ht. revert cur. induction its as [|[idx [i s]] its IH]; intros cur; simpl.
  - apply Ht.
  - by rewrite IH.
Qed.

Lemma capture_dests_app t1 t2 : capture_dests (t1 ++ t2) = capture_dests t1 ++ capture_dests t2.
Proof. apply omap_app. Qed.

Lemma capture_dests_none t : only not_capture t → capture_dests t = [].
Proof.
  induction 1 as [|ev t H _ IH]; [done|].
  change (capture_dests (ev :: t))
    with (match (match op_of ev with OCapture d => Some d | _ => None end) with
          | Some y => y :: capture_dests t
          | None => capture_dests t
          end).
  rewrite IH. unfold not_capture in H. by destruct (op_of ev).
Qed.

Lemma capture_dests_loop nm path its :
  capture_dests (map Done (loop_ops nm path its)) = dest nm path <$> its.*2.
Proof.
  induction its as [|it its IH]; [done|].
  change (capture_dests (map Done (loop_ops nm path (it :: its))))
    with (dest nm path it.2 :: capture_dests (map Done (loop_ops nm path its))).
  by rewrite IH.
Qed.

(** ** What a session leaves on disk and in the trace *)

Section Outcome.

Variable fault : list event → op → bool.

Lemma run_ok_keeps_fsys ops w : forallb keeps_fsys ops = true → fsys (run_ok ops w) = fsys w.
Proof.
  revert w. induction ops as [|o ops IH]; intros w; [done|]. simpl.
  intros [Ho Hops]%andb_true_iff. unfold run_ok in IH. rewrite IH by done.
  by destruct o.
Qed.

Lemma run_ok_params_fsys f em am g isos shutters w :
  fsys (run_ok (params_ops f em am g isos shutters) w) =
  <[f := Text (params_lines em am g isos shutters)]> (fsys w).
Proof.
  unfold params_ops, params_lines, run_ok. simpl. unfold append_line.
  repeat (rewrite lookup_insert_eq, insert_insert_eq). reflexivity.
Qed.

Lemma session_fsys nm path g isos shutters w :
  fsys (run_ok (session_ops nm path g isos shutters) w) =
  <[path_join path "params.txt" := Text (params_lines "off" "off" g isos shutters)]>
    (write_images nm path (product isos shutters) (fsys w)).
Proof.
  unfold session_ops, block_ops. rewrite !run_ok_app.
  rewrite (run_ok_keeps_fsys [OCloseCamera]) by done.
  rewrite (run_ok_keeps_fsys [OPrint "Done."]) by done.
  rewrite run_ok_params_fsys.
  rewrite (run_ok_keeps_fsys [OStopPreview]) by done.
  rewrite run_ok_loop_fsys, enumerate_snd.
  rewrite (run_ok_keeps_fsys [OPrint _]) by done.
  rewrite (run_ok_keeps_fsys (calibration_ops _ _ _)) by done.
  rewrite (run_ok_keeps_fsys [OStartPreview _ _ _]) by done.
  by rewrite (run_ok_keeps_fsys [OPrint _; OOpenCamera _ _]) by done.
Qed.

Lemma write_images_mono nm path ps fs d :
  is_Some (fs !! d) → is_Some (write_images nm path ps fs !! d).
Proof.
  revert fs. induction ps as [|q ps IH]; intros fs Hd; [done|]. simpl.
  apply IH. rewrite lookup_insert_is_Some. destruct (decide (dest nm path q = d)); auto.
Qed.

Lemma write_images_lookup nm path ps fs p :
  p ∈ ps → is_Some (write_images nm path ps fs !! dest nm path p).
Proof.
  revert fs. induction ps as [|q ps IH]; intros fs; [by intros ?%elem_of_nil|].
  intros [->|Hp]%elem_of_cons; simpl.
  - apply write_images_mono. by rewrite lookup_insert_eq.
  - by apply IH.
Qed.

Lemma write_images_app nm path ps1 ps2 fs :
  write_images nm path (ps1 ++ ps2) fs = write_images nm path ps2 (write_images nm path ps1 fs).
Proof. apply fold_left_app. Qed.

(** The events of a session that ends normally. *)
Lemma main_ok_events argv now isos shutters w u w' evs :
  main fault argv now isos shutters w = (Ok u, w') →
  trace w' = trace w ++ evs →
  ∃ w1 init_evs,
    session_init fault argv now w = (Ok (base_name argv, session_path now), w1) ∧
    only is_mkdir init_evs ∧ isos ≠ [] ∧ shutters ≠ [] ∧
    evs = init_evs ++ map Done (session_ops (base_name argv) (session_path now)
                                  (awb_gains (device w)) isos shutters) ∧
    fsys w' =
      <[path_join (session_path now) "params.txt" :=
          Text (params_lines "off" "off" (awb_gains (device w)) isos shutters)]>
        (write_images (base_name argv) (session_path now) (product isos shutters)
           (fsys w1)).
Proof.
  intros Hm Ht.
  apply main_ok in Hm as (w1 & init_evs & Hi & Ht1 & Ho & _ & HI & HS & ->).
  exists w1, init_evs. do 4 (split; [done|]). split.
  - rewrite trace_run_ok, Ht1, <- app_assoc in Ht. by apply app_inv_head in Ht.
  - apply session_fsys.
Qed.

(** The camera handle over a whole session: acquired right after the
    folder is there and the first line is printed, and released once, at
    the end; or never acquired, because a call made until then raised. *)
Lemma main_handle argv now isos shutters w :
  ∃ r w' init_evs rest, main fault argv now isos shutters w = (r, w') ∧
    trace w' = trace w ++ init_evs ++ rest ∧ only is_mkdir init_evs ∧
    ((∃ mid,
        rest = [Done (OPrint (taking_line isos shutters)); Done (OOpenCamera fr res)] ++
               mid ++ [Done OCloseCamera] ∧
        only not_handle_op mid ∧ cam_open (device w') = false) ∨
     ((∃ e, r = Raise e) ∧ device w' = device w ∧
      ((rest = [] ∧ ∃ pre p, init_evs = pre ++ [Failed (OMkdir p)]) ∨
       rest = [Failed (OPrint (taking_line isos shutters))] ∨
       rest = [Done (OPrint (taking_line isos shutters)); Failed (OOpenCamera fr res)]))).
Proof.
  rewrite main_eq.
  destruct (session_init_emits fault argv now w) as (evs0 & Ht0 & Ho0).
  destruct (session_init_cases fault argv now w)
    as (r & w1 & E & Hd & _ & [(-> & _)|(e & -> & _)]); rewrite E in *; simpl in Ht0.
  2:{ destruct (session_init_raise_trace fault argv now w e w1 E) as (pre & p & _ & Hp).
      rewrite Ht0 in Hp. apply app_inv_head in Hp.
      eexists _, _, evs0, []. split; [done|]. split; [by rewrite app_nil_r|].
      split; [done|]. right. split; [eauto|]. split; [done|]. left. eauto. }
  destruct (step fault _ w1) as [[[]|e] w2] eqn:E2.
  2:{ apply step_raise in E2 as [-> ->].
      eexists _, _, evs0, [_]. split; [done|].
      split; [by rewrite trace_log, Ht0, <- app_assoc|]. split; [done|].
      right. split; [eauto|]. split; [done|]. right. by left. }
  apply step_ok in E2.
  destruct (step fault _ w2) as [[[]|e] w3] eqn:E3.
  2:{ apply step_raise in E3 as [-> ->].
      eexists _, _, evs0, [Done (OPrint (taking_line isos shutters)); _].
      split; [done|].
      split; [by rewrite trace_log, E2, trace_run_ok, Ht0, <- !app_assoc|].
      split; [done|]. right. split; [eauto|]. split; [by subst|]. right. by right. }
  apply step_ok in E3.
  destruct (camera_block_emits fault not_handle_op isos shutters
              (base_name argv) (session_path now)) with (w := w3) as (mid & Htm & Hom).
  { intros o H _. unfold not_handle_op. by rewrite H. }
  destruct (camera_block fault _ _ _ _ w3) as [r w4]. simpl in Htm.
  eexists _, _, evs0,
    ([Done (OPrint (taking_line isos shutters)); Done (OOpenCamera fr res)] ++
     mid ++ [Done OCloseCamera]).
  split; [done|]. split; [|split; [done|]].
  - unfold release. rewrite trace_effect, trace_log, Htm, E3, trace_run_ok, E2,
      trace_run_ok, Ht0. simpl. by rewrite <- !app_assoc.
  - left. by exists mid.
Qed.

(** The capture calls over a whole session: all of them returned, or the
    session stopped at the first that raised. *)
Lemma main_captures argv now isos shutters w :
  ∃ r w' evs, main fault argv now isos shutters w = (r, w') ∧
    trace w' = trace w ++ evs ∧
    (all_done (events_of is_capture evs) ∨
     ∃ w1 ps1 p ps2,
       session_init fault argv now w = (Ok (base_name argv, session_path now), w1) ∧
       product isos shutters = ps1 ++ p :: ps2 ∧ r = Raise PiCameraError ∧
       events_of is_capture evs =
         capture_events (base_name argv) (session_path now) ps1 ++
         [Failed (OCapture (dest (base_name argv) (session_path now) p))] ∧
       (∃ pre, evs = pre ++ [Failed (OCapture (dest (base_name argv) (session_path now) p));
                             Done OCloseCamera]) ∧
       fsys w' = write_images (base_name argv) (session_path now) ps1 (fsys w1)).
Proof.
  rewrite main_eq.
  destruct (session_init_emits fault argv now w) as (evs0 & Ht0 & Ho0).
  apply (only_weaken _ not_capture) in Ho0; [|by intros []].
  pose proof (captures_none _ Ho0) as Hc0.
  destruct (session_init_cases fault argv now w)
    as (r & w1 & E & Hd & _ & [(-> & _)|(e & -> & _)]); rewrite E in *; simpl in Ht0.
  2:{ eexists _, _, evs0. split; [done|]. split; [done|]. left. rewrite Hc0. constructor. }
  destruct (step fault _ w1) as [[[]|e] w2] eqn:E2.
  2:{ apply step_raise in E2 as [-> ->].
      eexists _, _, (evs0 ++ [_]). split; [done|].
      split; [by rewrite trace_log, Ht0, <- app_assoc|]. left.
      rewrite events_of_app, Hc0. constructor. }
  apply step_ok in E2.
  destruct (step fault _ w2) as [[[]|e] w3] eqn:E3.
  2:{ apply step_raise in E3 as [-> ->].
      eexists _, _, (evs0 ++ [Done (OPrint (taking_line isos shutters)); _]).
      split; [done|].
      split; [by rewrite trace_log, E2, trace_run_ok, Ht0, <- !app_assoc|].
      left. rewrite events_of_app, Hc0. constructor. }
  apply step_ok in E3.
  assert (Ht3 : trace w3 = trace w ++ evs0 ++
            [Done (OPrint (taking_line isos shutters)); Done (OOpenCamera fr res)]).
  { by rewrite E3, trace_run_ok, E2, trace_run_ok, Ht0, <- !app_assoc. }
  assert (Hf3 : fsys w3 = fsys w1) by (by subst).
  destruct (camera_block_captures fault (base_name argv) (session_path now)
              isos shutters w3) as (r & w4 & evs & -> & Ht4 & Hc).
  exists r, (release OCloseCamera w4),
    ((evs0 ++ [Done (OPrint (taking_line isos shutters)); Done (OOpenCamera fr res)]) ++
     evs ++ [Done OCloseCamera]).
  split; [done|]. split.
  { unfold release. by rewrite trace_effect, trace_log, Ht4, Ht3, <- !app_assoc. }
  assert (Hev : events_of is_capture
            ((evs0 ++ [Done (OPrint (taking_line isos shutters)); Done (OOpenCamera fr res)]) ++
             evs ++ [Done OCloseCamera]) = events_of is_capture evs).
  { rewrite !events_of_app, Hc0. simpl. by rewrite app_nil_r. }
  rewrite Hev.
  destruct Hc as [Hc|(ps1 & p & ps2 & Hp & -> & Hce & (pre & ->) & Hfs)]; [by left|].
  right. exists w1, ps1, p, ps2. do 4 (split; [done|]). split.
  - exists ((evs0 ++ [Done (OPrint (taking_line isos shutters));
                      Done (OOpenCamera fr res)]) ++ pre).
    by rewrite <- !app_assoc.
  - by rewrite <- Hf3, <- Hfs.
Qed.

End Outcome.

(** * The claims *)

(** C10: the base name comes from the command line only when exactly one
    argument follows the program name. With no argument, or with two or
    more, it is the default ["raw"]: the extra arguments are all ignored.
    The arguments never make the script fail: initialisation makes one
    call of [os.makedirs], on a path that does not depend on them, and
    ends as this call ends, with the same world; it returns the base name
    and the path when the call returns, and raises the error of the call,
    an [OSError], when the call raises. *)
Theorem name_override_needs_exactly_one_argument fault argv now w rm wm :
  makedirs fault (S (String.length (path_join folder (strftime now))))
    (path_join folder (strftime now)) true w = (rm, wm) →
  session_init fault argv now w =
    (match rm with
     | Ok _ => Ok (match argv with [_; a] => a | _ => "raw" end,
                   path_join folder (strftime now))
     | Raise e => Raise e
     end, wm) ∧
  match rm with
  | Ok _ => True
  | Raise e => is_OSError e = true
  end.
Proof.
  intros Hm.
  assert (E : session_init fault argv now w =
    (match rm with
     | Ok _ => Ok (match argv with [_; a] => a | _ => "raw" end,
                   path_join folder (strftime now))
     | Raise e => Raise e
     end, wm)).
  { rewrite session_init_eq. unfold session_path. rewrite Hm.
    by destruct rm as [[]|e]. }
  split; [exact E|].
  destruct (session_init_cases fault argv now w)
    as (r & w' & E' & _ & _ & [(-> & _)|(e & -> & He & _)]); rewrite E in E'.
  - by destruct rm.
  - destruct rm as [[]|e0]; [discriminate|]. by injection E' as -> _.
Qed.

Lemma name_override_needs_exactly_one_argument_witness :
  makedirs no_fault (S (String.length (path_join folder (strftime noon))))
    (path_join folder (strftime noon)) true (fresh_world gains0) = (Ok tt, after_init) ∧
  session_init no_fault ["capture.py"; "first"; "second"] noon (fresh_world gains0) =
    (Ok ("raw", "capture/2019-07-04-12-00-00"), after_init) ∧
  session_init no_fault ["capture.py"; "first"] noon (fresh_world gains0) =
    (Ok ("first", "capture/2019-07-04-12-00-00"), after_init) ∧
  session_init no_fault ["capture.py"] noon (fresh_world gains0) =
    (Ok ("raw", "capture/2019-07-04-12-00-00"), after_init).
Proof.
  assert (Hm : makedirs no_fault (S (String.length (path_join folder (strftime noon))))
                 (path_join folder (strftime noon)) true (fresh_world gains0) =
               (Ok tt, after_init)) by (vm_compute; reflexivity).
  split; [exact Hm|]. split; [|split].
  - exact (proj1 (name_override_needs_exactly_one_argument no_fault
                    ["capture.py"; "first"; "second"] noon (fresh_world gains0) _ _ Hm)).
  - exact (proj1 (name_override_needs_exactly_one_argument no_fault
                    ["capture.py"; "first"] noon (fresh_world gains0) _ _ Hm)).
  - exact (proj1 (name_override_needs_exactly_one_argument no_fault
                    ["capture.py"] noon (fresh_world gains0) _ _ Hm)).
Defined.




(** C6: the camera handle is opened once, at the start of the session,
    and released once, at its end, on every path. In every run the calls
    are those that create the folder, then the first progress line, then
    the opening of the camera; once the camera is open no other opening or
    release follows until the release that is the last call of the run,
    whether the run ends normally or with an error raised anywhere after
    the opening; so the calls on the handle are one opening and one
    release. The camera is not opened only when the run ended before:
    because a [mkdir] failed, the progress line could not be printed, or
    the opening itself raised; then the run ends with an error and leaves
    the camera untouched. *)
Theorem camera_released_on_every_path fault argv now isos shutters w r w' evs :
  main fault argv now isos shutters w = (r, w') →
  trace w' = trace w ++ evs →
  ∃ init_evs, only is_mkdir init_evs ∧
    ((∃ mid,
        evs = init_evs ++
              [Done (OPrint (taking_line isos shutters)); Done (OOpenCamera fr res)] ++
              mid ++ [Done OCloseCamera] ∧
        only not_handle_op mid ∧
        events_of is_handle_op evs = [Done (OOpenCamera fr res); Done OCloseCamera] ∧
        cam_open (device w') = false) ∨
     ((∃ e, r = Raise e) ∧ device w' = device w ∧
      ((evs = init_evs ∧ ∃ pre p, evs = pre ++ [Failed (OMkdir p)]) ∨
       evs = init_evs ++ [Failed (OPrint (taking_line isos shutters))] ∨
       evs = init_evs ++ [Done (OPrint (taking_line isos shutters));
                          Failed (OOpenCamera fr res)]))).
Proof.
  intros Hm Ht.
  destruct (main_handle fault argv now isos shutters w)
    as (r0 & w0 & init_evs & rest & E & Ht0 & Ho & H).
  rewrite Hm in E. injection E as <- <-.
  rewrite Ht in Ht0. apply app_inv_head in Ht0 as ->.
  exists init_evs. split; [done|].
  assert (Hinit : events_of is_handle_op init_evs = []).
  { apply events_of_only_false. eapply only_weaken; [|exact Ho]. by intros []. }
  destruct H as [(mid & -> & Hmid & Hc)|(He & Hd & [(-> & pre & p & ->)|[-> | ->]])].
  - left. exists mid. do 2 (split; [done|]). split; [|done].
    rewrite events_of_app, Hinit.
    rewrite (events_of_app _ [_; _]), (events_of_app _ mid).
    by rewrite (events_of_only_false is_handle_op mid).
  - right. do 2 (split; [done|]). left. rewrite app_nil_r. eauto.
  - right. do 2 (split; [done|]). right. by left.
  - right. do 2 (split; [done|]). right. by right.
Qed.

Lemma camera_released_on_every_path_witness :
  failing_session = (Raise PiCameraError, failing_session.2) ∧
  events_of is_handle_op (trace failing_session.2) =
    [Done (OOpenCamera fr res); Done OCloseCamera] ∧
  cam_open (device failing_session.2) = false ∧
  ∃ init_evs mid,
    only is_mkdir init_evs ∧ only not_handle_op mid ∧
    trace failing_session.2 =
      init_evs ++
      [Done (OPrint (taking_line [100] [1000; 2500])); Done (OOpenCamera fr res)] ++
      mid ++ [Done OCloseCamera].
Proof.
  assert (E : failing_session = (Raise PiCameraError, failing_session.2))
    by (vm_compute; reflexivity).
  split; [exact E|].
  destruct (camera_released_on_every_path fail_second_capture ["capture.py"] noon [100]
              [1000; 2500] (fresh_world gains0) _ _ _ E eq_refl)
    as (init_evs & Ho & [(mid & Hevs & Hmid & Hh & Hc)|(_ & Hd & _)]).
  - split; [exact Hh|]. split; [exact Hc|]. by exists init_evs, mid.
  - exfalso. revert Hd. vm_compute. discriminate.
Defined.

Lemma session_ops_split nm path g isos shutters :
  session_ops nm path g isos shutters =
  before_loop_ops g isos shutters ++
  loop_ops nm path (enumerate (product isos shutters)) ++
  after_loop_ops path g isos shutters.
Proof.
  unfold session_ops, block_ops, before_loop_ops, after_loop_ops.
  by rewrite <- !app_assoc.
Qed.

Lemma captured_settings_session cur init_evs nm path g isos shutters :
  only is_mkdir init_evs →
  captured_settings cur (init_evs ++ map Done (session_ops nm path g isos shutters)) =
  product isos shutters.
Proof.
  intros Hi. rewrite captured_settings_skip.
  2:{ eapply only_weaken; [|exact Hi]. by intros []. }
  rewrite session_ops_split, !map_app.
  change (captured_settings cur (map Done (before_loop_ops g isos shutters) ++ ?t))
    with (captured_settings (hd 0 isos, hd 0 shutters) t).
  rewrite captured_settings_loop; [apply enumerate_snd | done].
Qed.

(** C2: in a session that ends normally, the settings in force at the
    successive captures are exactly the Cartesian product of the two ranges,
    sensitivity-major and exposure-minor: the pair of the [i]-th sensitivity
    and the [j]-th exposure time is captured at position [i * |shutters| + j];
    for [100, 200] and [1000, 2000] the order is (100,1000), (100,2000),
    (200,1000), (200,2000). *)
Theorem capture_order_is_iso_major fault argv now isos shutters w u w' evs cur :
  main fault argv now isos shutters w = (Ok u, w') →
  trace w' = trace w ++ evs →
  captured_settings cur evs = product isos shutters ∧
  (∀ i j x y, isos !! i = Some x → shutters !! j = Some y →
     captured_settings cur evs !! (i * length shutters + j)%nat = Some (x, y)) ∧
  product [100; 200] [1000; 2000] = [(100, 1000); (100, 2000); (200, 1000); (200, 2000)].
Proof.
  intros Hm Ht.
  destruct (main_ok_events _ _ _ _ _ _ _ _ _ Hm Ht)
    as (w1 & init_evs & _ & Hi & _ & _ & -> & _).
  rewrite captured_settings_session by done.
  split; [done|]. split; [|done]. intros i j x y. apply product_lookup.
Qed.

Lemma capture_order_is_iso_major_witness :
  main no_fault ["capture.py"] noon [100; 200] [1000; 2000] (fresh_world gains0) =
    (Ok tt, (main no_fault ["capture.py"] noon [100; 200] [1000; 2000]
               (fresh_world gains0)).2) ∧
  captured_settings (0, 0)
    (trace (main no_fault ["capture.py"] noon [100; 200] [1000; 2000]
              (fresh_world gains0)).2) =
  [(100, 1000); (100, 2000); (200, 1000); (200, 2000)].
Proof.
  assert (E : main no_fault ["capture.py"] noon [100; 200] [1000; 2000]
                (fresh_world gains0) =
              (Ok tt, (main no_fault ["capture.py"] noon [100; 200] [1000; 2000]
                         (fresh_world gains0)).2)) by (vm_compute; reflexivity).
  split; [exact E|].
  exact (proj1 (capture_order_is_iso_major no_fault ["capture.py"] noon [100; 200]
    [1000; 2000] (fresh_world gains0) tt _ _ (0, 0) E eq_refl)).
Defined.

(** C3: in a session that ends normally, the camera is calibrated before
    the loop by exactly these calls, in this order and with nothing in
    between: set the sensitivity to the first value of the range, sleep 2
    seconds, set the exposure time to the first value of its range, switch
    the exposure mode off, read the white-balance gains, switch the
    white-balance mode off, write back the gains that were read. Before
    them come only the creation of the folder, a progress line, the opening
    of the camera and the start of the preview; after them a progress line
    and the loop. *)
Theorem calibration_sequence_is_fixed fault argv now isos shutters w u w' :
  main fault argv now isos shutters w = (Ok u, w') →
  ∃ iso0 shutter0 init_evs rest,
    isos !! 0%nat = Some iso0 ∧ shutters !! 0%nat = Some shutter0 ∧
    only is_mkdir init_evs ∧
    trace w' = trace w ++ init_evs ++
      [Done (OPrint (taking_line isos shutters)); Done (OOpenCamera fr res);
       Done (OStartPreview (410, 313) false (100, 100, 820, 616))] ++
      [Done (OSetIso iso0); Done (OSleep 2); Done (OSetShutterSpeed shutter0);
       Done (OSetExposureMode "off"); Done OGetAwbGains; Done (OSetAwbMode "off");
       Done (OSetAwbGains (awb_gains (device w)))] ++
      [Done (OPrint ("Gains fixed to: " +:+ str_gains (awb_gains (device w))))] ++
      map Done (loop_ops (base_name argv) (session_path now)
                  (enumerate (product isos shutters))) ++
      rest.
Proof.
  intros Hm.
  apply main_ok in Hm as (w1 & init_evs & _ & Ht1 & Hi & _ & HI & HS & ->).
  destruct isos as [|iso0 isos]; [done|]. destruct shutters as [|shutter0 shutters]; [done|].
  exists iso0, shutter0, init_evs,
    (map Done (after_loop_ops (session_path now) (awb_gains (device w))
                 (iso0 :: isos) (shutter0 :: shutters))).
  do 3 (split; [done|]).
  rewrite trace_run_ok, Ht1, session_ops_split, !map_app, <- !app_assoc.
  reflexivity.
Qed.

Lemma calibration_sequence_is_fixed_witness :
  sample_session = (Ok tt, sample_session.2) ∧
  ∃ iso0 shutter0 init_evs rest,
    [100] !! 0%nat = Some iso0 ∧ [1000; 2500] !! 0%nat = Some shutter0 ∧
    only is_mkdir init_evs ∧
    trace sample_session.2 = trace (fresh_world gains0) ++ init_evs ++
      [Done (OPrint (taking_line [100] [1000; 2500])); Done (OOpenCamera fr res);
       Done (OStartPreview (410, 313) false (100, 100, 820, 616))] ++
      [Done (OSetIso iso0); Done (OSleep 2); Done (OSetShutterSpeed shutter0);
       Done (OSetExposureMode "off"); Done OGetAwbGains; Done (OSetAwbMode "off");
       Done (OSetAwbGains (awb_gains (device (fresh_world gains0))))] ++
      [Done (OPrint ("Gains fixed to: " +:+
                     str_gains (awb_gains (device (fresh_world gains0)))))] ++
      map Done (loop_ops (base_name ["capture.py"]) (session_path noon)
                  (enumerate (product [100] [1000; 2500]))) ++
      rest.
Proof.
  assert (E : sample_session = (Ok tt, sample_session.2)) by (vm_compute; reflexivity).
  split; [exact E|].
  exact (calibration_sequence_is_fixed no_fault ["capture.py"] noon [100] [1000; 2500]
           (fresh_world gains0) tt _ E).
Defined.

Lemma loop_ops_before_wrap_up nm path its :
  forallb before_wrap_up (loop_ops nm path its) = true.
Proof. induction its as [|it its IH]; [done|]. simpl. exact IH. Qed.

Lemma precedes_split P Q t1 t2 :
  only (λ o, negb (Q o)) t1 → only (λ o, negb (P o)) t2 → precedes P Q (t1 ++ t2).
Proof.
  intros H1 H2 i j a b Hi Hj Pa Qb.
  destruct (decide (j < length t1)%nat) as [Hlt|Hge].
  { rewrite lookup_app_l in Hj by done.
    pose proof (proj1 (Forall_lookup _ _) H1 _ _ Hj) as Hn. simpl in Hn.
    by rewrite Qb in Hn. }
  destruct (decide (i < length t1)%nat) as [Hi1|Hi2]; [lia|].
  rewrite lookup_app_r in Hi by lia.
  pose proof (proj1 (Forall_lookup _ _) H2 _ _ Hi) as Hn. simpl in Hn.
  by rewrite Pa in Hn.
Qed.

Lemma has_sep_endswith s : has_sep s = false → endswith_sep s = false.
Proof.
  induction s as [|c s IH]; [done|]. simpl.
  intros [Hc Hs]%orb_false_iff. destruct s; [done|]. by apply IH.
Qed.

Lemma endswith_sep_app a b : is_empty b = false → endswith_sep (a +:+ b) = endswith_sep b.
Proof.
  intros Hb. induction a as [|c a IH]; [done|].
  change (String c a +:+ b) with (String c (a +:+ b)).
  change (endswith_sep (String c (a +:+ b)))
    with (match a +:+ b with
          | EmptyString => is_sep c
          | String _ _ => endswith_sep (a +:+ b)
          end).
  destruct (a +:+ b) eqn:E; [|done].
  destruct a; [|done]. destruct b; done.
Qed.

Lemma params_path_eq now : params_path now = session_path now +:+ "/params.txt".
Proof.
  unfold params_path, path_join.
  change (startswith_sep "params.txt") with false. cbv iota.
  rewrite session_path_eq at 1 2.
  rewrite endswith_sep_app by apply strftime_nonempty.
  rewrite (has_sep_endswith _ (stamp_no_sep _ (strftime_chars now))).
  by destruct (strftime now).
Qed.

(** The end of a session that ends normally: after the loop come the stop
    of the preview, the settings file, a last line and the release. *)
Lemma main_ok_tail fault argv now isos shutters w u w' evs :
  main fault argv now isos shutters w = (Ok u, w') →
  trace w' = trace w ++ evs →
  ∃ pre,
    evs = pre ++ map Done (after_loop_ops (session_path now) (awb_gains (device w))
                             isos shutters) ∧
    only before_wrap_up pre ∧
    events_of is_capture pre =
      capture_events (base_name argv) (session_path now) (product isos shutters) ∧
    Done (OSetAwbGains (awb_gains (device w))) ∈ pre ∧
    fsys w' !! params_path now =
      Some (Text (params_lines "off" "off" (awb_gains (device w)) isos shutters)).
Proof.
  intros Hm Ht.
  destruct (main_ok_events _ _ _ _ _ _ _ _ _ Hm Ht)
    as (w1 & init_evs & _ & Hi & _ & _ & -> & Hf).
  set (g := awb_gains (device w)) in *.
  set (nm := base_name argv) in *. set (path := session_path now) in *.
  exists (init_evs ++ map Done (before_loop_ops g isos shutters) ++
          map Done (loop_ops nm path (enumerate (product isos shutters)))).
  split; [by rewrite session_ops_split, !map_app, <- !app_assoc|].
  split.
  { apply only_app; [by eapply only_weaken; [|exact Hi]; intros [] | ].
    apply only_app; apply only_map_done; [reflexivity | apply loop_ops_before_wrap_up]. }
  split.
  { rewrite !events_of_app, captures_loop_pairs, enumerate_snd.
    rewrite (events_of_only_false is_capture init_evs).
    - reflexivity.
    - eapply only_weaken; [|exact Hi]. by intros []. }
  split.
  { apply elem_of_app. right. apply elem_of_app. left.
    unfold before_loop_ops, calibration_ops. simpl. set_solver. }
  rewrite Hf. unfold params_path. by rewrite lookup_insert_eq.
Qed.

(** C4: in a session that ends normally, one settings file is written,
    after all the captures: every capture call is made before the file is
    opened, the file is opened once, at [params.txt] under the path of the
    session, and it ends up with five lines, in this order: the exposure
    mode and the white-balance mode of the camera (both off by then), the
    gains that were read and written back during calibration, the list of
    sensitivities and the list of exposure times as configured, each after
    its fixed prefix. *)
Theorem manifest_written_once_after_captures fault argv now isos shutters w u w' evs :
  main fault argv now isos shutters w = (Ok u, w') →
  trace w' = trace w ++ evs →
  ∃ pre,
    evs = pre ++ [Done OStopPreview] ++
          map Done (params_ops (session_path now +:+ "/params.txt") "off" "off"
                      (awb_gains (device w)) isos shutters) ++
          [Done (OPrint "Done."); Done OCloseCamera] ∧
    only (λ o, negb (is_file_op o)) pre ∧
    events_of is_capture pre =
      capture_events (base_name argv) (session_path now) (product isos shutters) ∧
    Done (OSetAwbGains (awb_gains (device w))) ∈ pre ∧
    fsys w' !! (session_path now +:+ "/params.txt") =
      Some (Text ["Exposure mode: off"; "AWB mode: off";
                  "Gains: " +:+ str_gains (awb_gains (device w));
                  "ISOs: " +:+ str_list isos;
                  "Shutter speeds: " +:+ str_list shutters]).
Proof.
  intros Hm Ht.
  destruct (main_ok_tail _ _ _ _ _ _ _ _ _ Hm Ht) as (pre & -> & Hp & Hc & Hg & Hf).
  exists pre. rewrite <- params_path_eq.
  split; [by unfold after_loop_ops; rewrite !map_app|].
  split; [|done].
  eapply only_weaken; [|exact Hp]. intros o. unfold before_wrap_up. by destruct o.
Qed.

Lemma manifest_written_once_after_captures_witness :
  sample_session = (Ok tt, sample_session.2) ∧
  fsys sample_session.2 !! "capture/2019-07-04-12-00-00/params.txt" =
    Some (Text ["Exposure mode: off"; "AWB mode: off";
                "Gains: (Fraction(77, 64), Fraction(3, 2))";
                "ISOs: [100]"; "Shutter speeds: [1000, 2500]"]).
Proof.
  assert (E : sample_session = (Ok tt, sample_session.2)) by (vm_compute; reflexivity).
  split; [exact E|].
  destruct (manifest_written_once_after_captures no_fault ["capture.py"] noon [100]
              [1000; 2500] (fresh_world gains0) tt _ _ E eq_refl)
    as (pre & _ & _ & _ & _ & Hf).
  exact Hf.
Defined.

(** C7, as claimed, fails: in the sample session, which ends normally, the
    settings file is opened (call 24 of the trace) before the camera is
    released (call 34, the last), so the release does not precede the
    writing of the file. *)
Lemma manifest_after_release_counterexample :
  sample_session.1 = Ok tt ∧
  trace sample_session.2 !! 24%nat =
    Some (Done (OOpenFile "capture/2019-07-04-12-00-00/params.txt")) ∧
  trace sample_session.2 !! 34%nat = Some (Done OCloseCamera) ∧
  ¬ precedes is_release is_file_op (trace sample_session.2).
Proof.
  assert (H24 : trace sample_session.2 !! 24%nat =
    Some (Done (OOpenFile "capture/2019-07-04-12-00-00/params.txt")))
    by (vm_compute; reflexivity).
  assert (H34 : trace sample_session.2 !! 34%nat = Some (Done OCloseCamera))
    by (vm_compute; reflexivity).
  split; [vm_compute; reflexivity|]. split; [exact H24|]. split; [exact H34|].
  intros H. specialize (H _ _ _ _ H34 H24 eq_refl eq_refl). lia.
Qed.

(** C7, amended: on the normal path the session stops the preview, then
    writes the settings file, and only then releases the camera. The file
    is written inside the block that holds the camera, whose modes it
    reads, so every call on the file comes after the stop of the preview
    and before the release, which is the last call of the session. *)
Theorem manifest_written_before_release fault argv now isos shutters w u w' evs :
  main fault argv now isos shutters w = (Ok u, w') →
  trace w' = trace w ++ evs →
  (∃ pre,
     evs = pre ++ [Done OStopPreview] ++
           map Done (params_ops (params_path now) "off" "off"
                       (awb_gains (device w)) isos shutters) ++
           [Done (OPrint "Done."); Done OCloseCamera] ∧
     only before_wrap_up pre) ∧
  precedes is_stop_preview is_file_op evs ∧
  precedes is_file_op is_release evs.
Proof.
  intros Hm Ht.
  destruct (main_ok_tail _ _ _ _ _ _ _ _ _ Hm Ht) as (pre & -> & Hp & _).
  set (g := awb_gains (device w)).
  assert (E : map Done (after_loop_ops (session_path now) g isos shutters) =
              [Done OStopPreview] ++
              map Done (params_ops (params_path now) "off" "off" g isos shutters) ++
              [Done (OPrint "Done."); Done OCloseCamera]).
  { unfold after_loop_ops. by rewrite !map_app. }
  split; [by exists pre|]. split.
  - rewrite E, app_assoc. apply precedes_split.
    + apply only_app; [|by repeat constructor].
      eapply only_weaken; [|exact Hp]. intros o. unfold before_wrap_up. by destruct o.
    + apply only_app; [apply only_map_done; reflexivity | by repeat constructor].
  - rewrite E.
    change [Done (OPrint "Done."); Done OCloseCamera]
      with ([Done (OPrint "Done.")] ++ [Done OCloseCamera]).
    rewrite !app_assoc. apply precedes_split; [|by repeat constructor].
    rewrite <- !app_assoc. apply only_app.
    { eapply only_weaken; [|exact Hp]. intros o. unfold before_wrap_up. by destruct o. }
    apply only_app; [by repeat constructor|].
    apply only_app; [apply only_map_done; reflexivity | by repeat constructor].
Qed.

Lemma manifest_written_before_release_witness :
  sample_session = (Ok tt, sample_session.2) ∧
  precedes is_stop_preview is_file_op (trace sample_session.2) ∧
  precedes is_file_op is_release (trace sample_session.2).
Proof.
  assert (E : sample_session = (Ok tt, sample_session.2)) by (vm_compute; reflexivity).
  split; [exact E|].
  exact (proj2 (manifest_written_before_release no_fault ["capture.py"] noon [100]
                  [1000; 2500] (fresh_world gains0) tt _ _ E eq_refl)).
Defined.

Lemma string_app_assoc (a b c : string) : (a +:+ b) +:+ c = a +:+ b +:+ c.
Proof. induction a as [|x a IH]; [reflexivity|]. exact (f_equal (String x) IH). Qed.

(** Below the folder of a session, [os.path.join] puts one separator. *)
Lemma session_path_join now b :
  startswith_sep b = false → path_join (session_path now) b = session_path now +:+ "/" +:+ b.
Proof.
  intros Hb. unfold path_join. rewrite Hb.
  rewrite session_path_eq at 1 2.
  rewrite endswith_sep_app by apply strftime_nonempty.
  rewrite (has_sep_endswith _ (stamp_no_sep _ (strftime_chars now))).
  by destruct (strftime now).
Qed.

(** Two pairs never share a destination. *)
Lemma dest_inj nm path p q : dest nm path p = dest nm path q → p = q.
Proof.
  destruct p as [i s], q as [i' s']. unfold dest, path_join. simpl.
  rewrite !filename_absolute. destruct (startswith_sep nm).
  - by intros [-> ->]%filename_inj.
  - destruct (is_empty path || endswith_sep path).
    + by intros [-> ->]%append_inj_l%filename_inj.
    + by intros [-> ->]%append_inj_l%append_inj_l%filename_inj.
Qed.

(** The capture calls of a session that ends normally. *)
Lemma capture_dests_session init_evs nm path g isos shutters :
  only is_mkdir init_evs →
  capture_dests (init_evs ++ map Done (session_ops nm path g isos shutters)) =
  dest nm path <$> product isos shutters.
Proof.
  intros Hi. rewrite capture_dests_app, capture_dests_none.
  2:{ eapply only_weaken; [|exact Hi]. by intros []. }
  assert (E : map Done (session_ops nm path g isos shutters) =
              map Done (before_loop_ops g isos shutters) ++
              map Done (loop_ops nm path (enumerate (product isos shutters))) ++
              map Done (after_loop_ops path g isos shutters)).
  { by rewrite session_ops_split, !map_app. }
  rewrite E, capture_dests_app, capture_dests_app, capture_dests_loop, enumerate_snd.
  change (capture_dests (map Done (before_loop_ops g isos shutters))) with (@nil string).
  change (capture_dests (map Done (after_loop_ops path g isos shutters))) with (@nil string).
  by rewrite app_nil_r.
Qed.

Lemma has_sep_app a b : has_sep (a +:+ b) = has_sep a || has_sep b.
Proof.
  induction a as [|c a IH]; [done|].
  change (String c a +:+ b) with (String c (a +:+ b)).
  change (has_sep (String c (a +:+ b))) with (is_sep c || has_sep (a +:+ b)).
  change (has_sep (String c a)) with (is_sep c || has_sep a).
  by rewrite IH, orb_assoc.
Qed.

Lemma str_int_no_sep z : has_sep (str_int z) = false.
Proof.
  assert (D : ∀ d, string_forallb is_digit d = true → has_sep d = false).
  { intros d Hd. apply stamp_no_sep. revert Hd. apply string_forallb_impl.
    intros c Hc. unfold stamp_char. by rewrite Hc. }
  destruct (str_int_shape z) as (d & Hd & _ & [-> | ->]); [by apply D|].
  change (has_sep (String "-" d)) with (is_sep "-" || has_sep d). by rewrite D.
Qed.

(** A base name without separator gives file names without separator. *)
Lemma filename_no_sep nm i s : has_sep nm = false → has_sep (filename nm i s) = false.
Proof.
  intros Hnm. unfold filename. rewrite !has_sep_app, Hnm, !str_int_no_sep. reflexivity.
Qed.

Lemma cut_last_sep_join a b :
  has_sep b = false → cut_last_sep (a +:+ "/" +:+ b) = (a +:+ "/", b).
Proof.
  intros Hb. induction a as [|c a IH].
  - change ("" +:+ "/" +:+ b) with (String "/" b).
    change (cut_last_sep (String "/" b))
      with (if has_sep b then let '(h, t) := cut_last_sep b in (String "/" h, t)
            else if is_sep "/" then (String "/" "", b) else ("", String "/" b)).
    by rewrite Hb.
  - change (String c a +:+ "/" +:+ b) with (String c (a +:+ "/" +:+ b)).
    change (cut_last_sep (String c (a +:+ "/" +:+ b)))
      with (if has_sep (a +:+ "/" +:+ b)
            then let '(h, t) := cut_last_sep (a +:+ "/" +:+ b) in (String c h, t)
            else if is_sep c then (String c "", a +:+ "/" +:+ b)
                 else ("", String c (a +:+ "/" +:+ b))).
    rewrite IH, has_sep_app, has_sep_app, orb_true_r. reflexivity.
Qed.

Lemma rstrip_sep_app_sep s : rstrip_sep (s +:+ "/") = rstrip_sep s.
Proof.
  induction s as [|c s IH]; [reflexivity|].
  change (String c s +:+ "/") with (String c (s +:+ "/")).
  change (rstrip_sep (String c (s +:+ "/")))
    with (if is_sep c && is_empty (rstrip_sep (s +:+ "/")) then ""
          else String c (rstrip_sep (s +:+ "/"))).
  by rewrite IH.
Qed.

Lemma rstrip_sep_id s : endswith_sep s = false → rstrip_sep s = s.
Proof.
  induction s as [|c s IH]; [done|]. intros H.
  change (rstrip_sep (String c s))
    with (if is_sep c && is_empty (rstrip_sep s) then "" else String c (rstrip_sep s)).
  destruct s as [|c' s].
  - simpl in H. change (rstrip_sep "") with "". by rewrite H.
  - rewrite IH by exact H. by rewrite andb_false_r.
Qed.

(** [os.path.split] gives back the folder of a session and the name of a
    file that was joined to it, when the name has no separator. *)
Lemma path_split_child now b :
  has_sep b = false →
  path_split (session_path now +:+ "/" +:+ b) = (session_path now, b).
Proof.
  intros Hb. unfold path_split. rewrite (cut_last_sep_join _ _ Hb).
  assert (Hend : endswith_sep (session_path now) = false).
  { rewrite session_path_eq, endswith_sep_app by apply strftime_nonempty.
    apply has_sep_endswith, stamp_no_sep, strftime_chars. }
  rewrite rstrip_sep_app_sep, (rstrip_sep_id _ Hend).
  rewrite session_path_eq at 1 2.
  change (("capture/" +:+ strftime now) +:+ "/")
    with (String "c" ("apture/" +:+ strftime now +:+ "/")).
  reflexivity.
Qed.

(** C1, as claimed, fails in its last part: with the base name [/tmp/x]
    on the command line the session ends normally, and its one image goes
    to [/tmp/x-100-1000.jpg], a file of the folder [/tmp], outside the
    folder of the session. A base name need not be absolute for that:
    with [../x] the image is joined to the path of the session, but the
    folder it is in is the parent [capture] of the folder of the
    session. *)
Lemma captures_under_session_path_counterexample :
  absolute_name_session.1 = Ok tt ∧
  capture_dests (trace absolute_name_session.2) = ["/tmp/x-100-1000.jpg"] ∧
  is_Some (fsys absolute_name_session.2 !! "/tmp/x-100-1000.jpg") ∧
  path_split "/tmp/x-100-1000.jpg" = ("/tmp", "x-100-1000.jpg") ∧
  session_path noon = "capture/2019-07-04-12-00-00" ∧
  parent_name_session.1 = Ok tt ∧
  startswith_sep "../x" = false ∧
  capture_dests (trace parent_name_session.2) =
    ["capture/2019-07-04-12-00-00/../x-100-1000.jpg"] ∧
  path_split "capture/2019-07-04-12-00-00/../x-100-1000.jpg" =
    ("capture/2019-07-04-12-00-00/..", "x-100-1000.jpg").
Proof.
  split; [vm_compute; reflexivity|]. split; [vm_compute; reflexivity|].
  split; [vm_compute; eauto|]. split; [vm_compute; reflexivity|].
  split; [vm_compute; reflexivity|].
  split; [vm_compute; reflexivity|]. split; [reflexivity|].
  split; vm_compute; reflexivity.
Qed.

(** C1, amended: a session that ends normally makes exactly
    [|isos| * |shutters|] capture calls; their destinations are, in order,
    [os.path.join(path, name-iso-shutter.jpg)] for the pairs of the
    Cartesian product, so a destination is used exactly when it is that of
    a pair; every one of them is on disk at the end; and, provided the
    base name has no separator, each of them is a file in the folder of
    the session itself: [os.path.split] of the destination gives the path
    of the session and the file name of the pair. *)
Theorem captures_cover_the_product fault argv now isos shutters w u w' evs :
  main fault argv now isos shutters w = (Ok u, w') →
  trace w' = trace w ++ evs →
  length (capture_dests evs) = (length isos * length shutters)%nat ∧
  capture_dests evs =
    (λ p, path_join (session_path now) (filename (base_name argv) p.1 p.2)) <$>
    product isos shutters ∧
  (∀ d, d ∈ capture_dests evs ↔
        ∃ i s, i ∈ isos ∧ s ∈ shutters ∧
               d = path_join (session_path now) (filename (base_name argv) i s)) ∧
  (∀ d, d ∈ capture_dests evs → is_Some (fsys w' !! d)) ∧
  (has_sep (base_name argv) = false →
   ∀ d, d ∈ capture_dests evs →
        ∃ i s, i ∈ isos ∧ s ∈ shutters ∧
               d = session_path now +:+ "/" +:+ base_name argv +:+ "-" +:+ str_int i +:+
                   "-" +:+ str_int s +:+ ".jpg" ∧
               path_split d = (session_path now, filename (base_name argv) i s)).
Proof.
  intros Hm Ht.
  destruct (main_ok_events _ _ _ _ _ _ _ _ _ Hm Ht)
    as (w1 & init_evs & _ & Hi & _ & _ & -> & Hf).
  rewrite capture_dests_session by done.
  set (nm := base_name argv) in *. set (path := session_path now) in *.
  assert (Hin : ∀ d, d ∈ dest nm path <$> product isos shutters ↔
            ∃ i s, i ∈ isos ∧ s ∈ shutters ∧ d = path_join path (filename nm i s)).
  { intros d. rewrite list_elem_of_fmap. split.
    - intros ([i s] & -> & Hp). apply elem_of_product in Hp as [? ?]. by exists i, s.
    - intros (i & s & Hi' & Hs & ->). exists (i, s). split; [done|].
      by apply elem_of_product. }
  split; [by rewrite length_fmap, product_length|].
  split; [done|]. split; [exact Hin|]. split.
  - intros d Hd. apply list_elem_of_fmap in Hd as (p & -> & Hp). rewrite Hf.
    apply lookup_insert_is_Some.
    destruct (decide (path_join path "params.txt" = dest nm path p)); [by left|].
    right. split; [done|]. by apply write_images_lookup.
  - intros Hnm d Hd. apply Hin in Hd as (i & s & Hi' & Hs & ->).
    pose proof (filename_no_sep nm i s Hnm) as Hfn.
    unfold path. rewrite session_path_join by (by apply no_sep_not_absolute).
    exists i, s. do 3 (split; [done|]). by apply path_split_child.
Qed.

Lemma captures_cover_the_product_witness :
  sample_session = (Ok tt, sample_session.2) ∧
  capture_dests (trace sample_session.2) =
    ["capture/2019-07-04-12-00-00/raw-100-1000.jpg";
     "capture/2019-07-04-12-00-00/raw-100-2500.jpg"] ∧
  has_sep (base_name ["capture.py"]) = false ∧
  length (capture_dests (trace sample_session.2)) = (1 * 2)%nat ∧
  ∀ d, d ∈ capture_dests (trace sample_session.2) →
    ∃ i s, i ∈ [100] ∧ s ∈ [1000; 2500] ∧
      d = session_path noon +:+ "/" +:+ base_name ["capture.py"] +:+ "-" +:+
          str_int i +:+ "-" +:+ str_int s +:+ ".jpg" ∧
      path_split d = (session_path noon, filename (base_name ["capture.py"]) i s).
Proof.
  assert (E : sample_session = (Ok tt, sample_session.2)) by (vm_compute; reflexivity).
  assert (Hnm : has_sep (base_name ["capture.py"]) = false) by reflexivity.
  split; [exact E|]. split; [vm_compute; reflexivity|]. split; [exact Hnm|].
  destruct (captures_cover_the_product no_fault ["capture.py"] noon [100]
              [1000; 2500] (fresh_world gains0) tt _ _ E eq_refl)
    as (Hlen & _ & _ & _ & Hchild).
  split; [exact Hlen|]. exact (Hchild Hnm).
Defined.

(** C8, as claimed, fails: with the sensitivity 100 listed twice the
    session ends normally after two capture calls to the same destination,
    so the file names are not pairwise distinct. *)
Lemma filenames_distinct_counterexample :
  repeated_iso_session.1 = Ok tt ∧
  capture_dests (trace repeated_iso_session.2) =
    ["capture/2019-07-04-12-00-00/raw-100-1000.jpg";
     "capture/2019-07-04-12-00-00/raw-100-1000.jpg"] ∧
  ¬ NoDup (capture_dests (trace repeated_iso_session.2)).
Proof.
  assert (E : capture_dests (trace repeated_iso_session.2) =
    ["capture/2019-07-04-12-00-00/raw-100-1000.jpg";
     "capture/2019-07-04-12-00-00/raw-100-1000.jpg"]) by (vm_compute; reflexivity).
  split; [vm_compute; reflexivity|]. split; [exact E|].
  rewrite E. intros H. apply NoDup_cons in H as [H _]. apply H. by left.
Qed.

(** C8, amended: when neither range repeats a value, a session that ends
    normally makes [|isos| * |shutters|] capture calls whose file names,
    and whose destinations, are pairwise distinct, and every destination is
    on disk at the end. Two pairs never share a file name, whatever the
    ranges: the name determines both numbers. *)
Theorem filenames_distinct_for_distinct_settings fault argv now isos shutters w u w' evs :
  NoDup isos → NoDup shutters →
  main fault argv now isos shutters w = (Ok u, w') →
  trace w' = trace w ++ evs →
  length (capture_dests evs) = (length isos * length shutters)%nat ∧
  NoDup ((λ p, filename (base_name argv) p.1 p.2) <$> product isos shutters) ∧
  NoDup (capture_dests evs) ∧
  (∀ d, d ∈ capture_dests evs → is_Some (fsys w' !! d)) ∧
  (∀ nm i s i' s', filename nm i s = filename nm i' s' → i = i' ∧ s = s').
Proof.
  intros HI HS Hm Ht.
  destruct (main_ok_events _ _ _ _ _ _ _ _ _ Hm Ht)
    as (w1 & init_evs & _ & Hi & _ & _ & -> & Hf).
  rewrite capture_dests_session by done.
  pose proof (NoDup_product _ _ HI HS) as Hnd.
  split; [by rewrite length_fmap, product_length|]. split.
  { apply NoDup_fmap_2_strong; [|done].
    intros [i s] [i' s'] _ _ E. simpl in E. by apply filename_inj in E as [-> ->]. }
  split.
  { apply NoDup_fmap_2_strong; [|done]. intros p q _ _. apply dest_inj. }
  split; [|apply filename_inj].
  intros d Hd. apply list_elem_of_fmap in Hd as (p & -> & Hp). rewrite Hf.
  apply lookup_insert_is_Some.
  destruct (decide (path_join (session_path now) "params.txt" =
                    dest (base_name argv) (session_path now) p)); [by left|].
  right. split; [done|]. by apply write_images_lookup.
Qed.

Lemma filenames_distinct_for_distinct_settings_witness :
  NoDup [100] ∧ NoDup [1000; 2500] ∧
  sample_session = (Ok tt, sample_session.2) ∧
  NoDup (capture_dests (trace sample_session.2)).
Proof.
  assert (E : sample_session = (Ok tt, sample_session.2)) by (vm_compute; reflexivity).
  assert (HI : NoDup [100]) by (apply NoDup_singleton).
  assert (HS : NoDup [1000; 2500]).
  { apply NoDup_cons. split; [|apply NoDup_singleton]. by intros [=]%list_elem_of_singleton. }
  split; [exact HI|]. split; [exact HS|]. split; [exact E|].
  exact (proj1 (proj2 (proj2 (filenames_distinct_for_distinct_settings no_fault
    ["capture.py"] noon [100] [1000; 2500] (fresh_world gains0) tt _ _ HI HS E eq_refl)))).
Defined.

Lemma filter_length_Permutation {A} (f : A → bool) l l' :
  l ≡ₚ l' → length (List.filter f l) = length (List.filter f l').
Proof.
  induction 1 as [|x l l' _ IH|x y l|l l' l'' _ IH1 _ IH2]; simpl.
  - done.
  - destruct (f x); simpl; by rewrite IH.
  - by destruct (f x), (f y).
  - by rewrite IH1.
Qed.

(** A new image is one more image. *)
Lemma image_count_insert (fs : gmap string node) d i s :
  fs !! d = None → image_count (<[d := Image i s]> fs) = S (image_count fs).
Proof.
  intros Hd. unfold image_count.
  by rewrite (filter_length_Permutation _ _ _ (map_to_list_insert fs d (Image i s) Hd)).
Qed.

(** Images written at destinations that are new and pairwise distinct. *)
Lemma image_count_write_images nm path ps (fs : gmap string node) :
  NoDup ps → (∀ q, q ∈ ps → fs !! dest nm path q = None) →
  image_count (write_images nm path ps fs) = (image_count fs + length ps)%nat.
Proof.
  revert fs. induction ps as [|q ps IH]; intros fs Hnd Hnew; simpl; [lia|].
  apply NoDup_cons in Hnd as [Hq Hnd]. rewrite IH; [|done|].
  - rewrite image_count_insert by (apply Hnew; by left). lia.
  - intros p Hp. rewrite lookup_insert_ne; [apply Hnew; by right|].
    intros E. apply dest_inj in E. by subst.
Qed.

(** C5, as claimed, fails in its count: with the sensitivity 100 listed
    three times and one exposure time, when the capture of the third pair
    fails the session ends with the error of the camera, but the two
    earlier captures went to the same destination: one image file is on
    disk, not two. *)
Lemma capture_failure_leaves_fewer_files_counterexample :
  repeated_failing_session.1 = Raise PiCameraError ∧
  events_of is_capture (trace repeated_failing_session.2) =
    [Done (OCapture "capture/2019-07-04-12-00-00/raw-100-1000.jpg");
     Done (OCapture "capture/2019-07-04-12-00-00/raw-100-1000.jpg");
     Failed (OCapture "capture/2019-07-04-12-00-00/raw-100-1000.jpg")] ∧
  image_count (fsys (fresh_world gains0)) = 0%nat ∧
  image_count (fsys repeated_failing_session.2) = 1%nat.
Proof.
  split; [vm_compute; reflexivity|]. split; [vm_compute; reflexivity|].
  split; vm_compute; reflexivity.
Qed.

(** C5, amended: when a capture call fails, be it the one at position [k]
    (from 0) among the capture calls of the session, the session ends at
    once with the error of the camera: the failed call is that of the pair
    at position [k] of the product, the capture calls made are those of
    the [k] pairs before it, each once and each returned, followed by the
    failed one and by nothing else than the release of the camera; and the
    file system is that after initialisation with the images of these [k]
    pairs written, none removed. These are [k] image files more than
    before when neither range repeats a value and none of the files was
    there: a range that repeats a value writes a file twice. *)
Theorem capture_failure_aborts_session fault argv now isos shutters w r w' evs k d :
  main fault argv now isos shutters w = (r, w') →
  trace w' = trace w ++ evs →
  events_of is_capture evs !! k = Some (Failed (OCapture d)) →
  ∃ w1 p,
    session_init fault argv now w = (Ok (base_name argv, session_path now), w1) ∧
    product isos shutters !! k = Some p ∧
    d = path_join (session_path now) (filename (base_name argv) p.1 p.2) ∧
    r = Raise PiCameraError ∧
    events_of is_capture evs =
      capture_events (base_name argv) (session_path now) (take k (product isos shutters)) ++
      [Failed (OCapture d)] ∧
    (∃ pre, evs = pre ++ [Failed (OCapture d); Done OCloseCamera]) ∧
    fsys w' = write_images (base_name argv) (session_path now)
                (take k (product isos shutters)) (fsys w1) ∧
    (NoDup isos → NoDup shutters →
     (∀ q, q ∈ take k (product isos shutters) →
           fsys w1 !! path_join (session_path now) (filename (base_name argv) q.1 q.2) =
           None) →
     image_count (fsys w') = (image_count (fsys w1) + k)%nat).
Proof.
  intros Hm Ht Hk.
  destruct (main_captures fault argv now isos shutters w) as (r0 & w0 & evs0 & E & Ht0 & H).
  rewrite Hm in E. injection E as <- <-.
  rewrite Ht in Ht0. apply app_inv_head in Ht0 as <-.
  destruct H as [Hall|(w1 & ps1 & p & ps2 & Hi & Hp & -> & Hc & Hpre & Hf)].
  { pose proof (proj1 (Forall_lookup _ _) Hall _ _ Hk) as [o Ho]. discriminate. }
  assert (Hlen : length (capture_events (base_name argv) (session_path now) ps1) =
                 length ps1) by apply length_map.
  assert (k = length ps1 ∧ d = dest (base_name argv) (session_path now) p) as [-> ->].
  { rewrite Hc in Hk.
    destruct (decide (k < length ps1)%nat) as [Hlt|Hge].
    - rewrite lookup_app_l in Hk by lia.
      pose proof (all_done_capture_events (base_name argv) (session_path now) ps1) as Hd.
      pose proof (proj1 (Forall_lookup _ _) Hd _ _ Hk) as [o Ho]. discriminate.
    - rewrite lookup_app_r in Hk by lia. rewrite Hlen in Hk.
      destruct (k - length ps1)%nat as [|n] eqn:En; [|done].
      injection Hk as <-. split; [lia|done]. }
  exists w1, p. split; [done|].
  rewrite Hp, take_app_length. split; [by rewrite list_lookup_middle|].
  do 5 (split; [done|]).
  intros HI HS Hnew. rewrite Hf. apply image_count_write_images; [|exact Hnew].
  pose proof (NoDup_product _ _ HI HS) as Hnd. rewrite Hp in Hnd.
  by apply NoDup_app in Hnd as [? _].
Qed.

Lemma capture_failure_aborts_session_witness :
  failing_session = (Raise PiCameraError, failing_session.2) ∧
  events_of is_capture (trace failing_session.2) =
    [Done (OCapture "capture/2019-07-04-12-00-00/raw-100-1000.jpg");
     Failed (OCapture "capture/2019-07-04-12-00-00/raw-100-2500.jpg")] ∧
  fsys failing_session.2 !! "capture/2019-07-04-12-00-00/raw-100-1000.jpg" =
    Some (Image 100 1000) ∧
  fsys failing_session.2 !! "capture/2019-07-04-12-00-00/raw-100-2500.jpg" = None ∧
  NoDup [100] ∧ NoDup [1000; 2500] ∧
  image_count (fsys failing_session.2) =
    (image_count (fsys (session_init fail_second_capture ["capture.py"] noon
                          (fresh_world gains0)).2) + 1)%nat ∧
  ∃ pre, trace failing_session.2 =
    pre ++ [Failed (OCapture "capture/2019-07-04-12-00-00/raw-100-2500.jpg");
            Done OCloseCamera].
Proof.
  assert (E : failing_session = (Raise PiCameraError, failing_session.2))
    by (vm_compute; reflexivity).
  assert (Hk : events_of is_capture (trace failing_session.2) !! 1%nat =
    Some (Failed (OCapture "capture/2019-07-04-12-00-00/raw-100-2500.jpg")))
    by (vm_compute; reflexivity).
  assert (HI : NoDup [100]) by (apply (bool_decide_unpack _); vm_compute; reflexivity).
  assert (HS : NoDup [1000; 2500])
    by (apply (bool_decide_unpack _); vm_compute; reflexivity).
  split; [exact E|]. split; [vm_compute; reflexivity|].
  split; [vm_compute; reflexivity|]. split; [vm_compute; reflexivity|].
  split; [exact HI|]. split; [exact HS|].
  destruct (capture_failure_aborts_session fail_second_capture ["capture.py"] noon [100]
              [1000; 2500] (fresh_world gains0) _ _ _ 1%nat _ E eq_refl Hk)
    as (w1 & p & Hi & _ & _ & _ & _ & Hpre & _ & Hcount).
  assert (Hw1 : w1 = (session_init fail_second_capture ["capture.py"] noon
                        (fresh_world gains0)).2) by (by rewrite Hi).
  subst w1. split; [|exact Hpre].
  apply Hcount; [exact HI | exact HS |].
  intros q Hq. apply list_elem_of_singleton in Hq as ->. vm_compute. reflexivity.
Defined.

(** * Further properties of the script *)

(** ** Every run is a prefix of the undisturbed one *)

Lemma held_app a1 a2 acc : held (a1 ++ a2) acc = held a2 (held a1 acc).
Proof.
  revert acc. induction a1 as [|o a1 IH]; intros acc; [done|].
  destruct o; simpl; apply IH.
Qed.

Lemma held_plain a acc : forallb (λ o, negb (is_with_op o)) a = true → held a acc = acc.
Proof.
  revert acc. induction a as [|o a IH]; intros acc; [done|]. simpl.
  intros [Ho Ha]%andb_true_iff. destruct o; try discriminate; by apply IH.
Qed.

Lemma forallb_prefix {A} (P : A → bool) l a x b :
  forallb P l = true → l = a ++ x :: b → forallb P a = true.
Proof. intros H ->. rewrite forallb_app in H. by apply andb_true_iff in H as [? _]. Qed.

Lemma loop_ops_plain nm path its :
  forallb (λ o, negb (is_with_op o)) (loop_ops nm path its) = true.
Proof. induction its as [|it its IH]; [done|]. simpl. exact IH. Qed.

Lemma capture_block_ops_plain nm path g isos shutters :
  forallb (λ o, negb (is_with_op o)) (capture_block_ops nm path g isos shutters) = true.
Proof.
  unfold capture_block_ops. rewrite !forallb_app, loop_ops_plain. reflexivity.
Qed.

Lemma capture_block_ops_modes nm path g isos shutters w :
  exposure_mode (device (run_ok (capture_block_ops nm path g isos shutters) w)) = "off" ∧
  awb_mode (device (run_ok (capture_block_ops nm path g isos shutters) w)) = "off".
Proof.
  set (pre := [OStartPreview (410, 313) false (100, 100, 820, 616)] ++
              calibration_ops (hd 0 isos) (hd 0 shutters) g ++
              [OPrint ("Gains fixed to: " +:+ str_gains g)]).
  set (suf := loop_ops nm path (enumerate (product isos shutters)) ++ [OStopPreview]).
  assert (E : capture_block_ops nm path g isos shutters = pre ++ suf) by reflexivity.
  assert (Hsuf : forallb keeps_modes suf = true).
  { unfold suf. by rewrite forallb_app, loop_ops_keep_modes. }
  rewrite E, run_ok_app.
  destruct (run_ok_modes suf (run_ok pre w) Hsuf) as (-> & -> & _).
  split; reflexivity.
Qed.

Section Prefix.

Variable fault : list event → op → bool.

Ltac step_cases :=
  repeat (match goal with
          | |- context [fault ?t ?o] => destruct (fault t o)
          end; [reflexivity|]).

(** Calibration is a list of calls, made up to the first that raises. *)
Lemma calibrate_exec i0 isos s0 shutters w :
  calibrate fault (i0 :: isos) (s0 :: shutters) w =
  match exec fault (calibration_ops i0 s0 (awb_gains (device w)) ++
                    [OPrint ("Gains fixed to: " +:+ str_gains (awb_gains (device w)))]) w
  with
  | (Ok _, w') => (Ok (awb_gains (device w)), w')
  | (Raise e, w') => (Raise e, w')
  end.
Proof.
  unfold calibrate, get_awb_gains, getitem, calibration_ops. simpl exec. simpl lookup.
  unfold step, mbind, M_bind, mret, M_ret, gets.
  cbv beta iota zeta delta [set_device log effect trace device fsys awb_gains
                            exposure_mode awb_mode].
  step_cases. reflexivity.
Qed.

(** So is the writing of the settings file, between the opening of the
    file and its release. *)
Lemma write_params_exec isos shutters path g w :
  write_params fault isos shutters path g w =
  (step fault (OOpenFile (path_join path "params.txt"));;
   try_finally
     (exec fault (params_body_ops (path_join path "params.txt")
                    (exposure_mode (device w)) (awb_mode (device w)) g isos shutters))
     (release (OCloseFile (path_join path "params.txt")))) w.
Proof.
  unfold write_params, with_open, get_exposure_mode, get_awb_mode, params_body_ops,
    try_finally.
  simpl exec. unfold step, release, mbind, M_bind, mret, M_ret, gets.
  cbv beta iota zeta delta [set_device set_fsys log effect trace device fsys awb_gains
                            exposure_mode awb_mode].
  step_cases. reflexivity.
Qed.

Lemma exec_one o w : exec fault [o] w = step fault o w.
Proof.
  simpl. unfold mbind, M_bind, mret, M_ret.
  by destruct (step fault o w) as [[[]|e] w'].
Qed.

Lemma camera_block_exec nm path i0 isos s0 shutters w :
  camera_block fault (i0 :: isos) (s0 :: shutters) nm path w =
  (exec fault (capture_block_ops nm path (awb_gains (device w))
                 (i0 :: isos) (s0 :: shutters));;
   write_params fault (i0 :: isos) (s0 :: shutters) path (awb_gains (device w));;
   step fault (OPrint "Done.")) w.
Proof.
  unfold camera_block, capture_block_ops, capture_loop.
  unfold mbind, M_bind.
  rewrite (exec_app fault [OStartPreview (410, 313) false (100, 100, 820, 616)]).
  unfold mbind, M_bind. rewrite exec_one.
  destruct (step fault _ w) as [[[]|e] w2] eqn:E2; [|done].
  apply step_ok in E2.
  assert (Hg : awb_gains (device w2) = awb_gains (device w)) by (by subst).
  rewrite calibrate_exec, Hg. simpl hd.
  set (g := awb_gains (device w)).
  rewrite (exec_app fault (calibration_ops i0 s0 g ++
                           [OPrint ("Gains fixed to: " +:+ str_gains g)])).
  unfold mbind, M_bind.
  destruct (exec fault (calibration_ops i0 s0 g ++ _) w2) as [[[]|e] w3]; [|done].
  rewrite (exec_app fault (loop_ops nm path
                             (enumerate (product (i0 :: isos) (s0 :: shutters))))).
  unfold mbind, M_bind. rewrite for_each_exec.
  destruct (exec fault (loop_ops _ _ _) w3) as [[[]|e] w4]; [|done].
  rewrite exec_one.
  by destruct (step fault OStopPreview w4) as [[[]|e] w5].
Qed.

(** The calls of an undisturbed session, block by block. *)
Lemma session_ops_blocks nm path g isos shutters :
  session_ops nm path g isos shutters =
  [OPrint (taking_line isos shutters); OOpenCamera fr res] ++
  capture_block_ops nm path g isos shutters ++
  [OOpenFile (path_join path "params.txt")] ++
  params_body_ops (path_join path "params.txt") "off" "off" g isos shutters ++
  [OCloseFile (path_join path "params.txt")] ++
  [OPrint "Done."] ++ [OCloseCamera].
Proof.
  unfold session_ops, block_ops, capture_block_ops, params_ops, params_body_ops.
  by rewrite <- !app_assoc.
Qed.

(** Where a session can stop once its folder exists and both ranges have
    a first value: it runs to its end, or it stops at the first call that
    raises, with the error of that call, after the releases that were
    pending. *)
Lemma main_cases argv now i0 isos s0 shutters w x w1 :
  session_init fault argv now w = (Ok x, w1) →
  main fault argv now (i0 :: isos) (s0 :: shutters) w =
    (Ok tt, run_ok (session_ops (base_name argv) (session_path now) (awb_gains (device w))
                      (i0 :: isos) (s0 :: shutters)) w1) ∨
  ∃ a o b,
    session_ops (base_name argv) (session_path now) (awb_gains (device w))
      (i0 :: isos) (s0 :: shutters) = a ++ o :: b ∧
    main fault argv now (i0 :: isos) (s0 :: shutters) w =
      (Raise (exn_of o), run_ok (held a []) (log (Failed o) (run_ok a w1))).
Proof.
  intros Hi.
  destruct (session_init_cases fault argv now w)
    as (r0 & w0 & E0 & Hd & _ & [(-> & _)|(e & -> & _)]);
    rewrite Hi in E0; [|discriminate]. injection E0 as -> <-.
  rewrite main_eq, Hi, session_ops_blocks.
  set (nm := base_name argv). set (path := session_path now).
  set (g := awb_gains (device w)). set (f := path_join path "params.txt").
  set (I := i0 :: isos). set (S := s0 :: shutters).
  set (p1 := OPrint (taking_line I S)).
  destruct (step fault p1 w1) as [[[]|e] w2] eqn:E2.
  2:{ apply step_raise in E2 as [-> ->]. right. by eexists [], p1, _. }
  apply step_ok in E2.
  destruct (step fault (OOpenCamera fr res) w2) as [[[]|e] w3] eqn:E3.
  2:{ apply step_raise in E3 as [-> ->]. right. eexists [p1], (OOpenCamera fr res), _.
      split; [reflexivity|]. by subst w2. }
  apply step_ok in E3.
  assert (E13 : w3 = run_ok [p1; OOpenCamera fr res] w1) by (by subst).
  assert (Hg : awb_gains (device w3) = g).
  { subst w3 w2. unfold g. by rewrite <- Hd. }
  clear E2 E3.
  unfold I, S. rewrite camera_block_exec, Hg. fold I S.
  set (B := capture_block_ops nm path g I S).
  set (P := params_body_ops f "off" "off" g I S).
  pose proof (capture_block_ops_plain nm path g I S) as HB. fold B in HB.
  assert (HP : forallb (λ o, negb (is_with_op o)) P = true) by reflexivity.
  unfold mbind, M_bind.
  destruct (exec_cases fault B w3) as [E|(pre & o & post & Eq & E)]; rewrite E.
  2:{ right. exists ([p1; OOpenCamera fr res] ++ pre), o,
        (post ++ [OOpenFile f] ++ P ++ [OCloseFile f] ++ [OPrint "Done."] ++ [OCloseCamera]).
      split; [by rewrite Eq, <- !app_assoc|].
      rewrite held_app, (held_plain pre) by (eapply forallb_prefix; [exact HB|exact Eq]).
      by rewrite run_ok_app, <- E13. }
  destruct (capture_block_ops_modes nm path g I S w3) as [Hem Ham]. fold B in Hem, Ham.
  rewrite write_params_exec, Hem, Ham. fold f P.
  unfold mbind, M_bind, try_finally.
  set (w4 := run_ok B w3).
  assert (E14 : w4 = run_ok ([p1; OOpenCamera fr res] ++ B) w1)
    by (by rewrite run_ok_app, <- E13).
  destruct (step fault (OOpenFile f) w4) as [[[]|e] w5] eqn:E5.
  2:{ apply step_raise in E5 as [-> ->]. right.
      exists ([p1; OOpenCamera fr res] ++ B), (OOpenFile f),
        (P ++ [OCloseFile f] ++ [OPrint "Done."] ++ [OCloseCamera]).
      split; [by rewrite <- !app_assoc|].
      rewrite held_app, (held_plain B) by done.
      by rewrite <- E14. }
  apply step_ok in E5.
  assert (E15 : w5 = run_ok ([p1; OOpenCamera fr res] ++ B ++ [OOpenFile f]) w1).
  { by rewrite E5, E14, app_assoc, (run_ok_app _ [OOpenFile f]). }
  clear E5.
  destruct (exec_cases fault P w5) as [E'|(pre & o & post & Eq & E')]; rewrite E'.
  2:{ right. exists ([p1; OOpenCamera fr res] ++ B ++ [OOpenFile f] ++ pre), o,
        (post ++ [OCloseFile f] ++ [OPrint "Done."] ++ [OCloseCamera]).
      split; [by rewrite Eq, <- !app_assoc|].
      rewrite !held_app, (held_plain B) by done.
      rewrite (held_plain pre) by (eapply forallb_prefix; [exact HP|exact Eq]).
      rewrite !app_assoc, (run_ok_app _ pre), <- !app_assoc, <- E15.
      reflexivity. }
  set (w6 := release (OCloseFile f) (run_ok P w5)).
  assert (E16 : w6 = run_ok ([p1; OOpenCamera fr res] ++ B ++ [OOpenFile f] ++ P ++
                             [OCloseFile f]) w1).
  { unfold w6. rewrite E15.
    replace ([p1; OOpenCamera fr res] ++ B ++ [OOpenFile f] ++ P ++ [OCloseFile f])
      with ((([p1; OOpenCamera fr res] ++ B ++ [OOpenFile f]) ++ P) ++ [OCloseFile f])
      by (by rewrite <- !app_assoc).
    by rewrite (run_ok_app _ [OCloseFile f]), (run_ok_app _ P). }
  clearbody w6.
  destruct (step fault (OPrint "Done.") w6) as [[[]|e] w7] eqn:E7.
  2:{ apply step_raise in E7 as [-> ->]. right.
      exists ([p1; OOpenCamera fr res] ++ B ++ [OOpenFile f] ++ P ++ [OCloseFile f]),
        (OPrint "Done."), [OCloseCamera].
      split; [by rewrite <- !app_assoc|].
      rewrite !held_app, (held_plain B), (held_plain P) by done.
      by rewrite <- E16. }
  apply step_ok in E7. left. rewrite E7, E16. unfold release.
  change (effect OCloseCamera (log (Done OCloseCamera) ?w)) with (run_ok [OCloseCamera] w).
  change (run_ok [OPrint "Done."] ?w) with (run_ok [OPrint "Done."] w).
  rewrite <- !run_ok_app. by rewrite <- !app_assoc.
Qed.

(** Where a session stops when one of the ranges is empty: at the look-up
    of the first value that is missing, unless a call raises before. *)
Lemma main_empty_cases argv now isos shutters w x w1 :
  session_init fault argv now w = (Ok x, w1) →
  isos = [] ∨ shutters = [] →
  main fault argv now isos shutters w =
    (Raise IndexError, run_ok [OCloseCamera] (run_ok (empty_range_ops isos shutters) w1)) ∨
  ∃ a o b,
    empty_range_ops isos shutters = a ++ o :: b ∧
    main fault argv now isos shutters w =
      (Raise (exn_of o), run_ok (held a []) (log (Failed o) (run_ok a w1))).
Proof.
  intros Hi He.
  destruct (session_init_cases fault argv now w)
    as (r0 & w0 & E0 & Hd & _ & [(-> & _)|(e & -> & _)]);
    rewrite Hi in E0; [|discriminate]. injection E0 as -> <-.
  rewrite main_eq, Hi. unfold empty_range_ops.
  set (p1 := OPrint (taking_line isos shutters)).
  set (p3 := OStartPreview (410, 313) false (100, 100, 820, 616)).
  destruct (step fault p1 w1) as [[[]|e] w2] eqn:E2.
  2:{ apply step_raise in E2 as [-> ->]. right. by eexists [], p1, _. }
  apply step_ok in E2.
  destruct (step fault (OOpenCamera fr res) w2) as [[[]|e] w3] eqn:E3.
  2:{ apply step_raise in E3 as [-> ->]. right. eexists [p1], (OOpenCamera fr res), _.
      split; [reflexivity|]. by subst w2. }
  apply step_ok in E3.
  unfold camera_block, mbind, M_bind. fold p3.
  destruct (step fault p3 w3) as [[[]|e] w4] eqn:E4.
  2:{ apply step_raise in E4 as [-> ->]. right.
      eexists [p1; OOpenCamera fr res], p3, _.
      split; [reflexivity|]. by subst w3 w2. }
  apply step_ok in E4.
  destruct isos as [|i0 isos].
  { left. by subst w4 w3 w2. }
  destruct He as [? | ->]; [done|].
  unfold calibrate, mbind, M_bind.
  change (getitem (i0 :: isos) 0 w4) with (@Ok Z i0, w4). cbv beta iota.
  destruct (step fault (OSetIso i0) w4) as [[[]|e] w5] eqn:E5.
  2:{ apply step_raise in E5 as [-> ->]. right.
      eexists [p1; OOpenCamera fr res; p3], (OSetIso i0), _.
      split; [reflexivity|]. by subst w4 w3 w2. }
  apply step_ok in E5.
  destruct (step fault (OSleep 2) w5) as [[[]|e] w6] eqn:E6.
  2:{ apply step_raise in E6 as [-> ->]. right.
      eexists [p1; OOpenCamera fr res; p3; OSetIso i0], (OSleep 2), _.
      split; [reflexivity|]. by subst w5 w4 w3 w2. }
  apply step_ok in E6.
  change (getitem [] 0 w6) with (@Raise Z IndexError, w6). cbv beta iota.
  left. by subst w6 w5 w4 w3 w2.
Qed.

End Prefix.

Lemma app_split_right {A} (Q : A → bool) X Y a o b :
  X ++ Y = a ++ o :: b → forallb (λ x, negb (Q x)) X = true → Q o = true →
  ∃ a', a = X ++ a' ∧ Y = a' ++ o :: b.
Proof.
  revert a. induction X as [|x X IH]; intros a E HX Ho; [by exists a|].
  simpl in HX. apply andb_true_iff in HX as [Hx HX].
  destruct a as [|y a]; simpl in E; injection E as -> E.
  - by rewrite Ho in Hx.
  - destruct (IH a E HX Ho) as (a' & -> & ->). by exists a'.
Qed.

Lemma app_split_left {A} (Q : A → bool) X Y a o b :
  X ++ Y = a ++ o :: b → forallb (λ x, negb (Q x)) Y = true → Q o = true →
  ∃ b', X = a ++ o :: b' ∧ b = b' ++ Y.
Proof.
  revert a. induction X as [|x X IH]; intros a E HY Ho.
  - simpl in E. subst Y. rewrite forallb_app in HY. simpl in HY.
    rewrite Ho in HY. simpl in HY. by rewrite andb_false_r in HY.
  - destruct a as [|y a]; simpl in E; injection E as -> E.
    + by exists X.
    + destruct (IH a E HY Ho) as (b' & -> & ->). by exists b'.
Qed.
(** ** The shape of every run *)

Lemma held_only (P : op → bool) a acc :
  P OCloseCamera = true → (∀ f, In (OOpenFile f) a → P (OCloseFile f) = true) →
  forallb P acc = true → forallb P (held a acc) = true.
Proof.
  intros Hc. revert acc. induction a as [|o a IH]; intros acc Hf Hacc; [done|].
  assert (Hf' : ∀ f, In (OOpenFile f) a → P (OCloseFile f) = true).
  { intros f Hin. apply Hf. by right. }
  assert (Htl : forallb P (tl acc) = true).
  { destruct acc as [|x acc]; [done|]. simpl in Hacc. by apply andb_true_iff in Hacc as [_ ?]. }
  destruct o; simpl; try (by apply IH).
  - apply IH; [done|]. simpl. by rewrite Hc.
  - apply IH; [done|]. simpl. rewrite Hacc, andb_true_r. apply Hf. by left.
Qed.

Lemma forallb_In {A} (P : A → bool) l x : forallb P l = true → In x l → P x = true.
Proof. intros H Hx. by apply (proj1 (forallb_forall P l) H). Qed.

(** The releases pending after calls among which no file is opened. *)
Lemma held_only_no_file (P : op → bool) a :
  P OCloseCamera = true → forallb (λ o, negb (is_file_op o)) a = true →
  forallb P (held a []) = true.
Proof.
  intros Hc Ha. apply held_only; [done| |done].
  intros f Hin. by apply (forallb_In _ _ _ Ha) in Hin.
Qed.

Section Shape.

Variable fault : list event → op → bool.

Lemma main_init_fails argv now isos shutters w e w1 :
  session_init fault argv now w = (Raise e, w1) →
  main fault argv now isos shutters w = (Raise e, w1).
Proof. intros Hi. by rewrite main_eq, Hi. Qed.

(** Every run of the script: it stops before the calibration is under
    way, or it has created its folder and then follows the undisturbed
    sequence of calls up to its end or up to the first call that raises. *)
Lemma main_shape argv now isos shutters w r w' evs :
  main fault argv now isos shutters w = (r, w') →
  trace w' = trace w ++ evs →
  ((∃ e, r = Raise e) ∧ only is_early_op evs ∧ (isos ≠ [] → shutters ≠ [] → only is_mkdir evs)) ∨
  ∃ w1 init_evs,
    session_init fault argv now w = (Ok (base_name argv, session_path now), w1) ∧
    only is_mkdir init_evs ∧ isos ≠ [] ∧ shutters ≠ [] ∧
    ((r = Ok tt ∧
      w' = run_ok (session_ops (base_name argv) (session_path now)
                     (awb_gains (device w)) isos shutters) w1 ∧
      evs = init_evs ++
            map Done (session_ops (base_name argv) (session_path now)
                        (awb_gains (device w)) isos shutters)) ∨
     ∃ a o b,
       session_ops (base_name argv) (session_path now) (awb_gains (device w))
         isos shutters = a ++ o :: b ∧
       r = Raise (exn_of o) ∧
       w' = run_ok (held a []) (log (Failed o) (run_ok a w1)) ∧
       evs = init_evs ++ map Done a ++ [Failed o] ++ map Done (held a [])).
Proof.
  intros Hm Ht.
  destruct (session_init_emits fault argv now w) as (init_evs & Ht0 & Ho0).
  destruct (session_init_cases fault argv now w)
    as (r0 & w1 & Hi & _ & _ & [(-> & _)|(e & -> & _)]); rewrite Hi in Ht0; simpl in Ht0.
  2:{ left. rewrite (main_init_fails _ _ _ _ _ _ _ Hi) in Hm. injection Hm as <- <-.
      rewrite Ht0 in Ht. apply app_inv_head in Ht as <-.
      split; [eauto|]. split; [|done]. eapply only_weaken; [|exact Ho0]. by intros []. }
  assert (Hearly : only is_early_op init_evs).
  { eapply only_weaken; [|exact Ho0]. by intros []. }
  assert (Hempty : isos = [] ∨ shutters = [] →
            (∃ e, r = Raise e) ∧ only is_early_op evs ∧
            (isos ≠ [] → shutters ≠ [] → only is_mkdir evs)).
  { intros He.
    assert (Hops : forallb is_early_op (empty_range_ops isos shutters) = true)
      by (by destruct isos).
    assert (Hnf : forallb (λ o, negb (is_file_op o)) (empty_range_ops isos shutters) = true)
      by (by destruct isos).
    destruct (main_empty_cases fault argv now isos shutters w _ w1 Hi He) as [E|(a & o & b & Eq & E)];
      rewrite E in Hm; apply pair_equal_spec in Hm as [<- <-].
    - rewrite !trace_run_ok, Ht0, <- !app_assoc in Ht. apply app_inv_head in Ht as <-.
      split; [eauto|]. split; [|by destruct He; intros ? ?].
      apply only_app; [done|]. apply only_app; by apply only_map_done.
    - rewrite trace_run_ok, trace_log, trace_run_ok, Ht0, <- !app_assoc in Ht.
      apply app_inv_head in Ht as <-.
      split; [eauto|]. split; [|by destruct He; intros ? ?].
      rewrite Eq, forallb_app in Hops, Hnf. simpl in Hops, Hnf.
      apply andb_true_iff in Hops as [Ha [Ho _]%andb_true_iff].
      apply andb_true_iff in Hnf as [Hna _].
      apply only_app; [done|]. apply only_app; [by apply only_map_done|].
      apply only_app; [by repeat constructor|].
      apply only_map_done. by apply held_only_no_file. }
  destruct isos as [|i0 isos]; [left; apply Hempty; by left|].
  destruct shutters as [|s0 shutters]; [left; apply Hempty; by right|].
  clear Hempty. right. exists w1, init_evs. do 4 (split; [done|]).
  destruct (main_cases fault argv now i0 isos s0 shutters w _ w1 Hi) as [E|(a & o & b & Eq & E)];
    rewrite E in Hm; apply pair_equal_spec in Hm as [<- <-].
  - left. do 2 (split; [done|]).
    rewrite trace_run_ok, Ht0, <- !app_assoc in Ht. by apply app_inv_head in Ht.
  - right. exists a, o, b. do 3 (split; [done|]).
    rewrite trace_run_ok, trace_log, trace_run_ok, Ht0, <- !app_assoc in Ht.
    by apply app_inv_head in Ht.
Qed.

End Shape.

(** ** Where a run can stop *)

Lemma app_split {A} (X Y a : list A) o b :
  X ++ Y = a ++ o :: b →
  (∃ b', X = a ++ o :: b' ∧ b = b' ++ Y) ∨ (∃ a', a = X ++ a' ∧ Y = a' ++ o :: b).
Proof.
  revert a. induction X as [|x X IH]; intros a E.
  - right. by exists a.
  - destruct a as [|y a]; simpl in E; injection E as -> E.
    + left. by exists X.
    + destruct (IH a E) as [(b' & -> & ->)|(a' & -> & ->)];
        [left; by exists b' | right; by exists a'].
Qed.

(** A call of a session is made before the loop, in it, or after it. *)
Lemma session_ops_where nm path g isos shutters a o b :
  session_ops nm path g isos shutters = a ++ o :: b →
  (∃ b', before_loop_ops g isos shutters = a ++ o :: b') ∨
  (∃ a' b', a = before_loop_ops g isos shutters ++ a' ∧
            loop_ops nm path (enumerate (product isos shutters)) = a' ++ o :: b') ∨
  (∃ a', a = before_loop_ops g isos shutters ++
             loop_ops nm path (enumerate (product isos shutters)) ++ a' ∧
         after_loop_ops path g isos shutters = a' ++ o :: b).
Proof.
  rewrite session_ops_split. intros E.
  apply app_split in E as [(b' & E & _)|(a1 & -> & E)]; [left; by exists b'|].
  right. apply app_split in E as [(b' & E & _)|(a2 & -> & E)].
  - left. by exists a1, b'.
  - right. by exists a2.
Qed.

(** Reading a split of a list that is written out. *)
Ltac split_list E a :=
  repeat (destruct a as [|? a]; simpl in E;
          [injection E as <- <- | injection E as <- E]);
  try (by destruct a).


(** The events of a run that stops at the call [o] after the calls [a]
    are all in a class that holds these calls and the releases. *)
Lemma only_stopped_run (P : op → bool) a o :
  forallb P a = true → P o = true → P OCloseCamera = true →
  (∀ f, P (OCloseFile f) = true) →
  only P (map Done a ++ [Failed o] ++ map Done (held a [])).
Proof.
  intros Ha Ho Hc Hf. apply only_app; [by apply only_map_done|].
  apply only_app; [by repeat constructor|].
  apply only_map_done. apply held_only; auto.
Qed.

Lemma forallb_middle {A} (P : A → bool) l a x b :
  forallb P l = true → l = a ++ x :: b → P x = true.
Proof.
  intros H ->. rewrite forallb_app in H. simpl in H.
  by apply andb_true_iff in H as [_ [? _]%andb_true_iff].
Qed.


(** ** Empty ranges *)

(** X2: a session whose range of sensitivities or of exposure times is
    empty announces 0 pictures and never ends normally. Once its folder
    exists it prints the line, opens the camera, starts the preview (and,
    when only the exposure times are missing, sets the first sensitivity
    and sleeps); then the look-up of the first value raises [IndexError]
    and the camera is released, unless one of these calls raised before.
    Nothing is written: the file system stays as the creation of the
    folder left it. *)
Theorem empty_range_raises_index_error fault argv now isos shutters w x w1 r w' :
  isos = [] ∨ shutters = [] →
  session_init fault argv now w = (Ok x, w1) →
  main fault argv now isos shutters w = (r, w') →
  taking_line isos shutters = "Taking 0 pictures." ∧
  fsys w' = fsys w1 ∧
  ((r = Raise IndexError ∧
    trace w' = trace w1 ++ map Done (empty_range_ops isos shutters) ++ [Done OCloseCamera]) ∨
   ∃ a o b,
     empty_range_ops isos shutters = a ++ o :: b ∧ r = Raise (exn_of o) ∧
     trace w' = trace w1 ++ map Done a ++ [Failed o] ++ map Done (held a [])).
Proof.
  intros He Hi Hm. split.
  { unfold taking_line. destruct He as [-> | ->]; [done|].
    by rewrite Nat.mul_0_r. }
  assert (Hk : forallb keeps_fsys (empty_range_ops isos shutters) = true)
    by (by destruct isos).
  destruct (main_empty_cases fault argv now isos shutters w x w1 Hi He)
    as [E|(a & o & b & Eq & E)]; rewrite E in Hm; apply pair_equal_spec in Hm as [<- <-].
  - split.
    + by rewrite (run_ok_keeps_fsys [OCloseCamera]), run_ok_keeps_fsys.
    + left. split; [done|]. by rewrite !trace_run_ok, <- app_assoc.
  - split.
    + rewrite run_ok_keeps_fsys.
      * change (fsys (log (Failed o) (run_ok a w1))) with (fsys (run_ok a w1)).
        apply run_ok_keeps_fsys. by eapply forallb_prefix.
      * apply held_only; auto.
    + right. exists a, o, b. do 2 (split; [done|]).
      by rewrite trace_run_ok, trace_log, trace_run_ok, <- !app_assoc.
Qed.

Lemma empty_range_raises_index_error_witness :
  ([100] = [] ∨ @nil Z = []) ∧
  session_init no_fault ["capture.py"] noon (fresh_world gains0) =
    (Ok ("raw", "capture/2019-07-04-12-00-00"), after_init) ∧
  empty_shutter_session = (Raise IndexError, empty_shutter_session.2) ∧
  taking_line [100] [] = "Taking 0 pictures." ∧
  fsys empty_shutter_session.2 = fsys after_init ∧
  ((@Raise unit IndexError = Raise IndexError ∧
    trace empty_shutter_session.2 =
      trace after_init ++ map Done (empty_range_ops [100] []) ++ [Done OCloseCamera]) ∨
   ∃ a o b,
     empty_range_ops [100] [] = a ++ o :: b ∧ @Raise unit IndexError = Raise (exn_of o) ∧
     trace empty_shutter_session.2 =
       trace after_init ++ map Done a ++ [Failed o] ++ map Done (held a [])).
Proof.
  assert (He : [100] = [] ∨ @nil Z = []) by (right; reflexivity).
  assert (Hi : session_init no_fault ["capture.py"] noon (fresh_world gains0) =
    (Ok ("raw", "capture/2019-07-04-12-00-00"), after_init)) by (vm_compute; reflexivity).
  assert (E : empty_shutter_session = (Raise IndexError, empty_shutter_session.2))
    by (vm_compute; reflexivity).
  split; [exact He|]. split; [exact Hi|]. split; [exact E|].
  exact (empty_range_raises_index_error no_fault ["capture.py"] noon [100] []
           (fresh_world gains0) _ _ _ _ He Hi E).
Defined.

(** ** Captures and the end of the loop *)

Lemma elem_of_map_done ev a : ev ∈ map Done a → ∃ o, ev = Done o.
Proof.
  induction a as [|x a IH]; simpl; [by intros ?%elem_of_nil|].
  intros [->|H]%elem_of_cons; eauto.
Qed.

Lemma only_elem P t ev : only P t → ev ∈ t → P (op_of ev) = true.
Proof. intros H. by apply (proj1 (Forall_forall _ _) H). Qed.

Lemma loop_ops_no_stop nm path its :
  forallb (λ o, negb (is_stop_preview o)) (loop_ops nm path its) = true.
Proof. induction its as [|it its IH]; [done|]. simpl. exact IH. Qed.

Lemma loop_ops_no_params nm path its :
  forallb (λ o, negb (in_params_block o)) (loop_ops nm path its) = true.
Proof. induction its as [|it its IH]; [done|]. simpl. exact IH. Qed.

Lemma loop_ops_no_done_line nm path its :
  forallb (λ o, negb (is_done_line o)) (loop_ops nm path its) = true.
Proof. induction its as [|it its IH]; [done|]. simpl. exact IH. Qed.

(** The capture calls of an undisturbed session. *)
Lemma captures_session init_evs nm path g isos shutters :
  only is_mkdir init_evs →
  events_of is_capture (init_evs ++ map Done (session_ops nm path g isos shutters)) =
  capture_events nm path (product isos shutters).
Proof.
  intros Hi.
  assert (E : map Done (session_ops nm path g isos shutters) =
              map Done (before_loop_ops g isos shutters) ++
              map Done (loop_ops nm path (enumerate (product isos shutters))) ++
              map Done (after_loop_ops path g isos shutters)).
  { by rewrite session_ops_split, !map_app. }
  rewrite E, !events_of_app, captures_loop_pairs, enumerate_snd.
  rewrite (events_of_only_false is_capture init_evs).
  2:{ eapply only_weaken; [|exact Hi]. by intros []. }
  change (events_of is_capture (map Done (before_loop_ops g isos shutters)))
    with (@nil event).
  change (events_of is_capture (map Done (after_loop_ops path g isos shutters)))
    with (@nil event).
  by rewrite app_nil_r.
Qed.

(** The capture calls of a session that stops after its loop. *)
Lemma captures_past_loop init_evs nm path g isos shutters a' o b :
  only is_mkdir init_evs →
  after_loop_ops path g isos shutters = a' ++ o :: b →
  events_of is_capture
    (init_evs ++
     map Done (before_loop_ops g isos shutters ++
               loop_ops nm path (enumerate (product isos shutters)) ++ a') ++
     [Failed o] ++
     map Done (held (before_loop_ops g isos shutters ++
                     loop_ops nm path (enumerate (product isos shutters)) ++ a') [])) =
  capture_events nm path (product isos shutters).
Proof.
  intros Hi Eq.
  assert (Hafter : forallb not_capture (after_loop_ops path g isos shutters) = true)
    by reflexivity.
  rewrite !map_app, !events_of_app, captures_loop_pairs, enumerate_snd.
  rewrite (events_of_only_false is_capture init_evs).
  2:{ eapply only_weaken; [|exact Hi]. by intros []. }
  change (events_of is_capture (map Done (before_loop_ops g isos shutters)))
    with (@nil event).
  rewrite (events_of_only_false is_capture (map Done a')).
  2:{ apply only_map_done. eapply forallb_prefix; [exact Hafter|exact Eq]. }
  rewrite (events_of_only_false is_capture [Failed o]).
  2:{ repeat constructor. exact (forallb_middle _ _ _ _ _ Hafter Eq). }
  rewrite (events_of_only_false is_capture (map Done (held _ []))).
  2:{ apply only_map_done. apply (held_only not_capture); auto. }
  by rewrite !app_nil_r.
Qed.

(** X3: the preview is stopped only after the last capture. In every run
    in which [stop_preview] is called, be it that the call returns or
    raises, the capture calls made are those of all the pairs of the
    product, in order, and each of them returned. A session that fails
    earlier never stops the preview itself. *)
Theorem preview_stopped_only_after_last_capture fault argv now isos shutters w r w' evs ev :
  main fault argv now isos shutters w = (r, w') →
  trace w' = trace w ++ evs →
  ev ∈ evs → op_of ev = OStopPreview →
  events_of is_capture evs =
    capture_events (base_name argv) (session_path now) (product isos shutters).
Proof.
  intros Hm Ht Hin Hop.
  destruct (main_shape fault argv now isos shutters w r w' evs Hm Ht)
    as [(_ & Hearly & _)|(w1 & init_evs & Hi & Ho & HI & HS &
          [(-> & -> & ->)|(a & o & b & Eq & -> & -> & ->)])].
  - apply (only_elem _ _ _ Hearly) in Hin. by rewrite Hop in Hin.
  - by apply captures_session.
  - set (Q := λ o : op, negb (is_stop_preview o)).
    assert (Hno : ∀ a0 o0, forallb Q a0 = true → Q o0 = true →
              ¬ ev ∈ init_evs ++ map Done a0 ++ [Failed o0] ++ map Done (held a0 [])).
    { intros a0 o0 Ha0 Ho0 Hev.
      assert (H : only Q (init_evs ++ map Done a0 ++ [Failed o0] ++ map Done (held a0 []))).
      { apply only_app; [eapply only_weaken; [|exact Ho]; by intros []|].
        by apply only_stopped_run. }
      apply (only_elem _ _ _ H) in Hev. unfold Q in Hev. by rewrite Hop in Hev. }
    apply session_ops_where in Eq as [(b' & E)|[(a' & b' & -> & E)|(a' & -> & E)]].
    + exfalso. apply (Hno a o); [| |done].
      * exact (forallb_prefix Q (before_loop_ops _ _ _) _ _ _ eq_refl E).
      * exact (forallb_middle Q (before_loop_ops _ _ _) _ _ _ eq_refl E).
    + exfalso. apply (Hno (before_loop_ops (awb_gains (device w)) isos shutters ++ a') o);
        [| |done].
      * rewrite forallb_app. apply andb_true_iff. split; [reflexivity|].
        eapply forallb_prefix; [apply loop_ops_no_stop|exact E].
      * eapply forallb_middle; [apply loop_ops_no_stop|exact E].
    + by eapply captures_past_loop.
Qed.

Lemma preview_stopped_only_after_last_capture_witness :
  failing_manifest_session =
    (Raise OSError, failing_manifest_session.2) ∧
  Done OStopPreview ∈ trace failing_manifest_session.2 ∧
  events_of is_capture (trace failing_manifest_session.2) =
    capture_events (base_name ["capture.py"]) (session_path noon) (product [100] [1000; 2500]).
Proof.
  assert (E : failing_manifest_session = (Raise OSError, failing_manifest_session.2))
    by (vm_compute; reflexivity).
  assert (Hin : Done OStopPreview ∈ trace failing_manifest_session.2).
  { apply (list_elem_of_lookup_2 _ 23%nat). vm_compute. reflexivity. }
  split; [exact E|]. split; [exact Hin|].
  exact (preview_stopped_only_after_last_capture fail_gains_line ["capture.py"] noon [100]
           [1000; 2500] (fresh_world gains0) _ _ _ _ E eq_refl Hin eq_refl).
Defined.
(** ** The settings that are locked *)

Lemma captured_modes_none cur t : only not_capture t → captured_modes cur t = [].
Proof.
  intros H. revert cur. induction H as [|ev t H _ IH]; intros cur; [done|].
  destruct ev as [o|o]; [|apply IH]. destruct o; simpl; try apply IH. discriminate.
Qed.

Lemma captured_modes_skip cur t1 t2 :
  only is_mkdir t1 → captured_modes cur (t1 ++ t2) = captured_modes cur t2.
Proof.
  induction 1 as [|ev t1 H _ IH]; [done|]. simpl.
  destruct ev as [o|o]; [|done]. by destruct o.
Qed.

(** Calls that keep the modes leave every capture with the modes that
    were in force before them. *)
Lemma captured_modes_locked cur t m :
  only keeps_modes t → m ∈ captured_modes cur t → m = cur.
Proof.
  induction 1 as [|ev t H _ IH]; simpl; [by intros ?%elem_of_nil|].
  destruct ev as [o|o]; [|done].
  destruct o; try discriminate; try done.
  intros [->|Hm]%elem_of_cons; auto.
Qed.

(** X4: every picture is taken with the settings calibration locked. In
    every run, also one that fails, and whatever the modes of the camera
    were before, each capture that returns is made with the exposure mode
    off, the white-balance mode off and the gains the camera reported when
    the script read them. *)
Theorem captures_use_locked_settings fault argv now isos shutters w r w' evs cur m :
  main fault argv now isos shutters w = (r, w') →
  trace w' = trace w ++ evs →
  m ∈ captured_modes cur evs →
  m = ("off", "off", awb_gains (device w)).
Proof.
  intros Hm Ht.
  set (g := awb_gains (device w)).
  assert (Hrest : forallb keeps_modes
            (loop_ops (base_name argv) (session_path now)
               (enumerate (product isos shutters)) ++
             after_loop_ops (session_path now) g isos shutters) = true).
  { by rewrite forallb_app, loop_ops_keep_modes. }
  destruct (main_shape fault argv now isos shutters w r w' evs Hm Ht)
    as [(_ & Hearly & _)|(w1 & init_evs & Hi & Ho & HI & HS &
          [(-> & -> & ->)|(a & o & b & Eq & -> & -> & ->)])].
  - rewrite captured_modes_none; [by intros ?%elem_of_nil|].
    eapply only_weaken; [|exact Hearly]. by intros [].
  - fold g. rewrite captured_modes_skip, session_ops_split, map_app by done.
    change (captured_modes cur (map Done (before_loop_ops g isos shutters) ++ ?t))
      with (captured_modes ("off", "off", g) t).
    apply captured_modes_locked. by apply only_map_done.
  - fold g in Eq. rewrite session_ops_split in Eq.
    apply app_split in Eq as [(b' & E & _)|(a' & -> & E)].
    + rewrite captured_modes_none; [by intros ?%elem_of_nil|].
      apply only_app; [eapply only_weaken; [|exact Ho]; by intros []|].
      apply only_stopped_run; auto.
      * exact (forallb_prefix not_capture (before_loop_ops _ _ _) _ _ _ eq_refl E).
      * exact (forallb_middle not_capture (before_loop_ops _ _ _) _ _ _ eq_refl E).
    + rewrite captured_modes_skip, map_app, <- app_assoc by done.
      change (captured_modes cur (map Done (before_loop_ops g isos shutters) ++ ?t))
        with (captured_modes ("off", "off", g) t).
      apply captured_modes_locked.
      apply only_app; [apply only_map_done; by eapply forallb_prefix|].
      apply only_app; [repeat constructor; by eapply forallb_middle|].
      apply only_map_done. apply (held_only keeps_modes); auto.
Qed.

Lemma captures_use_locked_settings_witness :
  failing_session = (Raise PiCameraError, failing_session.2) ∧
  ("off", "off", gains0) ∈ captured_modes ("auto", "sunlight", gains0) (trace failing_session.2) ∧
  ("off", "off", gains0) = ("off", "off", awb_gains (device (fresh_world gains0))).
Proof.
  assert (E : failing_session = (Raise PiCameraError, failing_session.2))
    by (vm_compute; reflexivity).
  assert (Hin : ("off", "off", gains0) ∈
                captured_modes ("auto", "sunlight", gains0) (trace failing_session.2)).
  { apply (list_elem_of_lookup_2 _ 0%nat). vm_compute. reflexivity. }
  split; [exact E|]. split; [exact Hin|].
  exact (captures_use_locked_settings fail_second_capture ["capture.py"] noon [100]
           [1000; 2500] (fresh_world gains0) _ _ _ _ _ E eq_refl Hin).
Defined.
(** ** A failure while the settings file is open *)

Lemma forallb_app_intro {A} (P : A → bool) l1 l2 :
  forallb P l1 = true → forallb P l2 = true → forallb P (l1 ++ l2) = true.
Proof. intros H1 H2. by rewrite forallb_app, H1, H2. Qed.

(** A call made while the settings file is open comes after the stop of
    the preview and the opening of the file. *)
Lemma after_params_split path g isos shutters a o b :
  after_loop_ops path g isos shutters = a ++ o :: b →
  in_params_block o = true →
  ∃ a' b',
    a = [OStopPreview; OOpenFile (path_join path "params.txt")] ++ a' ∧
    params_body_ops (path_join path "params.txt") "off" "off" g isos shutters =
      a' ++ o :: b'.
Proof.
  intros E Hin. unfold after_loop_ops, params_ops in E. simpl in E.
  split_list E a; try discriminate; eexists _, _; split; reflexivity.
Qed.

(** What the file holds when a call raises while it is open: the lines
    written so far. *)
Lemma params_prefix_fsys f em am g isos shutters a o b w :
  params_body_ops f em am g isos shutters = a ++ o :: b →
  ∃ k, (k < 5)%nat ∧
    fsys (run_ok a (run_ok [OOpenFile f] w)) =
    <[f := Text (take k (params_lines em am g isos shutters))]> (fsys w).
Proof.
  intros E. unfold params_body_ops in E. simpl in E.
  split_list E a;
    let fin k :=
      (exists k; split; [lia|]; unfold run_ok, params_lines; simpl; unfold append_line;
       repeat (rewrite lookup_insert_eq, insert_insert_eq); reflexivity) in
    first [ fin 0%nat | fin 1%nat | fin 2%nat | fin 3%nat | fin 4%nat ].
Qed.

(** X5: when a call raises while the settings file is open (a read of a
    mode of the camera or the writing of a line), the session ends with the
    error of that call; the file is closed, then the camera is released,
    and nothing else follows; the last progress line is not printed. By
    then every picture of the product was taken: the images are on disk,
    next to a settings file that holds the lines written so far, fewer
    than five. *)
Theorem manifest_failure_closes_file_then_camera fault argv now isos shutters w r w' evs o :
  main fault argv now isos shutters w = (r, w') →
  trace w' = trace w ++ evs →
  Failed o ∈ evs → in_params_block o = true →
  r = Raise (exn_of o) ∧
  (∃ pre, evs = pre ++ [Failed o; Done (OCloseFile (params_path now)); Done OCloseCamera]) ∧
  (Done (OPrint "Done.") ∉ evs) ∧
  events_of is_capture evs =
    capture_events (base_name argv) (session_path now) (product isos shutters) ∧
  ∃ w1 k,
    session_init fault argv now w = (Ok (base_name argv, session_path now), w1) ∧
    (k < 5)%nat ∧
    fsys w' =
      <[params_path now :=
          Text (take k (params_lines "off" "off" (awb_gains (device w)) isos shutters))]>
        (write_images (base_name argv) (session_path now) (product isos shutters)
           (fsys w1)).
Proof.
  intros Hm Ht Hin Hb.
  assert (Hnm : is_mkdir o = false) by (by destruct o).
  assert (Hne : is_early_op o = false) by (by destruct o).
  destruct (main_shape fault argv now isos shutters w r w' evs Hm Ht)
    as [(_ & Hearly & _)|(w1 & init_evs & Hi & Ho & HI & HS &
          [(-> & -> & ->)|(a & o' & b & Eq & -> & -> & ->)])].
  - apply (only_elem _ _ _ Hearly) in Hin. simpl in Hin. congruence.
  - apply elem_of_app in Hin as [Hin|Hin].
    + apply (only_elem _ _ _ Ho) in Hin. simpl in Hin. congruence.
    + by apply elem_of_map_done in Hin as [? ?].
  - assert (o' = o) as ->.
    { apply elem_of_app in Hin as [Hin|Hin].
      { apply (only_elem _ _ _ Ho) in Hin. simpl in Hin. congruence. }
      apply elem_of_app in Hin as [Hin|Hin].
      { by apply elem_of_map_done in Hin as [? ?]. }
      apply elem_of_cons in Hin as [Hin|Hin]; [congruence|].
      by apply elem_of_map_done in Hin as [? ?]. }
    set (g := awb_gains (device w)) in *.
    set (nm := base_name argv) in *. set (path := session_path now) in *.
    set (Q := λ o : op, negb (in_params_block o)).
    apply session_ops_where in Eq as [(b' & E)|[(a' & b' & -> & E)|(a' & -> & E)]].
    { pose proof (forallb_middle Q (before_loop_ops _ _ _) _ _ _ eq_refl E) as Hq.
      unfold Q in Hq. by rewrite Hb in Hq. }
    { pose proof (forallb_middle Q _ _ _ _ (loop_ops_no_params _ _ _) E) as Hq.
      unfold Q in Hq. by rewrite Hb in Hq. }
    pose proof (captures_past_loop init_evs nm path g isos shutters a' o b Ho E) as Hcap.
    destruct (after_params_split _ _ _ _ _ _ _ E Hb) as (a2 & b2 & -> & E2).
    set (f := path_join path "params.txt") in *.
    set (B := before_loop_ops g isos shutters) in *.
    set (L := loop_ops nm path (enumerate (product isos shutters))) in *.
    assert (Hplain : forallb (λ o, negb (is_with_op o)) a2 = true).
    { exact (forallb_prefix (λ o, negb (is_with_op o))
               (params_body_ops f "off" "off" g isos shutters) _ _ _ eq_refl E2). }
    assert (Hheld : held (B ++ L ++ [OStopPreview; OOpenFile f] ++ a2) [] =
                    [OCloseFile f; OCloseCamera]).
    { rewrite !held_app, (held_plain L) by apply loop_ops_plain.
      by rewrite (held_plain a2) by done. }
    rewrite Hheld in *. unfold params_path. fold path f.
    split; [done|]. split.
    { exists (init_evs ++ map Done (B ++ L ++ [OStopPreview; OOpenFile f] ++ a2)).
      by rewrite <- app_assoc. }
    split.
    { intros Hd.
      set (D := λ o : op, negb (is_done_line o)).
      assert (H : only D (init_evs ++
                    map Done (B ++ L ++ [OStopPreview; OOpenFile f] ++ a2) ++
                    [Failed o] ++ map Done [OCloseFile f; OCloseCamera])).
      { apply only_app; [eapply only_weaken; [|exact Ho]; by intros []|].
        apply only_app.
        { apply only_map_done.
          apply forallb_app_intro; [reflexivity|].
          apply forallb_app_intro; [apply loop_ops_no_done_line|].
          apply forallb_app_intro; [reflexivity|].
          exact (forallb_prefix D (params_body_ops f "off" "off" g isos shutters)
                   a2 o b2 eq_refl E2). }
        apply only_app; [|by repeat constructor].
        repeat constructor. by destruct o. }
      by apply (only_elem _ _ _ H) in Hd. }
    split; [exact Hcap|].
    clear Hcap Hin Hm Ht.
    assert (Hfs : ∃ k, (k < 5)%nat ∧
      fsys (run_ok (B ++ L ++ [OStopPreview; OOpenFile f] ++ a2) w1) =
      <[f := Text (take k (params_lines "off" "off" g isos shutters))]>
        (write_images nm path (product isos shutters) (fsys w1))).
    { rewrite (run_ok_app B), (run_ok_app L), (run_ok_app [OStopPreview; OOpenFile f] a2).
      change (run_ok [OStopPreview; OOpenFile f] ?w0)
        with (run_ok [OOpenFile f] (run_ok [OStopPreview] w0)).
      destruct (params_prefix_fsys f "off" "off" g isos shutters a2 o b2
                  (run_ok [OStopPreview] (run_ok L (run_ok B w1))) E2) as (k & Hk & ->).
      exists k. split; [done|].
      rewrite (run_ok_keeps_fsys [OStopPreview]) by done.
      unfold L. rewrite run_ok_loop_fsys, enumerate_snd.
      by rewrite (run_ok_keeps_fsys B) by done. }
    destruct Hfs as (k & Hk & Hfs).
    exists w1, k. do 2 (split; [done|]).
    rewrite (run_ok_keeps_fsys [OCloseFile f; OCloseCamera]) by done.
    exact Hfs.
Qed.

Lemma manifest_failure_closes_file_then_camera_witness :
  failing_manifest_session = (Raise OSError, failing_manifest_session.2) ∧
  Failed (OWriteLine "capture/2019-07-04-12-00-00/params.txt"
            "Gains: (Fraction(77, 64), Fraction(3, 2))")
    ∈ trace failing_manifest_session.2 ∧
  fsys failing_manifest_session.2 !! "capture/2019-07-04-12-00-00/params.txt" =
    Some (Text ["Exposure mode: off"; "AWB mode: off"]) ∧
  (∃ pre, trace failing_manifest_session.2 =
     pre ++ [Failed (OWriteLine "capture/2019-07-04-12-00-00/params.txt"
                       "Gains: (Fraction(77, 64), Fraction(3, 2))");
             Done (OCloseFile (params_path noon)); Done OCloseCamera]) ∧
  (Done (OPrint "Done.") ∉ trace failing_manifest_session.2) ∧
  events_of is_capture (trace failing_manifest_session.2) =
    capture_events (base_name ["capture.py"]) (session_path noon) (product [100] [1000; 2500]).
Proof.
  assert (E : failing_manifest_session = (Raise OSError, failing_manifest_session.2))
    by (vm_compute; reflexivity).
  assert (Hin : Failed (OWriteLine "capture/2019-07-04-12-00-00/params.txt"
                          "Gains: (Fraction(77, 64), Fraction(3, 2))")
                ∈ trace failing_manifest_session.2).
  { apply (list_elem_of_lookup_2 _ 29%nat). vm_compute. reflexivity. }
  split; [exact E|]. split; [exact Hin|]. split; [vm_compute; reflexivity|].
  destruct (manifest_failure_closes_file_then_camera fail_gains_line ["capture.py"] noon
              [100] [1000; 2500] (fresh_world gains0) _ _ _ _ E eq_refl Hin eq_refl)
    as (_ & Hpre & Hd & Hc & _).
  split; [exact Hpre|]. split; [exact Hd|]. exact Hc.
Defined.
(** ** What the images hold *)

Lemma last_char_app a b c : last_char b = Some c → last_char (a +:+ b) = Some c.
Proof.
  intros Hb. induction a as [|x a IH]; [done|].
  change (String x a +:+ b) with (String x (a +:+ b)).
  change (last_char (String x (a +:+ b)))
    with (match a +:+ b with
          | EmptyString => Some x
          | String _ _ => last_char (a +:+ b)
          end).
  destruct (a +:+ b); [discriminate IH | exact IH].
Qed.

Lemma last_char_is_Some s : is_empty s = false → is_Some (last_char s).
Proof.
  induction s as [|x s IH]; [done|]. intros _.
  destruct s as [|y s]; [by eexists|]. by apply IH.
Qed.

Lemma last_char_forallb P s c :
  string_forallb P s = true → last_char s = Some c → P c = true.
Proof.
  induction s as [|x s IH]; [done|]. simpl. intros [Hx Hs]%andb_true_iff.
  destruct s as [|y s]; [by intros [= <-]|]. by apply IH.
Qed.

Lemma last_char_path_join a b c : last_char b = Some c → last_char (path_join a b) = Some c.
Proof.
  intros Hb. unfold path_join. destruct (startswith_sep b); [done|].
  destruct (is_empty a || endswith_sep a); [by apply last_char_app|].
  apply last_char_app. by apply last_char_app.
Qed.

(** An image file ends in the [g] of its format. *)
Lemma last_char_dest nm path p : last_char (dest nm path p) = Some "g"%char.
Proof.
  unfold dest. apply last_char_path_join. unfold filename.
  do 5 apply last_char_app. reflexivity.
Qed.

(** The folder of a session ends in a digit of its time stamp. *)
Lemma last_char_session_path now :
  ∃ c, last_char (session_path now) = Some c ∧ stamp_char c = true.
Proof.
  destruct (last_char_is_Some _ (strftime_nonempty now)) as [c Hc].
  exists c. split.
  - rewrite session_path_eq. by apply last_char_app.
  - exact (last_char_forallb _ _ _ (strftime_chars now) Hc).
Qed.

(** The settings file is not the image of a pair. *)
Lemma params_not_dest nm path p : path_join path "params.txt" ≠ dest nm path p.
Proof.
  intros E. pose proof (last_char_dest nm path p) as H. rewrite <- E in H.
  by rewrite (last_char_path_join path "params.txt" "t" eq_refl) in H.
Qed.

Lemma session_path_not_dest nm now p : dest nm (session_path now) p ≠ session_path now.
Proof.
  intros E. destruct (last_char_session_path now) as (c & Hc & Hs).
  rewrite <- E, last_char_dest in Hc. by injection Hc as <-.
Qed.

Lemma session_path_not_params now : params_path now ≠ session_path now.
Proof.
  intros E. destruct (last_char_session_path now) as (c & Hc & Hs).
  rewrite <- E in Hc. unfold params_path in Hc.
  rewrite (last_char_path_join _ "params.txt" "t" eq_refl) in Hc. by injection Hc as <-.
Qed.

(** The image of a pair holds the settings of the pair, also when the
    pair comes more than once. *)
Lemma write_images_lookup_eq nm path ps fs p :
  p ∈ ps → write_images nm path ps fs !! dest nm path p = Some (Image p.1 p.2).
Proof.
  induction ps as [|q ps IH] using rev_ind; [by intros ?%elem_of_nil|].
  intros Hp. rewrite write_images_app. simpl.
  destruct (decide (p = q)) as [->|Hne]; [by rewrite lookup_insert_eq|].
  rewrite lookup_insert_ne by (intros E; by apply dest_inj in E).
  apply IH. apply elem_of_app in Hp as [Hp|Hp]; [done|].
  by apply list_elem_of_singleton in Hp.
Qed.

Lemma write_images_lookup_ne nm path ps fs d :
  (∀ p, p ∈ ps → dest nm path p ≠ d) → write_images nm path ps fs !! d = fs !! d.
Proof.
  revert fs. induction ps as [|q ps IH]; intros fs H; [done|]. simpl.
  rewrite IH by (intros p Hp; apply H; by right).
  apply lookup_insert_ne. apply H. by left.
Qed.

(** X6: the file names tell the truth. After a session that ends
    normally, for every sensitivity and exposure time of the ranges, the
    file at the destination of the pair is an image taken with exactly
    this sensitivity and this exposure time; no image is overwritten by
    that of another pair or by the settings file, which is a different
    file. *)
Theorem images_record_their_settings fault argv now isos shutters w u w' i s :
  main fault argv now isos shutters w = (Ok u, w') →
  i ∈ isos → s ∈ shutters →
  fsys w' !! path_join (session_path now) (filename (base_name argv) i s) =
    Some (Image i s) ∧
  path_join (session_path now) (filename (base_name argv) i s) ≠ params_path now.
Proof.
  intros Hm Hi Hs.
  apply main_ok in Hm as (w1 & init_evs & _ & _ & _ & _ & _ & _ & ->).
  pose proof (params_not_dest (base_name argv) (session_path now) (i, s)) as Hne.
  split; [|by intros E; apply Hne].
  rewrite session_fsys, lookup_insert_ne by done.
  apply (write_images_lookup_eq _ _ _ _ (i, s)). by apply elem_of_product.
Qed.

Lemma images_record_their_settings_witness :
  sample_session = (Ok tt, sample_session.2) ∧ 100 ∈ [100] ∧ 2500 ∈ [1000; 2500] ∧
  fsys sample_session.2 !!
    path_join (session_path noon) (filename (base_name ["capture.py"]) 100 2500) =
    Some (Image 100 2500) ∧
  path_join (session_path noon) (filename (base_name ["capture.py"]) 100 2500) ≠
    params_path noon.
Proof.
  assert (E : sample_session = (Ok tt, sample_session.2)) by (vm_compute; reflexivity).
  assert (Hi : 100 ∈ [100]) by (apply (bool_decide_unpack _); vm_compute; reflexivity).
  assert (Hs : 2500 ∈ [1000; 2500]) by (apply (bool_decide_unpack _); vm_compute; reflexivity).
  split; [exact E|]. split; [exact Hi|]. split; [exact Hs|].
  exact (images_record_their_settings no_fault ["capture.py"] noon [100] [1000; 2500]
           (fresh_world gains0) tt _ 100 2500 E Hi Hs).
Defined.

(** ** Running twice in the same second *)

(** The paths that hold a file after the images of some pairs are
    written. *)
Lemma dom_write_images nm path ps (fs : gmap string node) :
  dom (write_images nm path ps fs) = list_to_set (dest nm path <$> ps) ∪ dom fs.
Proof.
  revert fs. induction ps as [|q ps IH]; intros fs; simpl.
  - by rewrite (left_id_L ∅ (∪)).
  - rewrite IH, dom_insert_L. apply set_eq. intros x.
    rewrite !elem_of_union. tauto.
Qed.

(** X7: a session started in the same second as one that ended normally,
    with the same arguments and ranges, writes over the files of the
    first. When it ends normally too, its capture calls have the
    destinations of the capture calls of the first session, in the same
    order; each of these destinations, and the path of the settings file,
    held a file of the first session when the second started; and the
    second session leaves a file at exactly the paths at which the first
    left one: the pictures and the settings file of the first session are
    replaced, and no path is added. *)
Theorem rerun_in_same_second_overwrites_in_place
    fault fault2 argv now isos shutters w u w' evs w2 u2 w2' evs2 :
  main fault argv now isos shutters w = (Ok u, w') →
  trace w' = trace w ++ evs →
  fsys w2 = fsys w' →
  main fault2 argv now isos shutters w2 = (Ok u2, w2') →
  trace w2' = trace w2 ++ evs2 →
  capture_dests evs2 = capture_dests evs ∧
  (∀ d, d ∈ capture_dests evs2 → is_Some (fsys w2 !! d)) ∧
  is_Some (fsys w2 !! params_path now) ∧
  dom (fsys w2') = dom (fsys w').
Proof.
  intros Hm Ht Hfs Hm2 Ht2.
  destruct (main_ok_events _ _ _ _ _ _ _ _ _ Hm Ht)
    as (w1 & init_evs & Hi & Ho & _ & _ & -> & Hf).
  destruct (main_ok_events _ _ _ _ _ _ _ _ _ Hm2 Ht2)
    as (w3 & init_evs2 & Hi2 & Ho2 & _ & _ & -> & Hf2).
  rewrite !capture_dests_session by done. rewrite Hf in Hfs.
  set (nm := base_name argv) in *. set (path := session_path now) in *.
  assert (Hsp : fsys w1 !! path = Some Dir ∧ is_Some (fsys w1 !! folder)).
  { destruct (session_init_cases fault argv now w)
      as (r0 & w0 & E0 & _ & _ & [(-> & Hp & Hfo)|(e & -> & _)]);
      rewrite Hi in E0; [|discriminate]. by injection E0 as <-. }
  destruct Hsp as [Hsp Hfolder].
  assert (Hsame : fsys w3 = fsys w2).
  { destruct (session_init_cases fault2 argv now w2)
      as (r0 & w0 & E0 & _ & Hsame & _).
    rewrite Hi2 in E0. injection E0 as <- <-. apply Hsame; rewrite Hfs.
    - rewrite lookup_insert_ne by apply session_path_not_params.
      rewrite write_images_lookup_ne; [done|].
      intros p _. apply session_path_not_dest.
    - apply lookup_insert_is_Some'. right. by apply write_images_mono. }
  split; [done|]. split; [|split].
  - intros d Hd. apply list_elem_of_fmap in Hd as (p & -> & Hp). rewrite Hfs.
    apply lookup_insert_is_Some'. right. by apply write_images_lookup.
  - rewrite Hfs. unfold params_path. fold path. by rewrite lookup_insert_eq.
  - rewrite Hf2, Hf, Hsame, Hfs.
    rewrite !dom_insert_L, !dom_write_images, !dom_insert_L, !dom_write_images.
    apply set_eq. intros x. rewrite !elem_of_union. tauto.
Qed.

Lemma rerun_in_same_second_overwrites_in_place_witness :
  sample_session = (Ok tt, sample_session.2) ∧
  main no_fault ["capture.py"] noon [100] [1000; 2500] sample_session.2 =
    (Ok tt, (main no_fault ["capture.py"] noon [100] [1000; 2500] sample_session.2).2) ∧
  capture_dests
    (drop (length (trace sample_session.2))
       (trace (main no_fault ["capture.py"] noon [100] [1000; 2500] sample_session.2).2)) =
    capture_dests (trace sample_session.2) ∧
  dom (fsys (main no_fault ["capture.py"] noon [100] [1000; 2500] sample_session.2).2) =
    dom (fsys sample_session.2).
Proof.
  assert (E : sample_session = (Ok tt, sample_session.2)) by (vm_compute; reflexivity).
  assert (E2 : main no_fault ["capture.py"] noon [100] [1000; 2500] sample_session.2 =
    (Ok tt, (main no_fault ["capture.py"] noon [100] [1000; 2500] sample_session.2).2))
    by (vm_compute; reflexivity).
  assert (Ht2 :
    trace (main no_fault ["capture.py"] noon [100] [1000; 2500] sample_session.2).2 =
    trace sample_session.2 ++
    drop (length (trace sample_session.2))
      (trace (main no_fault ["capture.py"] noon [100] [1000; 2500] sample_session.2).2))
    by (vm_compute; reflexivity).
  split; [exact E|]. split; [exact E2|].
  destruct (rerun_in_same_second_overwrites_in_place no_fault no_fault ["capture.py"] noon
              [100] [1000; 2500] (fresh_world gains0) tt _ _ sample_session.2 tt _ _
              E eq_refl eq_refl E2 Ht2) as (Hd & _ & _ & Hdom).
  split; [exact Hd | exact Hdom].
Defined.

(** ** Reading back time stamps and settings *)

Lemma N_to_uint_nonnil n : N.to_uint n ≠ Nil.
Proof.
  destruct n as [|p]; [discriminate|]. apply DecimalPos.Unsigned.to_uint_nonnil.
Qed.

Lemma str_N_inj a b : str_N a = str_N b → a = b.
Proof.
  unfold str_N. intros E. apply DecimalN.Unsigned.to_uint_inj.
  pose proof (NilZero.usu _ (N_to_uint_nonnil a)) as Ha.
  pose proof (NilZero.usu _ (N_to_uint_nonnil b)) as Hb.
  rewrite E in Ha. congruence.
Qed.

(** A rendered number has no leading zero, unless it is zero. *)
Lemma str_N_leading_zero a b : String "0" (str_N a) = str_N b → a = b.
Proof.
  unfold str_N. intros E.
  pose proof (NilZero.usu _ (N_to_uint_nonnil b)) as Hb. rewrite <- E in Hb.
  assert (Ha : NilZero.string_of_uint (N.to_uint a) =
               NilEmpty.string_of_uint (N.to_uint a)).
  { pose proof (N_to_uint_nonnil a). by destruct (N.to_uint a). }
  rewrite Ha in Hb. simpl in Hb. rewrite NilEmpty.usu in Hb. simpl in Hb.
  injection Hb as Hb.
  rewrite <- (DecimalN.Unsigned.of_to a), <- (DecimalN.Unsigned.of_to b), <- Hb.
  reflexivity.
Qed.

Lemma pad2_inj a b : pad2 a = pad2 b → a = b.
Proof.
  unfold pad2.
  destruct (N.ltb_spec a 10) as [Ha|Ha], (N.ltb_spec b 10) as [Hb|Hb]; intros E.
  - apply str_N_inj. by injection E.
  - apply str_N_leading_zero in E. lia.
  - symmetry in E. apply str_N_leading_zero in E. lia.
  - by apply str_N_inj.
Qed.

(** The time stamp of a folder can be read back. *)
Lemma strftime_inj t1 t2 : strftime t1 = strftime t2 → t1 = t2.
Proof.
  destruct t1 as [y1 m1 d1 H1 M1 S1], t2 as [y2 m2 d2 H2 M2 S2].
  unfold strftime. cbn [year month day hour minute second]. intros E.
  apply (digits_sep_split _ _ "-" "-" _ _ (str_N_digits _) (str_N_digits _)
           eq_refl eq_refl) in E as (Ey & _ & E).
  apply (digits_sep_split _ _ "-" "-" _ _ (pad2_digits _) (pad2_digits _)
           eq_refl eq_refl) in E as (Em & _ & E).
  apply (digits_sep_split _ _ "-" "-" _ _ (pad2_digits _) (pad2_digits _)
           eq_refl eq_refl) in E as (Ed & _ & E).
  apply (digits_sep_split _ _ "-" "-" _ _ (pad2_digits _) (pad2_digits _)
           eq_refl eq_refl) in E as (EH & _ & E).
  apply (digits_sep_split _ _ "-" "-" _ _ (pad2_digits _) (pad2_digits _)
           eq_refl eq_refl) in E as (EM & _ & E).
  apply str_N_inj in Ey. apply pad2_inj in Em, Ed, EH, EM, E. by subst.
Qed.

(** X8: sessions started in different seconds never share a folder: the
    time stamp determines the year, month, day, hour, minute and second,
    so two different times give different session folders and different
    settings files. *)
Theorem sessions_of_different_seconds_use_different_folders t1 t2 :
  t1 ≠ t2 →
  strftime t1 ≠ strftime t2 ∧
  session_path t1 ≠ session_path t2 ∧
  params_path t1 ≠ params_path t2.
Proof.
  intros Hne.
  assert (H1 : strftime t1 ≠ strftime t2) by (intros E; by apply strftime_inj in E).
  assert (H2 : session_path t1 ≠ session_path t2).
  { rewrite !session_path_eq. by intros E%append_inj_l. }
  split; [done|]. split; [done|].
  rewrite !params_path_eq. intros E. apply H1.
  rewrite !session_path_eq, !string_app_assoc in E. apply append_inj_l in E.
  pose proof (strftime_chars t1) as C1. pose proof (strftime_chars t2) as C2.
  revert E C1 C2. generalize (strftime t1) (strftime t2). clear.
  intros s1. induction s1 as [|c1 s1 IH]; intros [|c2 s2]; simpl.
  - done.
  - intros [= <- _] _ [C _]%andb_true_iff. discriminate.
  - intros [= -> _] [C _]%andb_true_iff. discriminate.
  - intros [= -> E] [_ C1]%andb_true_iff [_ C2]%andb_true_iff. f_equal. by apply IH.
Qed.

Lemma sessions_of_different_seconds_use_different_folders_witness :
  noon ≠ noon_and_one ∧
  session_path noon ≠ session_path noon_and_one.
Proof.
  assert (Hne : noon ≠ noon_and_one) by (intros H; discriminate H).
  split; [exact Hne|].
  exact (proj1 (proj2 (sessions_of_different_seconds_use_different_folders
                         noon noon_and_one Hne))).
Defined.

(** The rendering of a list of integers, cell by cell. *)
Lemma join_comma_cons x l :
  join_comma (map str_int (x :: l)) +:+ "]" =
  str_int x +:+
  match l with
  | [] => "]"
  | _ :: _ => ", " +:+ join_comma (map str_int l) +:+ "]"
  end.
Proof.
  destruct l as [|y l]; [reflexivity|].
  change (join_comma (map str_int (x :: y :: l)))
    with (str_int x +:+ ", " +:+ join_comma (map str_int (y :: l))).
  by rewrite !string_app_assoc.
Qed.

Lemma join_comma_inj l1 l2 :
  join_comma (map str_int l1) +:+ "]" = join_comma (map str_int l2) +:+ "]" → l1 = l2.
Proof.
  assert (Hnil : ∀ y l, "]" ≠ join_comma (map str_int (y :: l)) +:+ "]").
  { intros y l. rewrite join_comma_cons.
    destruct (str_int_shape y) as (d & Dd & Nd & [-> | ->]); [|discriminate].
    destruct d as [|c d]; [done|]. simpl in Dd. apply andb_true_iff in Dd as [Hc _].
    intros [= <-]. discriminate. }
  revert l2. induction l1 as [|x l1 IH]; intros [|y l2] E.
  - done.
  - by apply Hnil in E.
  - symmetry in E. by apply Hnil in E.
  - rewrite !join_comma_cons in E.
    destruct l1 as [|x' l1], l2 as [|y' l2].
    + by apply str_int_sep_split in E as (-> & _ & _).
    + by apply str_int_sep_split in E as (_ & [=] & _).
    + by apply str_int_sep_split in E as (_ & [=] & _).
    + apply str_int_sep_split in E as (-> & _ & E); [|done..].
      apply (append_inj_l " ") in E. f_equal. by apply IH.
Qed.

(** [str] of a list of integers can be read back. *)
Lemma str_list_inj l1 l2 : str_list l1 = str_list l2 → l1 = l2.
Proof. unfold str_list. intros E%(append_inj_l "["). by apply join_comma_inj. Qed.

Lemma repr_Fraction_sep_split q1 q2 r1 r2 :
  repr_Fraction q1 +:+ r1 = repr_Fraction q2 +:+ r2 → q1 = q2 ∧ r1 = r2.
Proof.
  destruct q1 as [n1 d1], q2 as [n2 d2]. unfold repr_Fraction.
  cbn [numerator denominator]. rewrite !string_app_assoc.
  intros E%(append_inj_l "Fraction(").
  apply str_int_sep_split in E as (-> & _ & E); [|done..].
  apply (append_inj_l " ") in E.
  apply str_int_sep_split in E as (-> & _ & E); [|done..].
  done.
Qed.

(** [str] of a pair of gains can be read back. *)
Lemma str_gains_inj g1 g2 : str_gains g1 = str_gains g2 → g1 = g2.
Proof.
  destruct g1 as [r1 b1], g2 as [r2 b2]. unfold str_gains. cbn [fst snd].
  intros E%(append_inj_l "(").
  apply repr_Fraction_sep_split in E as (-> & E).
  apply (append_inj_l ", ") in E.
  by apply repr_Fraction_sep_split in E as (-> & _).
Qed.

Lemma cons_eq_inv {A} (x y : A) l k : x :: l = y :: k → x = y ∧ l = k.
Proof. by intros [= -> ->]. Qed.

(** X9: the settings file can be read back: its five lines determine
    the two modes, the gains and both ranges. Two sessions whose settings
    files are equal were configured with the same sensitivities and the
    same exposure times, in the same order, and ran with the same gains. *)
Theorem settings_file_determines_the_settings em am g isos shutters em' am' g' isos' shutters' :
  params_lines em am g isos shutters = params_lines em' am' g' isos' shutters' →
  em = em' ∧ am = am' ∧ g = g' ∧ isos = isos' ∧ shutters = shutters'.
Proof.
  unfold params_lines. intros E.
  apply cons_eq_inv in E as [E1 E]. apply cons_eq_inv in E as [E2 E].
  apply cons_eq_inv in E as [E3 E]. apply cons_eq_inv in E as [E4 E].
  apply cons_eq_inv in E as [E5 _].
  apply append_inj_l in E1, E2. apply (append_inj_l "Gains: ") in E3.
  apply (append_inj_l "ISOs: ") in E4. apply (append_inj_l "Shutter speeds: ") in E5.
  apply str_gains_inj in E3. apply str_list_inj in E4, E5. done.
Qed.

Lemma settings_file_determines_the_settings_witness :
  params_lines "off" "off" gains0 [100] [1000; 2500] =
    params_lines "off" "off" gains0 [100] [1000; 2500] ∧
  "off" = "off" ∧ "off" = "off" ∧ gains0 = gains0 ∧
  [100] = [100] ∧ [1000; 2500] = [1000; 2500].
Proof.
  assert (E : params_lines "off" "off" gains0 [100] [1000; 2500] =
              params_lines "off" "off" gains0 [100] [1000; 2500]) by reflexivity.
  split; [exact E|].
  exact (settings_file_determines_the_settings "off" "off" gains0 [100] [1000; 2500]
           "off" "off" gains0 [100] [1000; 2500] E).
Defined.
(** ** What a session does to the files of others *)

Section Files.

Variable fault : list event → op → bool.

(** Creating one folder leaves every entry as it is, or adds the folder. *)
Lemma mkdir_exist_ok_adds p w q :
  fsys (mkdir_exist_ok fault p w).2 !! q = fsys w !! q ∨
  (q = p ∧ fsys w !! q = None ∧ fsys (mkdir_exist_ok fault p w).2 !! q = Some Dir).
Proof.
  destruct (mkdir_exist_ok_cases fault p w) as (r & w' & -> & _ & Hc). simpl.
  destruct Hc as [(_ & _ & ->)|[(Hp & _ & ->)|(_ & -> & _)]]; [by left| |by left].
  destruct (decide (q = p)) as [->|Hne].
  - right. by rewrite lookup_insert_eq.
  - left. by rewrite lookup_insert_ne.
Qed.

Lemma session_init_adds argv now w q :
  fsys (session_init fault argv now w).2 !! q = fsys w !! q ∨
  ((q = folder ∨ q = session_path now) ∧ fsys w !! q = None ∧
   fsys (session_init fault argv now w).2 !! q = Some Dir).
Proof.
  assert (Hsnd : ∀ (m : result unit * world),
    (match m with
     | (Ok _, w') => (Ok (base_name argv, session_path now), w')
     | (Raise e, w') => (Raise e, w')
     end).2 = m.2) by (by intros [[[]|e] w']).
  rewrite session_init_eq, Hsnd. destruct (session_path_length now) as [k ->].
  rewrite makedirs_session_path. set (path := session_path now).
  assert (Hpath : ∀ w1, fsys (mkdir_exist_ok fault path w1).2 !! q = fsys w1 !! q ∨
            ((q = folder ∨ q = path) ∧ fsys w1 !! q = None ∧
             fsys (mkdir_exist_ok fault path w1).2 !! q = Some Dir)).
  { intros w1. destruct (mkdir_exist_ok_adds path w1 q) as [H|(-> & H1 & H2)]; auto. }
  case_bool_decide as Hex; [apply Hpath|].
  pose proof (mkdir_exist_ok_adds folder w q) as Hf.
  destruct (mkdir_exist_ok fault folder w) as [[[]|e] w1]; simpl in Hf.
  - destruct (Hpath w1) as [H|(Hq & H1 & H2)], Hf as [Hf|(-> & Hf1 & Hf2)].
    + left. congruence.
    + right. split; [by left|]. split; [done|]. congruence.
    + right. split; [done|]. split; [congruence|done].
    + congruence.
  - destruct (decide (e = FileExistsError)); simpl.
    + destruct (Hpath w1) as [H|(Hq & H1 & H2)], Hf as [Hf|(-> & Hf1 & Hf2)].
      * left. congruence.
      * right. split; [by left|]. split; [done|]. congruence.
      * right. split; [done|]. split; [congruence|done].
      * congruence.
    + destruct Hf as [Hf|(-> & Hf1 & Hf2)]; [by left|].
      right. split; [by left|]. done.
Qed.

(** The calls of a session never remove an entry. *)
Lemma run_ok_keeps_entries ops w p :
  is_Some (fsys w !! p) → is_Some (fsys (run_ok ops w) !! p).
Proof.
  revert w. induction ops as [|o ops IH]; intros w Hp; [done|]. simpl.
  unfold run_ok in IH. apply IH.
  destruct o; simpl; try done; try (apply lookup_insert_is_Some'; by right).
  unfold append_line. destruct (fsys w !! path) as [[]|]; try done.
  apply lookup_insert_is_Some'. by right.
Qed.

(** The files a run leaves are those of the calls that returned: a part
    of the calls of the undisturbed session, from its beginning. *)
Lemma main_fsys argv now isos shutters w :
  ∃ a b,
    (a = [] ∨
     session_ops (base_name argv) (session_path now) (awb_gains (device w))
       isos shutters = a ++ b) ∧
    fsys (main fault argv now isos shutters w).2 =
    fsys (run_ok a (session_init fault argv now w).2).
Proof.
  destruct (session_init_cases fault argv now w)
    as (r0 & w1 & Hi & _ & _ & [(-> & _)|(e & -> & _)]).
  2:{ exists [], []. split; [by left|]. by rewrite (main_init_fails _ _ _ _ _ _ _ _ Hi), Hi. }
  rewrite Hi. cbn [snd].
  assert (Hempty : isos = [] ∨ shutters = [] →
            ∃ a b,
              (a = [] ∨
               session_ops (base_name argv) (session_path now) (awb_gains (device w))
                 isos shutters = a ++ b) ∧
              fsys (main fault argv now isos shutters w).2 = fsys (run_ok a w1)).
  { intros He. exists [], []. split; [by left|].
    assert (Hk : forallb keeps_fsys (empty_range_ops isos shutters) = true)
      by (by destruct isos).
    destruct (main_empty_cases fault argv now isos shutters w _ w1 Hi He)
      as [E|(a & o & b & Eq & E)]; rewrite E; cbn [snd].
    - by rewrite (run_ok_keeps_fsys [OCloseCamera]), run_ok_keeps_fsys.
    - rewrite run_ok_keeps_fsys by (apply held_only; auto).
      change (fsys (log (Failed o) (run_ok a w1))) with (fsys (run_ok a w1)).
      apply run_ok_keeps_fsys. by eapply forallb_prefix. }
  destruct isos as [|i0 isos]; [apply Hempty; by left|].
  destruct shutters as [|s0 shutters]; [apply Hempty; by right|]. clear Hempty.
  destruct (main_cases fault argv now i0 isos s0 shutters w _ w1 Hi)
    as [E|(a & o & b & Eq & E)]; rewrite E; cbn [snd].
  - eexists _, []. split; [right; by rewrite app_nil_r|]. done.
  - exists a, (o :: b). split; [by right|].
    by rewrite run_ok_keeps_fsys by (apply held_only; auto).
Qed.

Lemma emits_for_each_in {A} P (l : list A) (body : A → M unit) :
  (∀ x, x ∈ l → emits P (body x)) → emits P (for_each l body).
Proof.
  induction l as [|x l IH]; intros Hb; simpl.
  - apply emits_ret.
  - apply emits_bind; [apply Hb; by left|]. intros _. apply IH.
    intros y Hy. apply Hb. by right.
Qed.

(** The folders a session creates are [capture] and its own. *)
Lemma session_init_emits_own nm ps argv now :
  emits (own_write nm (session_path now) ps) (session_init fault argv now).
Proof.
  intros w. set (P := own_write nm (session_path now) ps).
  assert (Hsnd : ∀ (m : result unit * world),
    (match m with
     | (Ok _, w') => (Ok (base_name argv, session_path now), w')
     | (Raise e, w') => (Raise e, w')
     end).2 = m.2) by (by intros [[[]|e] w']).
  rewrite session_init_eq, Hsnd. destruct (session_path_length now) as [k ->].
  rewrite makedirs_session_path.
  assert (Hf : P (OMkdir folder) = true) by (apply bool_decide_eq_true_2; by left).
  assert (Hp : P (OMkdir (session_path now)) = true)
    by (apply bool_decide_eq_true_2; by right).
  case_bool_decide as Hex; [exact (mkdir_exist_ok_emits fault P _ Hp w)|].
  destruct (mkdir_exist_ok_emits fault P _ Hf w) as (evs1 & Ht1 & Ho1).
  assert (Hnext : ∀ w1, trace w1 = trace w ++ evs1 →
            ∃ evs, trace (mkdir_exist_ok fault (session_path now) w1).2 = trace w ++ evs ∧
                   only P evs).
  { intros w1 Hw1. destruct (mkdir_exist_ok_emits fault P _ Hp w1) as (evs2 & Ht2 & Ho2).
    exists (evs1 ++ evs2). split; [by rewrite Ht2, Hw1, <- app_assoc|].
    by apply only_app. }
  destruct (mkdir_exist_ok fault folder w) as [[[]|e1] w1]; simpl in Ht1.
  - by apply Hnext.
  - destruct (decide (e1 = FileExistsError)); [by apply Hnext|]. by exists evs1.
Qed.

(** Inside the block of the camera a session captures to the
    destinations of its pairs and writes to its settings file. *)
Lemma camera_block_emits_own nm path isos shutters :
  emits (own_write nm path (product isos shutters))
    (camera_block fault isos shutters nm path).
Proof.
  set (P := own_write nm path (product isos shutters)).
  assert (Hplain : ∀ o, P o = true → emits P (step fault o))
    by (intros o Ho; by apply emits_step).
  assert (Hfile : bool_decide (path_join path "params.txt" = path_join path "params.txt")
                  = true) by (by apply bool_decide_eq_true_2).
  unfold camera_block.
  apply emits_bind; [by apply Hplain|]. intros _.
  apply emits_bind.
  { unfold calibrate, get_awb_gains.
    repeat first
      [ apply emits_ret | apply emits_gets | apply emits_getitem
      | apply Hplain; reflexivity | apply emits_bind; [|intros ?] ]. }
  intros g. apply emits_bind.
  { unfold capture_loop. apply emits_for_each_in. intros [idx [i s]] Hin.
    assert (Hd : P (OCapture (path_join path (filename nm i s))) = true).
    { apply bool_decide_eq_true_2. apply list_elem_of_fmap. exists (i, s).
      split; [reflexivity|]. rewrite <- (enumerate_snd (product isos shutters)).
      apply list_elem_of_fmap. by exists (idx, (i, s)). }
    unfold capture_one.
    repeat first
      [ apply emits_ret | apply Hplain; reflexivity | apply Hplain; exact Hd
      | apply emits_bind; [|intros ?] ]. }
  intros _. apply emits_bind; [by apply Hplain|]. intros _.
  apply emits_bind; [|intros _; by apply Hplain].
  unfold write_params, with_open, get_exposure_mode, get_awb_mode.
  repeat first
    [ apply emits_ret | apply emits_gets
    | apply Hplain; first [reflexivity | exact Hfile]
    | apply emits_try_finally; [|exact Hfile]
    | apply emits_bind; [|intros ?] ].
Qed.

(** Every call of a run on the file system is one of its own. *)
Lemma main_emits_own argv now isos shutters :
  emits (own_write (base_name argv) (session_path now) (product isos shutters))
    (main fault argv now isos shutters).
Proof.
  intros w. set (P := own_write (base_name argv) (session_path now) (product isos shutters)).
  destruct (session_init_emits_own (base_name argv) (product isos shutters) argv now w)
    as (evs0 & Ht0 & Ho0). fold P in Ho0.
  unfold main. unfold mbind at 1. unfold M_bind at 1.
  destruct (session_init_cases fault argv now w)
    as (r & w1 & E & _ & _ & [(-> & _)|(e & -> & _)]); rewrite E in *; simpl in Ht0.
  2:{ by exists evs0. }
  fold (taking_line isos shutters).
  assert (Hrest : emits P
            (step fault (OPrint (taking_line isos shutters));;
             with_camera fault
               (camera_block fault isos shutters (base_name argv) (session_path now)))).
  { apply emits_bind; [by apply emits_step|]. intros _. unfold with_camera.
    apply emits_bind; [by apply emits_step|]. intros _.
    apply emits_try_finally; [apply camera_block_emits_own | reflexivity]. }
  destruct (Hrest w1) as (evs1 & Ht1 & Ho1).
  exists (evs0 ++ evs1). split; [by rewrite Ht1, Ht0, <- app_assoc|]. by apply only_app.
Qed.

End Files.

(** X10: creating the output folder never touches what is there. Whatever
    the file system holds and whatever the operating system answers, after
    the initialisation every path holds what it held before, except that
    [capture] and the folder of the session may have been added, as
    directories, where there was nothing. *)
Theorem folder_creation_only_adds_directories fault argv now w p :
  fsys (session_init fault argv now w).2 !! p = fsys w !! p ∨
  ((p = folder ∨ p = session_path now) ∧ fsys w !! p = None ∧
   fsys (session_init fault argv now w).2 !! p = Some Dir).
Proof. apply session_init_adds. Qed.

(** X11: a session never removes a file, and writes only to its own.
    On every run, normal or failing, each entry of the file system is
    still there at the end; and every call that creates, opens or writes
    a file or a folder is made on [capture], on the folder of the session,
    on the settings file of the session, or on the destination of a pair
    of the product. The folder of the session is the entry named by the
    time stamp in [capture], the settings file is the entry [params.txt]
    in the folder of the session, and so is, under its file name, the
    destination of every pair when the base name has no separator. *)
Theorem session_changes_only_its_own_files fault argv now isos shutters w r w' evs :
  main fault argv now isos shutters w = (r, w') →
  trace w' = trace w ++ evs →
  (∀ p, is_Some (fsys w !! p) → is_Some (fsys w' !! p)) ∧
  (∀ ev p, ev ∈ evs → touches p (op_of ev) = true →
     p = folder ∨ p = session_path now ∨ p = params_path now ∨
     ∃ i s, i ∈ isos ∧ s ∈ shutters ∧
            p = path_join (session_path now) (filename (base_name argv) i s)) ∧
  path_split (session_path now) = (folder, strftime now) ∧
  path_split (params_path now) = (session_path now, "params.txt") ∧
  (has_sep (base_name argv) = false →
   ∀ i s, path_split (path_join (session_path now) (filename (base_name argv) i s)) =
          (session_path now, filename (base_name argv) i s)).
Proof.
  intros Hm Ht. split; [|split; [|split; [|split]]].
  - intros p Hp.
    destruct (main_fsys fault argv now isos shutters w) as (a & b & _ & Hfs).
    rewrite Hm in Hfs. simpl in Hfs. rewrite Hfs. apply run_ok_keeps_entries.
    destruct (session_init_adds fault argv now w p) as [->|(_ & Hn & _)]; [done|].
    rewrite Hn in Hp. by destruct Hp.
  - intros ev p Hev Hp.
    destruct (main_emits_own fault argv now isos shutters w) as (evs0 & Ht0 & Ho).
    rewrite Hm in Ht0. simpl in Ht0. rewrite Ht in Ht0. apply app_inv_head in Ht0 as <-.
    apply (only_elem _ _ _ Ho) in Hev.
    destruct (op_of ev); simpl in Hev, Hp; try discriminate;
      apply bool_decide_eq_true in Hp as <-; apply bool_decide_eq_true in Hev.
    + destruct Hev as [-> | ->]; auto.
    + right; right; right. apply list_elem_of_fmap in Hev as ([i s] & -> & Hq).
      apply elem_of_product in Hq as [? ?]. by exists i, s.
    + right; right; left. exact Hev.
    + right; right; left. exact Hev.
  - apply session_path_split.
  - rewrite params_path_eq. by apply path_split_child.
  - intros Hnm i s.
    pose proof (filename_no_sep _ i s Hnm) as Hfn.
    rewrite session_path_join by (by apply no_sep_not_absolute).
    by apply path_split_child.
Qed.

Lemma session_changes_only_its_own_files_witness :
  failing_session = (Raise PiCameraError, failing_session.2) ∧
  has_sep (base_name ["capture.py"]) = false ∧
  (∀ ev p, ev ∈ trace failing_session.2 → touches p (op_of ev) = true →
     p = folder ∨ p = session_path noon ∨ p = params_path noon ∨
     ∃ i s, i ∈ [100] ∧ s ∈ [1000; 2500] ∧
            p = path_join (session_path noon) (filename (base_name ["capture.py"]) i s)) ∧
  ∀ i s, path_split (path_join (session_path noon)
                       (filename (base_name ["capture.py"]) i s)) =
         (session_path noon, filename (base_name ["capture.py"]) i s).
Proof.
  assert (E : failing_session = (Raise PiCameraError, failing_session.2))
    by (vm_compute; reflexivity).
  assert (Hnm : has_sep (base_name ["capture.py"]) = false) by reflexivity.
  split; [exact E|]. split; [exact Hnm|].
  destruct (session_changes_only_its_own_files fail_second_capture ["capture.py"] noon
              [100] [1000; 2500] (fresh_world gains0) _ _ _ E eq_refl)
    as (_ & Hown & _ & _ & Hchild).
  split; [exact Hown | exact (Hchild Hnm)].
Defined.

(** ** The progress line *)

(** X12: the number the session announces is the number of pictures it
    takes. In a session that ends normally, the first call after the
    creation of the folder prints [Taking N pictures.], where [N] is the
    number of capture calls the session then makes. *)
Theorem announced_count_is_number_of_captures fault argv now isos shutters w u w' evs :
  main fault argv now isos shutters w = (Ok u, w') →
  trace w' = trace w ++ evs →
  ∃ init_evs rest,
    only is_mkdir init_evs ∧
    evs = init_evs ++
          Done (OPrint ("Taking " +:+
                        str_int (Z.of_nat (length (events_of is_capture evs))) +:+
                        " pictures.")) :: rest.
Proof.
  intros Hm Ht.
  destruct (main_ok_events _ _ _ _ _ _ _ _ _ Hm Ht)
    as (w1 & init_evs & _ & Hi & _ & _ & -> & _).
  exists init_evs,
    (map Done (OOpenCamera fr res ::
               block_ops (base_name argv) (session_path now) (awb_gains (device w))
                 isos shutters ++ [OCloseCamera])).
  split; [done|].
  rewrite captures_session by done.
  unfold capture_events. by rewrite length_map, product_length.
Qed.

Lemma announced_count_is_number_of_captures_witness :
  sample_session = (Ok tt, sample_session.2) ∧
  ∃ init_evs rest,
    only is_mkdir init_evs ∧
    trace sample_session.2 =
      init_evs ++
      Done (OPrint ("Taking " +:+
                    str_int (Z.of_nat (length (events_of is_capture
                                                 (trace sample_session.2)))) +:+
                    " pictures.")) :: rest.
Proof.
  assert (E : sample_session = (Ok tt, sample_session.2)) by (vm_compute; reflexivity).
  split; [exact E|].
  exact (announced_count_is_number_of_captures no_fault ["capture.py"] noon [100]
           [1000; 2500] (fresh_world gains0) tt _ _ E eq_refl).
Defined.
(** ** What is on disk after any run *)


(** ** The pictures of any run *)

Lemma captured_settings_no_capture cur t : only not_capture t → captured_settings cur t = [].
Proof.
  intros H. revert cur. induction H as [|ev t H _ IH]; intros cur; [done|].
  destruct ev as [o|o]; [|apply IH]. destruct o; simpl; try apply IH. discriminate.
Qed.

(** Events without a capture that returned change the settings in force
    and add no picture. *)
Lemma captured_settings_pass cur t1 t2 :
  only not_capture t1 →
  ∃ c, captured_settings cur (t1 ++ t2) = captured_settings c t2.
Proof.
  intros H. revert cur. induction H as [|ev t1 H _ IH]; intros cur; [by exists cur|].
  destruct ev as [o|o]; [|apply IH]. destruct o; simpl; try apply IH. discriminate.
Qed.

(** The settings of the captures of a part of the loop, from its
    beginning, are the first pairs. *)
Lemma loop_prefix_settings nm path its a o b :
  loop_ops nm path its = a ++ o :: b →
  ∃ k, (k ≤ length its)%nat ∧
    ∀ cur t, (∀ c, captured_settings c t = []) →
      captured_settings cur (map Done a ++ t) = take k its.*2.
Proof.
  revert a. induction its as [|[idx [i s]] its IH]; intros a E; [by destruct a|].
  change (loop_ops nm path ((idx, (i, s)) :: its))
    with (iter_ops nm path (idx, (i, s)) ++ loop_ops nm path its) in E.
  apply app_split in E as [(b' & E & _)|(a' & -> & E)].
  - unfold iter_ops in E. simpl in E.
    split_list E a;
      first [ by (exists 0%nat; split; [lia|]; intros cur t Ht; simpl; apply Ht)
            | by (exists 1%nat; split; [simpl; lia|]; intros cur t Ht; simpl;
                  rewrite Ht) ].
  - destruct (IH a' E) as (k & Hk & Hset). exists (S k). split; [simpl; lia|].
    intros cur t Ht. rewrite map_app, <- app_assoc. simpl. by rewrite Hset.
Qed.

(** X14: on every run, normal or failing, the pictures taken are those
    of a beginning of the product: the settings in force at the captures
    that returned are, in order, the first [k] pairs of the Cartesian
    product of the two ranges, for some [k]; no pair is skipped, repeated
    out of turn or taken with the settings of another. *)
Theorem pictures_follow_the_product_on_every_run
    fault argv now isos shutters w r w' evs cur :
  main fault argv now isos shutters w = (r, w') →
  trace w' = trace w ++ evs →
  ∃ k, (k ≤ length (product isos shutters))%nat ∧
       captured_settings cur evs = take k (product isos shutters).
Proof.
  intros Hm Ht.
  set (g := awb_gains (device w)).
  set (nm := base_name argv). set (path := session_path now).
  assert (Hinit : ∀ init_evs t, only is_mkdir init_evs →
            captured_settings cur (init_evs ++ t) = captured_settings cur t).
  { intros init_evs t Ho. apply captured_settings_skip.
    eapply only_weaken; [|exact Ho]. by intros []. }
  assert (Htail : ∀ a o ops, forallb not_capture ops = true →
            ∀ c, captured_settings c (map Done ops ++ [Failed o] ++ map Done (held a [])) = []).
  { intros a o ops Hops c.
    destruct (captured_settings_pass c (map Done ops)
                ([Failed o] ++ map Done (held a [])) (only_map_done _ _ Hops)) as [c' ->].
    simpl. apply captured_settings_no_capture.
    apply only_map_done. apply (held_only not_capture); auto. }
  destruct (main_shape fault argv now isos shutters w r w' evs Hm Ht)
    as [(_ & Hearly & _)|(w1 & init_evs & Hi & Ho & HI & HS &
          [(-> & -> & ->)|(a & o & b & Eq & -> & -> & ->)])].
  - exists 0%nat. split; [lia|]. apply captured_settings_no_capture.
    eapply only_weaken; [|exact Hearly]. by intros [].
  - exists (length (product isos shutters)). split; [done|].
    by rewrite firstn_all, captured_settings_session.
  - fold g nm path in Eq.
    apply session_ops_where in Eq as [(b' & E)|[(a' & b' & -> & E)|(a' & -> & E)]].
    + exists 0%nat. split; [lia|]. apply captured_settings_no_capture.
      apply only_app; [eapply only_weaken; [|exact Ho]; by intros []|].
      apply only_stopped_run; auto.
      * exact (forallb_prefix not_capture (before_loop_ops _ _ _) _ _ _ eq_refl E).
      * exact (forallb_middle not_capture (before_loop_ops _ _ _) _ _ _ eq_refl E).
    + destruct (loop_prefix_settings _ _ _ _ _ _ E) as (k & Hk & Hset).
      exists k. split.
      { rewrite <- (enumerate_snd (product isos shutters)), length_fmap. exact Hk. }
      rewrite Hinit, map_app, <- app_assoc by done.
      change (captured_settings cur (map Done (before_loop_ops g isos shutters) ++ ?t))
        with (captured_settings (hd 0 isos, hd 0 shutters) t).
      rewrite Hset, enumerate_snd; [done|].
      intros c. by apply (Htail _ o []).
    + exists (length (product isos shutters)). split; [done|].
      rewrite firstn_all, Hinit by done.
      rewrite !map_app, <- !app_assoc.
      change (captured_settings cur (map Done (before_loop_ops g isos shutters) ++ ?t))
        with (captured_settings (hd 0 isos, hd 0 shutters) t).
      rewrite captured_settings_loop; [apply enumerate_snd|].
      apply Htail.
      exact (forallb_prefix not_capture (after_loop_ops _ _ _ _) _ _ _ eq_refl E).
Qed.

Lemma pictures_follow_the_product_on_every_run_witness :
  failing_session = (Raise PiCameraError, failing_session.2) ∧
  captured_settings (0, 0) (trace failing_session.2) = [(100, 1000)] ∧
  ∃ k, (k ≤ length (product [100] [1000; 2500]))%nat ∧
       captured_settings (0, 0) (trace failing_session.2) =
       take k (product [100] [1000; 2500]).
Proof.
  assert (E : failing_session = (Raise PiCameraError, failing_session.2))
    by (vm_compute; reflexivity).
  split; [exact E|]. split; [vm_compute; reflexivity|].
  exact (pictures_follow_the_product_on_every_run fail_second_capture ["capture.py"] noon
           [100] [1000; 2500] (fresh_world gains0) _ _ _ (0, 0) E eq_refl).
Defined.

